(** * Habit tracker: completion store, calendar utilities and rollup engine

    A shallow embedding of the analytics core of the habit tracker
    (the functions at the top of the application module) together with
    the properties its specification states about them.

    Conventions of the embedding.
    - A JavaScript object used as a dictionary is a [gmap] keyed by
      strings.  A completion log maps a date key to a day object, and a
      day object maps a habit id to the truthiness of what is stored
      under it (the application only ever stores [true]).  These maps
      hold the own properties; a read also finds what a plain object
      inherits from [Object.prototype] ([inherited]).
    - Where a property is about what a function does to its argument
      objects, the function is embedded a second time over an explicit
      object heap ([Module Heap]) and related to the pure version.
    - The numbers of the calendar code (date fields and counts) are
      [NaN] or mathematical integers, which is exact for the integers of
      magnitude below 2^53 that this code manipulates; rates and the
      targets of habits are doubles.
    - A [Date] is [InvalidDate] or the number of its local calendar day
      counted from 1970-01-01, which is all that the functions reading
      calendar fields depend on.  Where dates are compared as instants
      (the loop of [dateRangeInclusive]) their local time of day is
      carried along, and what the time zone does to it is a parameter
      ([Zone]).  The calendar fields are those of ECMAScript
      (YearFromTime, MonthFromTime, DateFromTime, WeekDay, MakeDay,
      TimeClip). *)

From Stdlib Require Import ZArith Lia Ascii String List Floats.
From stdpp Require Import gmap strings list fin_maps sorting.

Local Open Scope Z_scope.

(** ** Completion store accessors *)

Abbreviation day := (gmap string bool).
Abbreviation log := (gmap string day).

(** [Object.keys(o)] *)
Definition Object_keys {A} (o : gmap string A) : list string :=
  (map_to_list o).*1.

(** A property read [o[k]] looks [k] up among the own properties of [o]
    and then along its prototype chain.  The objects of the store are
    plain objects, whose prototype is [Object.prototype].  These are the
    names of the properties of [Object.prototype] (those of ECMAScript,
    with the legacy accessors that every browser provides); read through
    a plain object each of them is truthy: a function, or, for
    [__proto__], the prototype itself. *)
Definition Object_prototype : list string :=
  ["constructor"; "__defineGetter__"; "__defineSetter__"; "hasOwnProperty";
   "__lookupGetter__"; "__lookupSetter__"; "isPrototypeOf";
   "propertyIsEnumerable"; "toString"; "valueOf"; "__proto__";
   "toLocaleString"].

Definition inherited (k : string) : bool :=
  bool_decide (k ∈ Object_prototype).

(** [o[k]] read as a condition: the own property [k] of [o] when there
    is one, and the inherited one otherwise. *)
Definition truthy (o : gmap string bool) (k : string) : bool :=
  match o !! k with
  | Some v => v
  | None => inherited k
  end.

(** [!!(completions?.[dateISO]?.[habitId])].  When [dateISO] is not an
    own key of the log, [completions[dateISO]] is [undefined] and the
    result is [false].  That leaves out the date keys that are names of
    [Object.prototype]: for these the source reads a property of a
    built-in object, which depends on the host.  Such date keys are not
    represented, and every statement below that reads a date key which may
    be absent from the log assumes [inherited dateISO = false]. *)
Definition isCompleted (completions : log) (dateISO habitId : string) : bool :=
  match completions !! dateISO with
  | Some d => truthy d habitId
  | None => false
  end.

Definition toggleCompletion (completions : log) (dateISO habitId : string) : log :=
  (* const day = { ...(completions[dateISO] || {}) };
     the spread copies own properties only, and a built-in object that
     an inherited date key reads has no enumerable one *)
  let day0 : day := default ∅ (completions !! dateISO) in
  (* if (day[habitId]) delete day[habitId]; else day[habitId] = true; *)
  let day1 : day :=
    if truthy day0 habitId then delete habitId day0
    else <[habitId := true]> day0 in
  (* const next = { ...completions, [dateISO]: day }; *)
  let next : log := <[dateISO := day1]> completions in
  (* if (Object.keys(next[dateISO]).length === 0) { copy = {...next}; delete copy[dateISO] } *)
  if (length (Object_keys (default ∅ (next !! dateISO))) =? 0)%nat
  then delete dateISO next
  else next.

(** The day object [toggleCompletion] stores at [dateISO] before it
    prunes ([toggleCompletion_eq]). *)
Definition flipped (L : log) (dateISO habitId : string) : day :=
  let day0 : day := default ∅ (L !! dateISO) in
  if truthy day0 habitId then delete habitId day0
  else <[habitId := true]> day0.

(** ** The state document and the habit-deletion cascade *)

Record habit := {
  habit_id : string;
  habit_name : string;
  habit_targetPerWeek : float;
  habit_active : bool;
  habit_createdAtISO : string;
  habit_notes : string
}.

Record state := {
  st_weekStartsOn : Z;
  st_habits : list habit;
  st_completions : log
}.

(** The loop of [deleteHabit] over [Object.entries(prev.completions)]. *)
Definition deleteHabit_completions (habitId : string) (completions : log) : log :=
  map_fold
    (λ (dateISO : string) (d : day) (nextCompletions : log),
       let copy := delete habitId d in
       if (0 <? length (Object_keys copy))%nat
       then <[dateISO := copy]> nextCompletions
       else nextCompletions)
    ∅ completions.

Definition deleteHabit (habitId : string) (prev : state) : state :=
  {| st_weekStartsOn := st_weekStartsOn prev;
     st_habits := filter (λ h, habit_id h ≠ habitId) (st_habits prev);
     st_completions := deleteHabit_completions habitId (st_completions prev) |}.

(** A well-formed log: every day that is present is a non-empty set of
    habit ids, a set being an object whose properties all hold [true]. *)
Definition nonempty_days (L : log) : Prop :=
  ∀ k d, L !! k = Some d → d ≠ ∅.

Definition days_are_sets (L : log) : Prop :=
  ∀ k d h v, L !! k = Some d → d !! h = Some v → v = true.

Definition well_formed (L : log) : Prop :=
  nonempty_days L ∧ days_are_sets L.

(** ** The same accessors over an object heap *)

Module Heap.

Definition loc := positive.

Inductive jsval :=
| JBool (b : bool)
| JRef (l : loc).

Abbreviation jsobj := (gmap string jsval).
Abbreviation heap := (gmap loc jsobj).

(** A computation that reads and writes the heap. *)
Definition M (A : Type) : Type := heap → A * heap.
#[export] Instance heap_ret : MRet M := λ A a h, (a, h).
#[export] Instance heap_bind : MBind M :=
  λ A B k m h, let '(a, h') := m h in k a h'.

Definition is_truthy (v : option jsval) : bool :=
  match v with
  | Some (JBool b) => b
  | Some (JRef _) => true
  | None => false
  end.

(** The own properties of the object a value denotes; a boolean or
    [undefined] has none. *)
Definition own (h : heap) (v : option jsval) : jsobj :=
  match v with
  | Some (JRef l) => default ∅ (h !! l)
  | _ => ∅
  end.

(** [{ ...v }] and [{ ...v, [k]: x }]: a new object. *)
Definition alloc (o : jsobj) : M loc :=
  λ h, let l := fresh (dom h) in (l, <[l := o]> h).
Definition spread (v : option jsval) : M loc :=
  λ h, alloc (own h v) h.
Definition spread_with (v : option jsval) (k : string) (x : jsval) : M loc :=
  λ h, alloc (<[k := x]> (own h v)) h.

(** [o[k]] for an own property, [o[k]] read as a condition (an own
    property, or one that a value other than [undefined] inherits),
    [o[k] = x], [delete o[k]] and [Object.keys(o).length]. *)
Definition get (o : option jsval) (k : string) : M (option jsval) :=
  λ h, (own h o !! k, h).
Definition test (o : option jsval) (k : string) : M bool :=
  λ h, (match own h o !! k with
        | Some v => is_truthy (Some v)
        | None => bool_decide (is_Some o) && inherited k
        end, h).
Definition set (l : loc) (k : string) (x : jsval) : M unit :=
  λ h, (tt, alter (insert k x) l h).
Definition del (l : loc) (k : string) : M unit :=
  λ h, (tt, alter (delete k) l h).
Definition keys_length (o : option jsval) : M nat :=
  λ h, (length (Object_keys (own h o)), h).

(** [a || {}] *)
Definition or_empty (a : option jsval) : M (option jsval) :=
  if is_truthy a then mret a else l ← alloc ∅; mret (Some (JRef l)).

Definition isCompleted (completions : loc) (dateISO habitId : string) : M bool :=
  d ← get (Some (JRef completions)) dateISO;
  test d habitId.

Definition toggleCompletion (completions : loc) (dateISO habitId : string) : M loc :=
  (* const day = { ...(completions[dateISO] || {}) }; *)
  d0 ← get (Some (JRef completions)) dateISO;
  src ← or_empty d0;
  day ← spread src;
  (* if (day[habitId]) delete day[habitId]; else day[habitId] = true; *)
  v ← test (Some (JRef day)) habitId;
  (if (v : bool) then del day habitId else set day habitId (JBool true));;
  (* const next = { ...completions, [dateISO]: day }; *)
  next ← spread_with (Some (JRef completions)) dateISO (JRef day);
  (* if (Object.keys(next[dateISO]).length === 0) *)
  nd ← get (Some (JRef next)) dateISO;
  n ← keys_length nd;
  if (n =? 0)%nat then
    (* const copy = { ...next }; delete copy[dateISO]; return copy; *)
    copy ← spread (Some (JRef next));
    del copy dateISO;;
    mret copy
  else mret next.

(** Every reference stored in the heap points into the heap. *)
Definition closed_val (h : heap) (v : jsval) : Prop :=
  match v with JRef l => l ∈ dom h | JBool _ => True end.
Definition closed (h : heap) : Prop :=
  ∀ l o k v, h !! l = Some o → o !! k = Some v → closed_val h v.

(** The log a heap object denotes. *)
Definition day_of (h : heap) (v : jsval) : day :=
  (λ x, is_truthy (Some x)) <$> own h (Some v).
Definition log_of (h : heap) (completions : loc) : log :=
  day_of h <$> own h (Some (JRef completions)).

End Heap.

(** ** Numbers and strings *)

Inductive jsnum :=
| NaN
| Num (z : Z).

Definition num_map (f : Z → Z) (a : jsnum) : jsnum :=
  match a with Num x => Num (f x) | NaN => NaN end.

Definition num_add (a b : jsnum) : jsnum :=
  match a, b with Num x, Num y => Num (x + y) | _, _ => NaN end.

Definition num_sub (a b : jsnum) : jsnum :=
  match a, b with Num x, Num y => Num (x - y) | _, _ => NaN end.

(** [a % b] for integers: the remainder has the sign of the dividend. *)
Definition num_rem (a b : jsnum) : jsnum :=
  match a, b with
  | Num x, Num y => if y =? 0 then NaN else Num (Z.rem x y)
  | _, _ => NaN
  end.

Definition digit (k : Z) : ascii := ascii_of_N (Z.to_N (48 + k)).

Fixpoint digits_loop (fuel : nat) (n : Z) (acc : string) : string :=
  match fuel with
  | O => acc
  | S fuel' =>
      let acc' := String (digit (n `mod` 10)) acc in
      if n <? 10 then acc' else digits_loop fuel' (n / 10) acc'
  end.

(** The decimal digits of [n ≥ 0]; a number has no more decimal than
    binary digits, so the loop below always ends on [n < 10]. *)
Definition digits (n : Z) : string :=
  digits_loop (S (Z.to_nat (Z.log2 n))) n "".

(** [String(n)] and the [${n}] of a template literal. *)
Definition String_of (n : jsnum) : string :=
  match n with
  | NaN => "NaN"
  | Num z => if z <? 0 then String "-" (digits (- z)) else digits z
  end.

(** [s.padStart(targetLength, c)] for a one-character filler. *)
Definition padStart (s : string) (targetLength : nat) (c : ascii) : string :=
  string_of_list_ascii (replicate (targetLength - String.length s) c) +:+ s.

Definition pad2 (n : jsnum) : string := padStart (String_of n) 2 "0".

(** [s.split(sep)] for a one-character separator. *)
Fixpoint split (sep : ascii) (s : string) : list string :=
  match s with
  | EmptyString => [EmptyString]
  | String c s' =>
      if Ascii.eqb c sep then EmptyString :: split sep s'
      else match split sep s' with
           | x :: r => String c x :: r
           | [] => [String c EmptyString]
           end
  end.

Definition is_digit (c : ascii) : bool :=
  ((48 <=? N_of_ascii c) && (N_of_ascii c <=? 57))%N.

Fixpoint all_digits (s : string) : bool :=
  match s with
  | EmptyString => true
  | String c s' => is_digit c && all_digits s'
  end.

Fixpoint digits_value (s : string) (acc : Z) : option Z :=
  match s with
  | EmptyString => Some acc
  | String c s' =>
      if is_digit c
      then digits_value s' (10 * acc + (Z.of_N (N_of_ascii c) - 48))
      else None
  end.

(** [Number(s)].  The empty string is 0 and a string of decimal digits
    is its value, leading zeros allowed.  The numerals JavaScript accepts
    beyond these (sign, fraction, exponent, radix prefix, [Infinity],
    surrounding white space) are not represented: they read as [NaN]
    here, and nothing below is stated about a string of those shapes. *)
Definition Number (s : string) : jsnum :=
  match digits_value s 0 with
  | Some z => Num z
  | None => NaN
  end.

(** ** Dates *)

Inductive jsdate :=
| InvalidDate
| Day (n : Z).

Definition InLeapYear_of (y : Z) : Z :=
  if (y `mod` 4 =? 0) && (negb (y `mod` 100 =? 0) || (y `mod` 400 =? 0))
  then 1 else 0.

Definition DaysInYear (y : Z) : Z := 365 + InLeapYear_of y.

Definition DayFromYear (y : Z) : Z :=
  365 * (y - 1970) + (y - 1969) / 4 - (y - 1901) / 100 + (y - 1601) / 400.

(** The largest [y] with [DayFromYear y ≤ n] ([YearFromDay_spec]): the
    mean year length gives it up to one year. *)
Definition YearFromDay (n : Z) : Z :=
  let y := 1970 + (400 * n) / 146097 in
  if DayFromYear (y + 1) <=? n then y + 1
  else if DayFromYear y <=? n then y
  else y - 1.

Definition DayWithinYear (n : Z) : Z := n - DayFromYear (YearFromDay n).

Definition MonthFromDay (n : Z) : Z :=
  let d := DayWithinYear n in
  let leap := InLeapYear_of (YearFromDay n) in
  if d <? 31 then 0
  else if d <? 59 + leap then 1
  else if d <? 90 + leap then 2
  else if d <? 120 + leap then 3
  else if d <? 151 + leap then 4
  else if d <? 181 + leap then 5
  else if d <? 212 + leap then 6
  else if d <? 243 + leap then 7
  else if d <? 273 + leap then 8
  else if d <? 304 + leap then 9
  else if d <? 334 + leap then 10
  else 11.

(** The day within the year on which month [mn] (0 to 11) begins. *)
Definition MonthStart (leap mn : Z) : Z :=
  match mn with
  | 0 => 0
  | 1 => 31
  | 2 => 59 + leap
  | 3 => 90 + leap
  | 4 => 120 + leap
  | 5 => 151 + leap
  | 6 => 181 + leap
  | 7 => 212 + leap
  | 8 => 243 + leap
  | 9 => 273 + leap
  | 10 => 304 + leap
  | _ => 334 + leap
  end.

(** The number of days of month [mn] (0 to 11) of year [y]. *)
Definition DaysInMonth (y mn : Z) : Z :=
  match mn with
  | 1 => 28 + InLeapYear_of y
  | 3 | 5 | 8 | 10 => 30
  | _ => 31
  end.

Definition DateFromDay (n : Z) : Z :=
  DayWithinYear n
  - MonthStart (InLeapYear_of (YearFromDay n)) (MonthFromDay n) + 1.

Definition WeekDay (n : Z) : Z := (n + 4) `mod` 7.

(** [MakeDay(year, month, date)]: the day number of the first of month
    [month mod 12] of year [year + floor(month / 12)], plus [date - 1]. *)
Definition MakeDay (year month date : Z) : Z :=
  let ym := year + month / 12 in
  let mn := month `mod` 12 in
  DayFromYear ym + MonthStart (InLeapYear_of ym) mn + date - 1.

(** [TimeClip]: a time value is at most 8.64e15 ms, that is 10^8 days,
    from the epoch. *)
Definition TimeClip (n : Z) : jsdate :=
  if Z.abs n <=? 100000000 then Day n else InvalidDate.

(** [new Date(y, m, d)]; a year from 0 to 99 means 1900 + y. *)
Definition new_Date (y m d : jsnum) : jsdate :=
  match y, m, d with
  | Num y, Num m, Num d =>
      let yr := if (0 <=? y) && (y <=? 99) then 1900 + y else y in
      TimeClip (MakeDay yr m d)
  | _, _, _ => InvalidDate
  end.

Definition getFullYear (d : jsdate) : jsnum :=
  match d with Day n => Num (YearFromDay n) | InvalidDate => NaN end.
Definition getMonth (d : jsdate) : jsnum :=
  match d with Day n => Num (MonthFromDay n) | InvalidDate => NaN end.
Definition getDate (d : jsdate) : jsnum :=
  match d with Day n => Num (DateFromDay n) | InvalidDate => NaN end.
Definition getDay (d : jsdate) : jsnum :=
  match d with Day n => Num (WeekDay n) | InvalidDate => NaN end.

Definition setDate (d : jsdate) (dt : jsnum) : jsdate :=
  match d, dt with
  | Day n, Num dt => TimeClip (MakeDay (YearFromDay n) (MonthFromDay n) dt)
  | _, _ => InvalidDate
  end.

Definition setMonth (d : jsdate) (m : jsnum) : jsdate :=
  match d, m with
  | Day n, Num m => TimeClip (MakeDay (YearFromDay n) m (DateFromDay n))
  | _, _ => InvalidDate
  end.

(** [d.setHours(0, 0, 0, 0)]: the calendar day is kept. *)
Definition setHours0 (d : jsdate) : jsdate := d.

(** ** The time zone

    A [Date] is an instant, and the functions above read and set it
    through the local calendar fields of the host's time zone.  Setting
    the day of a date keeps its local time of day, and a local time that a
    clock change skips does not exist: the date then lands after the gap
    (ECMAScript reads a skipped local time with the offset in force before
    the change).  [settle n t] is the local time of day, in milliseconds,
    of the date that is set to local day [n] at time of day [t]: [t]
    itself where that local time exists.  In particular [settle n 0] is
    the time of day at which local day [n] begins, which is 0 unless the
    clocks go forward at midnight on that day.  A zone is taken never to
    move a date to another calendar day in this way. *)
Class Zone := settle : Z → Z → Z.

(** The zone without clock changes, and a zone whose clocks go forward
    by [gap] milliseconds at midnight of day [n0], as they do in
    America/Santiago on 2024-09-08. *)
Definition UTC : Zone := λ _ t, t.

Definition forward_at_midnight (n0 gap : Z) : Zone :=
  λ n t, if (n =? n0) && (t <? gap) then t + gap else t.

(** The time of day of a date built by [new Date(y, m, d)] or truncated
    by [setHours(0, 0, 0, 0)], and the time of day of a date that
    [setDate] has moved to day [d] from time of day [t]. *)
Definition midnight `{Zone} (d : jsdate) : Z :=
  match d with Day n => settle n 0 | InvalidDate => 0 end.

Definition carried `{Zone} (d : jsdate) (t : Z) : Z :=
  match d with Day n => settle n t | InvalidDate => 0 end.

(** [a <= b] on dates compares instants, that is local days and then
    local times of day; it is false on [NaN]. *)
Definition date_le (a : jsdate) (ta : Z) (b : jsdate) (tb : Z) : bool :=
  match a, b with
  | Day x, Day y => (x <? y) || ((x =? y) && (ta <=? tb))
  | _, _ => false
  end.

(** ** Calendar utilities *)

Definition toISODate (d : jsdate) : string :=
  String_of (getFullYear d) +:+ "-" +:+
  pad2 (num_add (getMonth d) (Num 1)) +:+ "-" +:+
  pad2 (getDate d).

Definition parseISODate (iso : string) : jsdate :=
  let parts := Number <$> split "-" iso in
  let y := nth 0 parts NaN in
  let m := nth 1 parts NaN in
  let d := nth 2 parts NaN in
  new_Date y (num_sub m (Num 1)) d.

Definition addDays (date : jsdate) (n : Z) : jsdate :=
  setDate date (num_add (getDate date) (Num n)).

Definition startOfWeek (date : jsdate) (weekStartsOn : Z) : jsdate :=
  let day := getDay date in
  let diff := num_rem (num_add (num_sub day (Num weekStartsOn)) (Num 7)) (Num 7) in
  setHours0 (setDate date (num_sub (getDate date) diff)).

Definition startOfMonth (date : jsdate) : jsdate :=
  setHours0 (setDate date (Num 1)).

(** The loop [for (d = ...; d <= end; d = addDays(d, 1))], from a date [d]
    at time of day [t] to an end date at its midnight. *)
Fixpoint dateRange_from `{Zone} (fuel : nat) (d : jsdate) (t : Z)
    (end_ : jsdate) : list string :=
  match fuel with
  | O => []
  | S fuel' =>
      if date_le d t end_ (midnight end_)
      then
        let d' := addDays d 1 in
        toISODate d :: dateRange_from fuel' d' (carried d' t) end_
      else []
  end.

(** The loop of [dateRangeInclusive] from [new Date(start)], where
    [start] and [end_] have been set to midnight. *)
Definition dateRange_loop `{Zone} (fuel : nat) (start end_ : jsdate) :
    list string :=
  dateRange_from fuel start (midnight start) end_.

(** The number of days from [start] to [end_] bounds the iterations of
    the loop ([dateRange_loop_fuel]). *)
Definition dateRange_fuel (start end_ : jsdate) : nat :=
  match start, end_ with
  | Day a, Day b => Z.to_nat (b - a + 1)
  | _, _ => O
  end.

Definition dateRangeInclusive `{Zone} (startISO endISO : string) : list string :=
  let start := setHours0 (parseISODate startISO) in
  let end_ := setHours0 (parseISODate endISO) in
  dateRange_loop (dateRange_fuel start end_) start end_.


(** The shape the specification gives a date key: three components
    separated by dashes, numerals of four, two and two digits. *)
Definition date_key_shape (s : string) : bool :=
  match split "-" s with
  | [y; m; d] =>
      all_digits y && all_digits m && all_digits d &&
      (String.length y =? 4)%nat && (String.length m =? 2)%nat &&
      (String.length d =? 2)%nat
  | _ => false
  end.

(** ** Rates

    [Math.round((a / b) * 100)] is computed in IEEE 754 double precision,
    here with the binary64 floats of the kernel. *)

Definition float_of_Z (z : Z) : float :=
  if z <? 0 then PrimFloat.opp (PrimFloat.of_uint63 (Uint63.of_Z (- z)))
  else PrimFloat.of_uint63 (Uint63.of_Z z).

(** [Math.round(x)] for a finite [x]: the nearest integer, a tie going
    up.  It is only applied to quotients by a non-zero divisor. *)
Definition Math_round (x : float) : Z :=
  match Prim2SF x with
  | S754_finite s m e =>
      let n := if s then Z.neg m else Z.pos m in
      if 0 <=? e then n * 2 ^ e
      else (2 * n + 2 ^ (- e)) / 2 ^ (- e + 1)
  | _ => 0
  end.

Definition percent (a b : Z) : Z :=
  Math_round (PrimFloat.mul (PrimFloat.div (float_of_Z a) (float_of_Z b))
                            (float_of_Z 100)).

(** [b ? Math.round((a / b) * 100) : 0] *)
Definition rate_of (a b : Z) : Z :=
  if b =? 0 then 0 else percent a b.

(** ** Rollup engine *)

(** [l.length] *)
Definition len {A} (l : list A) : Z := Z.of_nat (length l).

Definition getActiveHabits (habits : list habit) : list habit :=
  filter (λ h, habit_active h = true) habits.

Record dailyPoint := {
  dp_dateISO : string;
  dp_label : string;
  dp_completed : Z;
  dp_total : Z;
  dp_rate : Z
}.

Record weeklyPoint := {
  wp_weekStartISO : string;
  wp_label : string;
  wp_completedTotal : Z;
  wp_totalPossible : Z;
  wp_rate : Z;
  wp_perHabit : gmap string Z
}.

Record monthlyPoint := {
  mp_monthISO : string;
  mp_label : string;
  mp_completedTotal : Z;
  mp_totalPossible : Z;
  mp_rate : Z;
  mp_daysInMonth : Z;
  mp_perHabit : gmap string Z
}.

Record daySummary := {
  ds_total : Z;
  ds_completed : Z;
  ds_remaining : Z;
  ds_rate : Z
}.

(** [active.forEach((h) => (perHabit[h.id] = 0))] followed by
    [days.forEach((dISO) => active.forEach((h) =>
       { if (isCompleted(completions, dISO, h.id)) perHabit[h.id] += 1; }))].
    Every id incremented was set to 0 first. *)
Definition perHabit_of (active : list habit) (completions : log)
    (days : list string) : gmap string Z :=
  let perHabit0 :=
    foldl (λ acc h, <[habit_id h := 0]> acc) (∅ : gmap string Z) active in
  foldl (λ acc dISO,
           foldl (λ acc h,
                    if isCompleted completions dISO (habit_id h)
                    then alter (λ v, v + 1) (habit_id h) acc
                    else acc)
                 acc active)
        perHabit0 days.

(** [Object.values(perHabit).reduce((a, b) => a + b, 0)] *)
Definition sum_values (perHabit : gmap string Z) : Z :=
  map_fold (λ _ b a, a + b) 0 perHabit.

Section rollups.
(** [toLocaleDateString(undefined, { month: "short", day: "numeric" })]
    and [toLocaleDateString(undefined, { year: "2-digit", month: "short" })]
    depend on the locale of the host. *)
Variable locale_short : jsdate → string.
Variable locale_month : jsdate → string.

(** The value of [new Date()]. *)
Variable now : jsdate.

Context {zone : Zone}.

Definition formatShort (iso : string) : string :=
  locale_short (parseISODate iso).
Definition formatMonthLabel (iso : string) : string :=
  locale_month (parseISODate iso).

Definition rollupDaily (habits : list habit) (completions : log)
    (startISO endISO : string) : list dailyPoint :=
  let active := getActiveHabits habits in
  let days := dateRangeInclusive startISO endISO in
  (λ iso,
     let completedCount :=
       foldl (λ acc h, acc + (if isCompleted completions iso (habit_id h)
                              then 1 else 0)) 0 active in
     {| dp_dateISO := iso;
        dp_label := formatShort iso;
        dp_completed := completedCount;
        dp_total := len active;
        dp_rate := rate_of completedCount (len active) |}) <$> days.

(** The body of the loop of [rollupWeekly] at index [i]. *)
Definition weekPoint (active : list habit) (completions : log)
    (thisWeekStart : jsdate) (i : Z) : weeklyPoint :=
  let ws := addDays thisWeekStart (-7 * i) in
  let we := addDays ws 6 in
  let wsISO := toISODate ws in
  let weISO := toISODate we in
  let days := dateRangeInclusive wsISO weISO in
  let perHabit := perHabit_of active completions days in
  let completedTotal := sum_values perHabit in
  let totalPossible := len active * 7 in
  {| wp_weekStartISO := wsISO;
     wp_label := formatShort wsISO +:+ "–" +:+ formatShort weISO;
     wp_completedTotal := completedTotal;
     wp_totalPossible := totalPossible;
     wp_rate := rate_of completedTotal totalPossible;
     wp_perHabit := perHabit |}.

(** [for (let i = start; i >= 0; i--) out.push(body(i))] *)
Fixpoint countdown_loop {A} (fuel : nat) (body : Z → A) (i : Z)
    (out : list A) : list A :=
  match fuel with
  | O => out
  | S fuel' =>
      if 0 <=? i then countdown_loop fuel' body (i - 1) (out ++ [body i])
      else out
  end.

Definition rollupWeekly (habits : list habit) (completions : log)
    (weeksBack weekStartsOn : Z) : list weeklyPoint :=
  let active := getActiveHabits habits in
  let end_ := now in
  let thisWeekStart := startOfWeek end_ weekStartsOn in
  countdown_loop (Z.to_nat weeksBack)
    (weekPoint active completions thisWeekStart) (weeksBack - 1) [].

(** The body of the loop of [rollupMonthly] at index [i]. *)
Definition monthPoint (active : list habit) (completions : log)
    (cur : jsdate) (i : Z) : monthlyPoint :=
  let mStart :=
    setHours0 (setDate (setMonth cur (num_sub (getMonth cur) (Num i))) (Num 1)) in
  let nextStart := setMonth mStart (num_add (getMonth mStart) (Num 1)) in
  let startISO := toISODate mStart in
  let endISO := toISODate (addDays nextStart (-1)) in
  let days := dateRangeInclusive startISO endISO in
  let perHabit := perHabit_of active completions days in
  let completedTotal := sum_values perHabit in
  let totalPossible := len active * len days in
  {| mp_monthISO := startISO;
     mp_label := formatMonthLabel startISO;
     mp_completedTotal := completedTotal;
     mp_totalPossible := totalPossible;
     mp_rate := rate_of completedTotal totalPossible;
     mp_daysInMonth := len days;
     mp_perHabit := perHabit |}.

Definition rollupMonthly (habits : list habit) (completions : log)
    (monthsBack : Z) : list monthlyPoint :=
  let active := getActiveHabits habits in
  let cur := startOfMonth now in
  countdown_loop (Z.to_nat monthsBack)
    (monthPoint active completions cur) (monthsBack - 1) [].

(** The key of the day [i] days before today, as [computeStreak]
    computes it. *)
Definition streak_key (i : Z) : string :=
  let todayISO := toISODate now in
  toISODate (addDays (parseISODate todayISO) (- i)).

Fixpoint streak_loop (fuel : nat) (habitId : string) (completions : log)
    (i streak : Z) : Z :=
  match fuel with
  | O => streak
  | S fuel' =>
      if i <? 3650 then
        if isCompleted completions (streak_key i) habitId
        then streak_loop fuel' habitId completions (i + 1) (streak + 1)
        else streak
      else streak
  end.

Definition computeStreak (habitId : string) (completions : log) : Z :=
  streak_loop 3650 habitId completions 0 0.

End rollups.

(** The days the loop of [rollupWeekly] enumerates for the week at
    index [i], and those the loop of [rollupMonthly] enumerates for the
    month at index [i]. *)
Definition week_days `{Zone} (thisWeekStart : jsdate) (i : Z) : list string :=
  let ws := addDays thisWeekStart (-7 * i) in
  let we := addDays ws 6 in
  dateRangeInclusive (toISODate ws) (toISODate we).

Definition month_days `{Zone} (cur : jsdate) (i : Z) : list string :=
  let mStart :=
    setHours0 (setDate (setMonth cur (num_sub (getMonth cur) (Num i))) (Num 1)) in
  let nextStart := setMonth mStart (num_add (getMonth mStart) (Num 1)) in
  dateRangeInclusive (toISODate mStart) (toISODate (addDays nextStart (-1))).

(** The first day of the week that contains day [n], for a week that
    starts on week day [weekStartsOn]. *)
Definition week_start (n weekStartsOn : Z) : Z :=
  n - (WeekDay n - weekStartsOn) `mod` 7.

(** [!prev]: [null] and the empty string are falsy. *)
Definition no_prev (prev : option string) : bool :=
  match prev with
  | None => true
  | Some s => bool_decide (s = EmptyString)
  end.

(** The state [(best, cur, prev)] of the loop of [computeBestStreak]
    after the key [iso]. *)
Definition bestStreak_step (habitId : string) (completions : log)
    (st : Z * Z * option string) (iso : string) : Z * Z * option string :=
  let '(best, cur, prev) := st in
  if negb (isCompleted completions iso habitId) then st
  else
    let cur' :=
      if no_prev prev then 1
      else
        let nextExpected :=
          toISODate (addDays (parseISODate (default EmptyString prev)) 1) in
        if bool_decide (iso = nextExpected) then cur + 1 else 1 in
    (Z.max best cur', cur', Some iso).

(** [Object.keys(completions).sort()] orders the keys by code units. *)
Definition sorted_keys (completions : log) : list string :=
  merge_sort String.le (Object_keys completions).

Definition computeBestStreak (habitId : string) (completions : log) : Z :=
  let dates := sorted_keys completions in
  (foldl (bestStreak_step habitId completions) (0, 0, None) dates).1.1.

Definition completionRateForHabit `{Zone} (habitId : string) (completions : log)
    (startISO endISO : string) : Z :=
  let days := dateRangeInclusive startISO endISO in
  let done :=
    foldl (λ acc iso, acc + (if isCompleted completions iso habitId
                             then 1 else 0)) 0 days in
  rate_of done (len days).

(** ** Snapshot summary *)

Definition getTodaySummary (habits : list habit) (completions : log)
    (dateISO : string) : daySummary :=
  let active := getActiveHabits habits in
  let completed :=
    filter (λ h, isCompleted completions dateISO (habit_id h) = true) active in
  {| ds_total := len active;
     ds_completed := len completed;
     ds_remaining := len active - len completed;
     ds_rate := rate_of (len completed) (len active) |}.

(** ** Logs used as examples *)

(** The log in which [habitId] alone is completed on each of the
    [days] days that end with day [n]. *)
Definition streak_log (habitId : string) (n : Z) (days : nat) : log :=
  list_to_map
    ((λ k : nat, (toISODate (Day (n - Z.of_nat k)), {[habitId := true]}))
       <$> seq 0 days).

Definition example_habit (habitId : string) (active : bool) : habit :=
  {| habit_id := habitId; habit_name := "Read 10 pages";
     habit_targetPerWeek := 6%float; habit_active := active;
     habit_createdAtISO := "2026-11-02"; habit_notes := "" |}.

(** ** State updates and derived values of the application component *)

(** The target of a habit is any number: it comes from
    [Number(prompt(...))] or from an imported file, and nothing rounds
    it.  It is a double here. *)

(** The order of two numbers, [None] when one of them is [NaN]. *)
Definition number_compare (a b : float) : option comparison :=
  SFcompare (Prim2SF a) (Prim2SF b).

(** [Math.min] and [Math.max] of two numbers: [NaN] as soon as an
    argument is, and [-0] counts as smaller than [+0]. *)
Definition Math_min (a b : float) : float :=
  if PrimFloat.is_nan a || PrimFloat.is_nan b then PrimFloat.nan
  else if PrimFloat.ltb a b then a
  else if PrimFloat.ltb b a then b
  else if PrimFloat.get_sign a then a else b.

Definition Math_max (a b : float) : float :=
  if PrimFloat.is_nan a || PrimFloat.is_nan b then PrimFloat.nan
  else if PrimFloat.ltb a b then b
  else if PrimFloat.ltb b a then a
  else if PrimFloat.get_sign a then b else a.

Definition clamp (n min max : float) : float :=
  Math_max min (Math_min max n).

(** [x || d] for a number [x]: [+0], [-0] and [NaN] are falsy, and so is
    the [undefined] of a missing field, which is read as [NaN] here. *)
Definition num_or (x d : float) : float :=
  if PrimFloat.is_zero x || PrimFloat.is_nan x then d else x.

(** The target shown for a habit and stored for a new one:
    [clamp(h.targetPerWeek || 5, 1, 7)]. *)
Definition target_of (targetPerWeek : float) : float :=
  clamp (num_or targetPerWeek 5%float) 1%float 7%float.

(** [toggleForDate]: the update it passes to [setState]. *)
Definition toggleForDate (habitId dateISO : string) (prev : state) : state :=
  {| st_weekStartsOn := st_weekStartsOn prev;
     st_habits := st_habits prev;
     st_completions := toggleCompletion (st_completions prev) dateISO habitId |}.

(** [{ ...h, active: !h.active }] *)
Definition flip_active (h : habit) : habit :=
  {| habit_id := habit_id h; habit_name := habit_name h;
     habit_targetPerWeek := habit_targetPerWeek h;
     habit_active := negb (habit_active h);
     habit_createdAtISO := habit_createdAtISO h;
     habit_notes := habit_notes h |}.

(** The [onToggleActive] handler of the habits tab: the update it passes
    to [setState]. *)
Definition onToggleActive (habitId : string) (prev : state) : state :=
  {| st_weekStartsOn := st_weekStartsOn prev;
     st_habits :=
       (λ h, if bool_decide (habit_id h = habitId) then flip_active h else h)
         <$> st_habits prev;
     st_completions := st_completions prev |}.

(** [daily.reduce((best, cur) => (cur.rate > best.rate ? cur : best),
    daily[0] || { rate: 0 })]; [None] stands for the object [{ rate: 0 }],
    which has a rate and nothing else. *)
Definition best_rate (best : option dailyPoint) : Z :=
  match best with Some p => dp_rate p | None => 0 end.

Definition bestDay (daily : list dailyPoint) : option dailyPoint :=
  foldl (λ best cur, if best_rate best <? dp_rate cur then Some cur else best)
        (head daily) daily.

(** The seven keys of the week of the selected day, as the weekly goal
    of a habit row computes them:
    [Array.from({ length: 7 }, (_, i) => toISODate(addDays(weekStart, i)))]
    with [weekStart = startOfWeek(parseISODate(selectedDateISO), weekStartsOn)]. *)
Definition weekDays (selectedDateISO : string) (weekStartsOn : Z) : list string :=
  let weekStart := startOfWeek (parseISODate selectedDateISO) weekStartsOn in
  (λ i : nat, toISODate (addDays weekStart (Z.of_nat i))) <$> seq 0 7.

(** [weekDays.reduce((acc, dISO) =>
      acc + (isCompleted(completions, dISO, h.id) ? 1 : 0), 0)] *)
Definition doneWeek (completions : log) (selectedDateISO : string)
    (weekStartsOn : Z) (habitId : string) : Z :=
  foldl (λ acc dISO, acc + (if isCompleted completions dISO habitId
                            then 1 else 0))
        0 (weekDays selectedDateISO weekStartsOn).

(** The number of [(day, habit)] pairs of [days] and [active] that are
    completed. *)
Definition completed_pairs (active : list habit) (completions : log)
    (days : list string) : Z :=
  foldr (λ dISO acc,
           acc + len (filter (λ h, isCompleted completions dISO (habit_id h) = true)
                             active))
        0 days.

(** ** Rates over a range of totals *)

(** The rate of [a] out of [b] is a percentage and a nearest integer to
    [100 * a / b]. *)
Definition rate_nearest (a b : Z) : bool :=
  let r := rate_of a b in
  (0 <=? r) && (r <=? 100) && (Z.abs (r * b - 100 * a) * 2 <=? b).

(** [rate_nearest] for every total from 1 to [B] and every count up to
    the total. *)
Definition rates_nearest (B : Z) : bool :=
  forallb (λ b, forallb (λ a, rate_nearest a b) (seqZ 0 (b + 1))) (seqZ 1 B).

(** ** The day picker *)

(** The keys the Prev and Next buttons select:
    [toISODate(addDays(d, -1))] and [toISODate(addDays(d, 1))] with
    [d = parseISODate(dateISO)]. *)
Definition DayPicker_prev (dateISO : string) : string :=
  let d := parseISODate dateISO in toISODate (addDays d (-1)).

Definition DayPicker_next (dateISO : string) : string :=
  let d := parseISODate dateISO in toISODate (addDays d 1).

(** The progress of a habit row towards its weekly goal:
    [clamp(Math.round((doneWeek / target) * 100), 0, 100)] with
    [target = clamp(h.targetPerWeek || 5, 1, 7)]; [doneWeek] is a count of
    days. *)
Definition weekGoal_pct (doneWeek : Z) (targetPerWeek : float) : float :=
  let target := target_of targetPerWeek in
  clamp (float_of_Z
           (Math_round (PrimFloat.mul (PrimFloat.div (float_of_Z doneWeek) target)
                                      (float_of_Z 100))))
        0%float 100%float.

(** * Properties of the completion store *)

Section store_facts.
Implicit Types (L : log) (d : day) (dateISO habitId : string).

Lemma Object_keys_length {A} (o : gmap string A) :
  length (Object_keys o) = size o.
Proof. unfold Object_keys. by rewrite length_fmap, length_map_to_list. Qed.

Lemma Object_keys_cases {A} (o : gmap string A) :
  (o = ∅ ∧ (length (Object_keys o) =? 0)%nat = true
         ∧ (0 <? length (Object_keys o))%nat = false) ∨
  (o ≠ ∅ ∧ (length (Object_keys o) =? 0)%nat = false
         ∧ (0 <? length (Object_keys o))%nat = true).
Proof.
  rewrite Object_keys_length.
  destruct (decide (size o = 0%nat)) as [E|E].
  - left. rewrite E. split; [by apply map_size_empty_iff|done].
  - right. split; [by rewrite <- map_size_non_empty_iff|].
    split; [by apply Nat.eqb_neq|apply Nat.ltb_lt; lia].
Qed.

Lemma toggleCompletion_eq L dateISO habitId :
  toggleCompletion L dateISO habitId =
    if decide (flipped L dateISO habitId = ∅)
    then delete dateISO L
    else <[dateISO := flipped L dateISO habitId]> L.
Proof.
  unfold toggleCompletion. fold (flipped L dateISO habitId).
  rewrite lookup_insert_eq. simpl.
  destruct (Object_keys_cases (flipped L dateISO habitId))
    as [(E & -> & _)|(E & -> & _)]; case_decide; try done.
  by rewrite delete_insert_eq.
Qed.

Lemma toggleCompletion_lookup_ne L dateISO habitId k :
  k ≠ dateISO → toggleCompletion L dateISO habitId !! k = L !! k.
Proof.
  intros Hk. rewrite toggleCompletion_eq.
  case_decide; by simplify_map_eq.
Qed.

Lemma toggleCompletion_lookup L dateISO habitId :
  toggleCompletion L dateISO habitId !! dateISO =
    if decide (flipped L dateISO habitId = ∅) then None
    else Some (flipped L dateISO habitId).
Proof. rewrite toggleCompletion_eq. case_decide; by simplify_map_eq. Qed.

Lemma deleteHabit_completions_lookup habitId L k :
  deleteHabit_completions habitId L !! k =
    L !! k ≫= λ d, if decide (delete habitId d = ∅)
                   then None else Some (delete habitId d).
Proof.
  unfold deleteHabit_completions.
  apply (map_fold_weak_ind (λ (r m : log), r !! k = m !! k ≫= _)).
  - by rewrite !lookup_empty.
  - intros i x m r Hi IH. cbv zeta.
    destruct (decide (i = k)) as [->|Hne].
    + rewrite lookup_insert_eq. simpl.
      destruct (Object_keys_cases (delete habitId x))
        as [(E & _ & ->)|(E & _ & ->)]; case_decide; try done.
      * by rewrite IH, Hi.
      * by rewrite lookup_insert_eq.
    + rewrite (lookup_insert_ne m), <- IH by done.
      case_match; by simplify_map_eq.
Qed.

Lemma flipped_set L dateISO habitId h v :
  days_are_sets L →
  flipped L dateISO habitId !! h = Some v → v = true.
Proof.
  intros HL. unfold flipped.
  destruct (L !! dateISO) as [d|] eqn:Hd; simpl.
  - case_match; intros Hv.
    + apply lookup_delete_Some in Hv as [_ Hv]. eauto.
    + apply lookup_insert_Some in Hv as [[_ <-]|[_ Hv]]; eauto.
  - case_match; intros Hv.
    + apply lookup_delete_Some in Hv as [_ Hv]. by rewrite lookup_empty in Hv.
    + apply lookup_insert_Some in Hv as [[_ <-]|[_ Hv]]; [done|].
      by rewrite lookup_empty in Hv.
Qed.

(** What a read finds on a day object whose own properties hold [true]. *)
Lemma truthy_own (d : day) k v : d !! k = Some v → truthy d k = v.
Proof. unfold truthy. by intros ->. Qed.

Lemma truthy_missing (d : day) k : d !! k = None → truthy d k = inherited k.
Proof. unfold truthy. by intros ->. Qed.

Lemma truthy_delete_ne (d : day) k k' :
  k' ≠ k → truthy (delete k d) k' = truthy d k'.
Proof. intros Hne. unfold truthy. by rewrite lookup_delete_ne. Qed.

Lemma truthy_insert_ne (d : day) k k' v :
  k' ≠ k → truthy (<[k := v]> d) k' = truthy d k'.
Proof. intros Hne. unfold truthy. by rewrite lookup_insert_ne. Qed.

Lemma isCompleted_true L dateISO habitId :
  isCompleted L dateISO habitId = true ↔
  ∃ d, L !! dateISO = Some d ∧ truthy d habitId = true.
Proof.
  unfold isCompleted. split.
  - destruct (L !! dateISO) as [d|]; [|done]. eauto.
  - by intros (d & -> & Hd).
Qed.
End store_facts.

Section store_invariant.
Implicit Types (L : log) (d : day) (dateISO habitId : string).

Lemma well_formed_empty : well_formed ∅.
Proof. split; intros k d; intros; simplify_map_eq. Qed.

Lemma well_formed_singleton dateISO habitId :
  well_formed {[dateISO := {[habitId := true]}]}.
Proof.
  split.
  - intros k d Hk. apply lookup_singleton_Some in Hk as [_ <-].
    apply insert_non_empty.
  - intros k d h v Hk Hh. apply lookup_singleton_Some in Hk as [_ <-].
    by apply lookup_singleton_Some in Hh as [_ <-].
Qed.

Lemma toggleCompletion_well_formed L dateISO habitId :
  well_formed L → well_formed (toggleCompletion L dateISO habitId).
Proof.
  intros [Hne Hset]. split.
  - intros k d. destruct (decide (k = dateISO)) as [->|Hk].
    + rewrite toggleCompletion_lookup. case_decide; naive_solver.
    + rewrite toggleCompletion_lookup_ne by done. apply Hne.
  - intros k d h v. destruct (decide (k = dateISO)) as [->|Hk].
    + rewrite toggleCompletion_lookup. case_decide; [done|].
      intros [= <-]. by apply flipped_set.
    + rewrite toggleCompletion_lookup_ne by done. apply Hset.
Qed.

Lemma deleteHabit_completions_well_formed L habitId :
  days_are_sets L → well_formed (deleteHabit_completions habitId L).
Proof.
  intros Hset. split.
  - intros k d. rewrite deleteHabit_completions_lookup.
    destruct (L !! k) as [d0|]; simpl; [|done]. case_decide; naive_solver.
  - intros k d h v. rewrite deleteHabit_completions_lookup.
    destruct (L !! k) as [d0|] eqn:Hk; simpl; [|done].
    case_decide; [done|]. intros [= <-] Hv.
    apply lookup_delete_Some in Hv as [_ Hv]. eauto.
Qed.

(** The cascade leaves no trace of the deleted habit. *)
Lemma deleteHabit_completions_no_orphan L habitId k d :
  deleteHabit_completions habitId L !! k = Some d → d !! habitId = None.
Proof.
  rewrite deleteHabit_completions_lookup.
  destruct (L !! k) as [d0|]; simpl; [|done].
  case_decide; [done|]. intros [= <-]. apply lookup_delete_eq.
Qed.
End store_invariant.

(** C1: on a log in which every date key maps to a non-empty set of
    habit ids, [toggleCompletion] (for any date key and habit id) and the
    cascade of [deleteHabit] (for any habit id) both return a log in which
    every date key present maps to a non-empty set of habit ids. *)
Theorem nonempty_day_invariant_preserved (st : state) :
  well_formed (st_completions st) →
  (∀ dateISO habitId,
     well_formed (toggleCompletion (st_completions st) dateISO habitId)) ∧
  (∀ habitId, well_formed (st_completions (deleteHabit habitId st))).
Proof.
  intros HL. split.
  - intros dateISO habitId. by apply toggleCompletion_well_formed.
  - intros habitId. simpl. apply deleteHabit_completions_well_formed, HL.
Qed.

Lemma nonempty_day_invariant_preserved_witness :
  let st := {| st_weekStartsOn := 1; st_habits := [];
               st_completions := {["2026-11-02" := {["A" := true]}]} |} in
  well_formed (st_completions st) ∧
  (∀ dateISO habitId,
     well_formed (toggleCompletion (st_completions st) dateISO habitId)) ∧
  (∀ habitId, well_formed (st_completions (deleteHabit habitId st))).
Proof.
  intros st. split.
  - apply well_formed_singleton.
  - apply (nonempty_day_invariant_preserved st), well_formed_singleton.
Defined.

Lemma flipped_twice (L : log) (dateISO habitId : string) :
  inherited habitId = false → well_formed L →
  flipped (toggleCompletion L dateISO habitId) dateISO habitId =
    default ∅ (L !! dateISO).
Proof.
  intros Hown [Hne Hset]. unfold flipped at 1.
  rewrite toggleCompletion_lookup. unfold flipped, truthy.
  destruct (L !! dateISO) as [d0|] eqn:Hd; simpl.
  - destruct (d0 !! habitId) as [v|] eqn:Hv; simpl.
    + assert (v = true) as -> by eauto.
      case_decide as E; simpl.
      * rewrite lookup_empty, Hown.
        by rewrite <- E, insert_delete_eq, insert_id.
      * rewrite lookup_delete_eq, Hown.
        by rewrite insert_delete_eq, insert_id.
    + rewrite Hown. rewrite decide_False by apply insert_non_empty. simpl.
      rewrite lookup_insert_eq. by rewrite delete_insert_id.
  - rewrite lookup_empty, Hown.
    rewrite decide_False by apply insert_non_empty. simpl.
    rewrite lookup_insert_eq. by rewrite delete_insert_id.
Qed.

(** C2: on a well-formed log, toggling the same habit on the same date
    twice gives back the log, as a map from date keys to sets of ids,
    when the habit id is not the name of a property that objects inherit
    ([toString], [constructor], ...). *)
Theorem toggleCompletion_involutive (L : log) (dateISO habitId : string) :
  inherited habitId = false → well_formed L →
  toggleCompletion (toggleCompletion L dateISO habitId) dateISO habitId = L.
Proof.
  intros Hown HL. rewrite (toggleCompletion_eq (toggleCompletion _ _ _)).
  rewrite flipped_twice by done. destruct HL as [Hne _].
  apply map_eq. intros k. destruct (decide (k = dateISO)) as [->|Hk].
  - destruct (L !! dateISO) as [d0|] eqn:Hd; simpl.
    + rewrite decide_False by eauto. by rewrite lookup_insert_eq.
    + rewrite decide_True by done. by rewrite lookup_delete_eq.
  - case_decide.
    + by rewrite lookup_delete_ne, toggleCompletion_lookup_ne.
    + by rewrite lookup_insert_ne, toggleCompletion_lookup_ne.
Qed.

Lemma toggleCompletion_involutive_witness :
  let L : log := {["2026-11-02" := {["A" := true]}]} in
  inherited "A" = false ∧ well_formed L ∧
  toggleCompletion (toggleCompletion L "2026-11-02" "A") "2026-11-02" "A" = L.
Proof.
  intros L. split; [reflexivity|]. split.
  - apply well_formed_singleton.
  - apply (toggleCompletion_involutive L); [reflexivity|].
    apply well_formed_singleton.
Defined.

(** The claim as it is written fails for a habit id that names an
    inherited property: in a day that holds [toString], the first toggle
    deletes it and prunes the day, the second reads the inherited
    [toString], deletes nothing and prunes again, and the log stays
    empty. *)
Lemma toggleCompletion_twice_inherited_id :
  let L : log := {["2026-11-02" := {["toString" := true]}]} in
  well_formed L ∧
  toggleCompletion L "2026-11-02" "toString" = ∅ ∧
  toggleCompletion (toggleCompletion L "2026-11-02" "toString")
    "2026-11-02" "toString" = ∅ ∧
  toggleCompletion (toggleCompletion L "2026-11-02" "toString")
    "2026-11-02" "toString" ≠ L.
Proof.
  intros L.
  assert (toggleCompletion L "2026-11-02" "toString" = ∅) as H1
    by (vm_compute; reflexivity).
  assert (toggleCompletion (∅ : log) "2026-11-02" "toString" = ∅) as H2
    by (vm_compute; reflexivity).
  split; [apply well_formed_singleton|]. split; [done|].
  rewrite H1, H2. split; [done|].
  intros Heq. apply (f_equal (lookup "2026-11-02")) in Heq.
  unfold L in Heq. by rewrite lookup_empty, lookup_singleton_eq in Heq.
Qed.

(** * The heap version of the store refines the pure one *)

Section heap_facts.
Implicit Types (h : Heap.heap) (c l : Heap.loc) (dateISO habitId : string).

Lemma own_agree h h' (v : Heap.jsval) :
  Heap.closed_val h v → (∀ l, l ∈ dom h → h' !! l = h !! l) →
  Heap.own h' (Some v) = Heap.own h (Some v).
Proof.
  intros Hv Hfr. destruct v as [b|l]; simpl; [done|].
  by rewrite Hfr by apply Hv.
Qed.

Lemma day_of_agree h h' (v : Heap.jsval) :
  Heap.closed_val h v → (∀ l, l ∈ dom h → h' !! l = h !! l) →
  Heap.day_of h' v = Heap.day_of h v.
Proof. intros. unfold Heap.day_of. by erewrite own_agree. Qed.

Lemma closed_own h c k v :
  Heap.closed h → Heap.own h (Some (Heap.JRef c)) !! k = Some v → Heap.closed_val h v.
Proof.
  intros Hcl. simpl. destruct (h !! c) as [o|] eqn:Hc; simpl; [|done].
  intros Hk. by apply (Hcl c o k v).
Qed.

Lemma isCompleted_log_of c dateISO habitId h :
  Heap.isCompleted c dateISO habitId h =
    (isCompleted (Heap.log_of h c) dateISO habitId, h).
Proof.
  unfold Heap.isCompleted, isCompleted, Heap.log_of, Heap.get, Heap.test,
    mbind, Heap.heap_bind, mret, Heap.heap_ret. f_equal. rewrite lookup_fmap.
  destruct (Heap.own h (Some (Heap.JRef c)) !! dateISO) as [v|]; simpl; [|done].
  unfold truthy, Heap.day_of. rewrite lookup_fmap.
  destruct v as [b|l]; simpl; [by rewrite !lookup_empty|].
  by destruct (default ∅ (h !! l) !! habitId) as [[]|].
Qed.

(** Name the first step of a computation that is still to be run. *)
Ltac name_step s :=
  match goal with
  | |- context [ match ?t with (x, y) => _ end ] => set (s := t)
  end.

(** What [Heap.toggleCompletion] returns and the heap it leaves. *)
Lemma toggleCompletion_run c dateISO habitId h :
  Heap.closed h → c ∈ dom h →
  ∃ r h',
    Heap.toggleCompletion c dateISO habitId h = (r, h') ∧
    (r ∉ dom h) ∧
    (∀ l, l ∈ dom h → h' !! l = h !! l) ∧
    Heap.log_of h' r = toggleCompletion (Heap.log_of h c) dateISO habitId.
Proof.
  intros Hcl Hc.
  pose (T := λ x : Heap.jsval, Heap.is_truthy (Some x)).
  pose (P := Heap.own h (Some (Heap.JRef c))).
  unfold Heap.toggleCompletion, Heap.get, Heap.test, Heap.or_empty, Heap.spread,
    Heap.spread_with, Heap.alloc, Heap.keys_length, Heap.del, Heap.set,
    mbind, Heap.heap_bind, mret, Heap.heap_ret.
  (* the source day and the heap after [completions[dateISO] || {}] *)
  name_step step1.
  assert (∃ src h1, step1 = (src, h1) ∧
    dom h ⊆ dom h1 ∧ (∀ l, l ∈ dom h → h1 !! l = h !! l) ∧
    T <$> Heap.own h1 src = default ∅ (Heap.log_of h c !! dateISO))
    as (src & h1 & -> & Hdom1 & Hfr1 & Hsrc).
  { unfold step1, Heap.log_of. fold P. rewrite lookup_fmap.
    destruct (P !! dateISO) as [[[]|l]|] eqn:Hd; simpl;
      (eexists _, _; split; [done|]; split; [set_solver|]; split;
       [ intros l' Hl';
         by rewrite ?lookup_insert_ne
           by (intros <-; by apply (is_fresh (dom h)))
       | unfold Heap.day_of; simpl; rewrite ?lookup_insert_eq; simpl;
         by rewrite ?fmap_empty ]). }
  cbv beta iota.
  set (S0 := Heap.own h1 src) in *.
  set (dayl := fresh (dom h1)).
  assert (dayl ∉ dom h1) as Hday by apply is_fresh.
  set (t0 := match S0 !! habitId with
             | Some v => Heap.is_truthy (Some v)
             | None => inherited habitId
             end).
  set (S1 := if t0 then delete habitId S0
             else <[habitId := Heap.JBool true]> S0).
  (* the heap after the day object has been updated *)
  name_step step2.
  assert (step2 = (tt, <[dayl := S1]> h1)) as ->.
  { assert (Heap.own (<[dayl := S0]> h1) (Some (Heap.JRef dayl)) = S0) as Hown
      by (simpl; by rewrite lookup_insert_eq).
    unfold step2. rewrite Hown.
    rewrite bool_decide_eq_true_2, andb_true_l by eauto.
    fold t0. unfold S1. destruct t0; by rewrite alter_insert_eq. }
  cbv beta iota.
  set (h3 := <[dayl := S1]> h1).
  assert (c ≠ dayl) as Hcd by set_solver.
  assert (Heap.own h3 (Some (Heap.JRef c)) = P) as ->.
  { unfold P, h3. simpl. rewrite lookup_insert_ne by done.
    by rewrite Hfr1. }
  set (next := fresh (dom h3)).
  assert (next ∉ dom h3) as Hnext by apply is_fresh.
  assert (dom h1 ⊆ dom h3) as Hdom3 by (unfold h3; set_solver).
  assert (next ≠ dayl) as Hnd by (unfold h3 in Hnext; set_solver).
  set (Pn := <[dateISO := Heap.JRef dayl]> P).
  set (h4 := <[next := Pn]> h3).
  assert (Heap.own h4 (Some (Heap.JRef next)) = Pn) as Hown4.
  { unfold h4. simpl. by rewrite lookup_insert_eq. }
  rewrite !Hown4.
  assert (Heap.own h4 (Pn !! dateISO) = S1) as ->.
  { unfold Pn, h4, h3. rewrite lookup_insert_eq. simpl.
    rewrite lookup_insert_ne by done. by rewrite lookup_insert_eq. }
  (* the pure side *)
  assert (flipped (Heap.log_of h c) dateISO habitId = T <$> S1) as Hflip.
  { unfold flipped, truthy. rewrite <- Hsrc. rewrite lookup_fmap.
    unfold S1, t0.
    destruct (S0 !! habitId) as [[[]|l']|] eqn:Hy; simpl;
      [..|destruct (inherited habitId)];
      by rewrite ?fmap_delete, ?fmap_insert. }
  assert (∀ h', (∀ l, l ∈ dom h → h' !! l = h !! l) →
            Heap.day_of h' <$> P = Heap.log_of h c) as HP.
  { intros h' Hfr. unfold Heap.log_of. fold P. apply map_fmap_ext.
    intros k v Hk. apply day_of_agree; [|done]. by eapply closed_own. }
  assert (∀ l, l ∈ dom h → h4 !! l = h !! l) as Hfr4.
  { intros l Hl. rewrite <- Hfr1 by done.
    assert (l ∈ dom h1) by set_solver.
    unfold h4, h3. rewrite !lookup_insert_ne; [done|set_solver..]. }
  rewrite toggleCompletion_eq, Hflip.
  destruct (Object_keys_cases S1) as [(E & -> & _)|(E & -> & _)].
  - (* the day became empty: a pruned copy is returned *)
    set (copy := fresh (dom h4)).
    assert (copy ∉ dom h4) as Hcopy by apply is_fresh.
    assert (dom h3 ⊆ dom h4) as Hdom4 by (unfold h4; set_solver).
    cbv beta. rewrite Hown4, alter_insert_eq.
    eexists _, _. split; [done|].
    assert (∀ l, l ∈ dom h → <[copy := delete dateISO Pn]> h4 !! l = h !! l)
      as Hfr.
    { intros l Hl. rewrite <- Hfr4 by done.
      apply lookup_insert_ne. set_solver. }
    split; [set_solver|]. split; [done|].
    rewrite decide_True by (by rewrite E, fmap_empty).
    unfold Heap.log_of at 1. simpl. rewrite lookup_insert_eq. simpl.
    rewrite <- (HP _ Hfr). unfold Pn.
    by rewrite delete_insert_eq, fmap_delete.
  - (* the day is kept *)
    eexists _, _. split; [done|].
    split; [set_solver|]. split; [done|].
    rewrite decide_False by (by rewrite fmap_empty_iff).
    unfold Heap.log_of at 1. unfold h4 at 2. simpl.
    rewrite lookup_insert_eq. simpl.
    unfold Pn. rewrite fmap_insert, (HP _ Hfr4). f_equal.
    unfold Heap.day_of, h4, h3. simpl. rewrite lookup_insert_ne by done.
    by rewrite lookup_insert_eq.
Qed.
End heap_facts.

Lemma isCompleted_toggleCompletion_other (L : log) (dateISO habitId d' x' : string) :
  (d', x') ≠ (dateISO, habitId) → inherited x' = false →
  isCompleted (toggleCompletion L dateISO habitId) d' x' = isCompleted L d' x'.
Proof.
  intros Hne Hown. unfold isCompleted.
  destruct (decide (d' = dateISO)) as [->|Hd];
    [|by rewrite toggleCompletion_lookup_ne].
  assert (x' ≠ habitId) as Hx by congruence.
  assert (truthy (flipped L dateISO habitId) x' =
          truthy (default ∅ (L !! dateISO)) x') as Hf.
  { unfold flipped. case_match;
      [by apply truthy_delete_ne|by apply truthy_insert_ne]. }
  rewrite toggleCompletion_lookup. case_decide as E.
  - rewrite E in Hf. unfold truthy in Hf at 1.
    rewrite lookup_empty, Hown in Hf.
    destruct (L !! dateISO) as [d0|]; simpl in *; done.
  - rewrite Hf. destruct (L !! dateISO) as [d0|]; simpl; [done|].
    unfold truthy. by rewrite lookup_empty.
Qed.

Lemma heap_example_closed :
  Heap.closed {[ 1%positive := {["2026-11-02" := Heap.JRef 2%positive]};
                 2%positive := {["A" := Heap.JBool true]} ]}.
Proof.
  intros l o k v Hl Ho.
  apply lookup_insert_Some in Hl as [[<- <-]|[_ Hl]].
  - apply lookup_singleton_Some in Ho as [_ <-]. simpl. set_solver.
  - apply lookup_singleton_Some in Hl as [<- <-].
    by apply lookup_singleton_Some in Ho as [_ <-].
Qed.

(** C9: [toggleCompletion] returns a new log object and leaves every
    object that existed before the call, the input log and its days
    among them, as it was; and in the returned log every cell other than
    the one toggled, for a habit id that is no inherited name, is
    completed exactly when it was in the input log. *)
Theorem toggleCompletion_frame (h : Heap.heap) (c : Heap.loc)
    (dateISO habitId : string) :
  Heap.closed h → c ∈ dom h →
  let '(r, h') := Heap.toggleCompletion c dateISO habitId h in
  (r ∉ dom h) ∧
  (∀ l, l ∈ dom h → h' !! l = h !! l) ∧
  Heap.log_of h' c = Heap.log_of h c ∧
  (∀ d' x', (d', x') ≠ (dateISO, habitId) → inherited x' = false →
     (Heap.isCompleted r d' x' h').1 = (Heap.isCompleted c d' x' h).1).
Proof.
  intros Hcl Hc.
  destruct (toggleCompletion_run c dateISO habitId h Hcl Hc)
    as (r & h' & -> & Hr & Hfr & Hlog).
  split; [done|]. split; [done|]. split.
  - unfold Heap.log_of. simpl. rewrite (Hfr c Hc).
    apply map_fmap_ext. intros k v Hk.
    apply day_of_agree; [|done]. by eapply closed_own.
  - intros d' x' Hne Hown. rewrite !isCompleted_log_of. simpl.
    rewrite Hlog. by apply isCompleted_toggleCompletion_other.
Qed.

Lemma toggleCompletion_frame_witness :
  let h : Heap.heap :=
    {[ 1%positive := {["2026-11-02" := Heap.JRef 2%positive]};
       2%positive := {["A" := Heap.JBool true]} ]} in
  Heap.closed h ∧ 1%positive ∈ dom h ∧
  let '(r, h') := Heap.toggleCompletion 1%positive "2026-11-02" "A" h in
  (r ∉ dom h) ∧
  (∀ l, l ∈ dom h → h' !! l = h !! l) ∧
  Heap.log_of h' 1%positive = Heap.log_of h 1%positive ∧
  (∀ d' x', (d', x') ≠ ("2026-11-02", "A") → inherited x' = false →
     (Heap.isCompleted r d' x' h').1 = (Heap.isCompleted 1%positive d' x' h).1).
Proof.
  intros h. split; [apply heap_example_closed|]. split; [set_solver|].
  apply (toggleCompletion_frame h 1%positive "2026-11-02" "A").
  - apply heap_example_closed.
  - set_solver.
Defined.

(** * Loops of the rollup engine *)

(** With enough fuel the countdown loop runs [body] on [i], [i - 1],
    ..., [0] and stops. *)
Lemma countdown_loop_spec {A} (body : Z → A) (fuel : nat) (i : Z) (out : list A) :
  i + 1 <= Z.of_nat fuel →
  countdown_loop fuel body i out =
    out ++ ((λ k : nat, body (i - Z.of_nat k)) <$> seq 0 (Z.to_nat (i + 1))).
Proof.
  revert i out. induction fuel as [|fuel IH]; intros i out Hfuel.
  - simpl. replace (Z.to_nat (i + 1)) with 0%nat by lia.
    simpl. by rewrite app_nil_r.
  - simpl. destruct (0 <=? i) eqn:Hi.
    + apply Z.leb_le in Hi. rewrite IH by lia.
      replace (Z.to_nat (i + 1)) with (S (Z.to_nat (i - 1 + 1))) by lia.
      simpl. rewrite <- app_assoc. simpl. rewrite Z.sub_0_r.
      do 2 f_equal. rewrite <- fmap_S_seq, <- list_fmap_compose.
      apply list_fmap_ext. intros _ k _. simpl. f_equal. lia.
    + apply Z.leb_gt in Hi. replace (Z.to_nat (i + 1)) with 0%nat by lia.
      simpl. by rewrite app_nil_r.
Qed.

Section rollup_loops.
Context {zone : Zone}.

Lemma rollupWeekly_eq locale_short now habits L weeksBack weekStartsOn :
  rollupWeekly locale_short now habits L weeksBack weekStartsOn =
    (λ k : nat,
       weekPoint locale_short (getActiveHabits habits) L
         (startOfWeek now weekStartsOn) (weeksBack - 1 - Z.of_nat k))
    <$> seq 0 (Z.to_nat weeksBack).
Proof.
  unfold rollupWeekly. rewrite countdown_loop_spec by lia. simpl.
  by replace (weeksBack - 1 + 1) with weeksBack by lia.
Qed.

Lemma rollupMonthly_eq locale_month now habits L monthsBack :
  rollupMonthly locale_month now habits L monthsBack =
    (λ k : nat,
       monthPoint locale_month (getActiveHabits habits) L
         (startOfMonth now) (monthsBack - 1 - Z.of_nat k))
    <$> seq 0 (Z.to_nat monthsBack).
Proof.
  unfold rollupMonthly. rewrite countdown_loop_spec by lia. simpl.
  by replace (monthsBack - 1 + 1) with monthsBack by lia.
Qed.

(** C4: with no active habit every point of the daily, weekly and
    monthly rollups and the day summary has rate 0. *)
Theorem zero_active_habits_rate_zero (habits : list habit) (L : log) :
  getActiveHabits habits = [] →
  (∀ locale_short startISO endISO p,
     p ∈ rollupDaily locale_short habits L startISO endISO → dp_rate p = 0) ∧
  (∀ locale_short now weeksBack weekStartsOn p,
     p ∈ rollupWeekly locale_short now habits L weeksBack weekStartsOn →
     wp_rate p = 0) ∧
  (∀ locale_month now monthsBack p,
     p ∈ rollupMonthly locale_month now habits L monthsBack → mp_rate p = 0) ∧
  (∀ dateISO, ds_rate (getTodaySummary habits L dateISO) = 0).
Proof.
  intros Hact. repeat split.
  - intros ls startISO endISO p Hp. unfold rollupDaily in Hp.
    rewrite Hact in Hp. apply list_elem_of_fmap in Hp as (iso & -> & _).
    reflexivity.
  - intros ls now weeksBack wso p Hp. rewrite rollupWeekly_eq, Hact in Hp.
    apply list_elem_of_fmap in Hp as (k & -> & _). reflexivity.
  - intros lm now monthsBack p Hp. rewrite rollupMonthly_eq, Hact in Hp.
    apply list_elem_of_fmap in Hp as (k & -> & _). reflexivity.
  - intros dateISO. unfold getTodaySummary. rewrite Hact. reflexivity.
Qed.


End rollup_loops.

Section rollup_loops_examples.
#[local] Existing Instance UTC.

Lemma zero_active_habits_rate_zero_witness :
  let habits :=
    [ {| habit_id := "A"; habit_name := "Read"; habit_targetPerWeek := 5%float;
         habit_active := false; habit_createdAtISO := "2026-11-01";
         habit_notes := "" |} ] in
  let L : log := {["2026-11-02" := {["A" := true]}]} in
  getActiveHabits habits = [] ∧
  (∀ locale_short startISO endISO p,
     p ∈ rollupDaily locale_short habits L startISO endISO → dp_rate p = 0) ∧
  (∀ locale_short now weeksBack weekStartsOn p,
     p ∈ rollupWeekly locale_short now habits L weeksBack weekStartsOn →
     wp_rate p = 0) ∧
  (∀ locale_month now monthsBack p,
     p ∈ rollupMonthly locale_month now habits L monthsBack → mp_rate p = 0) ∧
  (∀ dateISO, ds_rate (getTodaySummary habits L dateISO) = 0).
Proof.
  intros habits L. split; [reflexivity|].
  apply (zero_active_habits_rate_zero habits L). reflexivity.
Defined.


End rollup_loops_examples.

(** The streak counted from index [i] with [streak] days already
    counted never passes the cap. *)
Lemma streak_loop_bounds now habitId L fuel i streak :
  0 <= i <= 3650 →
  streak <= streak_loop now fuel habitId L i streak <= streak + (3650 - i).
Proof.
  revert i streak. induction fuel as [|fuel IH]; intros i streak Hi; simpl.
  - lia.
  - destruct (i <? 3650) eqn:Hlt; [|lia]. apply Z.ltb_lt in Hlt.
    destruct (isCompleted L (streak_key now i) habitId); [|lia].
    specialize (IH (i + 1) (streak + 1)). lia.
Qed.

Lemma streak_loop_all now habitId L fuel i streak :
  0 <= i → 3650 - i <= Z.of_nat fuel →
  (∀ j, i <= j < 3650 → isCompleted L (streak_key now j) habitId = true) →
  streak_loop now fuel habitId L i streak = streak + Z.max 0 (3650 - i).
Proof.
  revert i streak. induction fuel as [|fuel IH]; intros i streak Hi Hfuel Hall;
    simpl.
  - lia.
  - destruct (i <? 3650) eqn:Hlt; [|apply Z.ltb_ge in Hlt; lia].
    apply Z.ltb_lt in Hlt. rewrite Hall by lia.
    rewrite IH; [lia|lia|lia|]. intros j Hj. apply Hall. lia.
Qed.

(** The loop stops at the first day that is not completed. *)
Lemma streak_loop_stop now habitId L fuel i streak n :
  0 <= i <= n → n < 3650 → n - i < Z.of_nat fuel →
  (∀ j, i <= j < n → isCompleted L (streak_key now j) habitId = true) →
  isCompleted L (streak_key now n) habitId = false →
  streak_loop now fuel habitId L i streak = streak + (n - i).
Proof.
  revert i streak. induction fuel as [|fuel IH];
    intros i streak Hi Hn Hfuel Hall Hstop; simpl.
  - lia.
  - destruct (i <? 3650) eqn:Hlt; [|apply Z.ltb_ge in Hlt; lia].
    destruct (decide (i = n)) as [->|Hne].
    + rewrite Hstop. lia.
    + rewrite Hall by lia. rewrite IH; [lia|lia|lia|lia| |done].
      intros j Hj. apply Hall. lia.
Qed.

(** * Calendar arithmetic *)

Section calendar_facts.
Implicit Types (n y m d k : Z).

Lemma InLeapYear_of_cases y : InLeapYear_of y = 0 ∨ InLeapYear_of y = 1.
Proof. unfold InLeapYear_of. case_match; auto. Qed.

Lemma div_step_4 y :
  (y - 1968) / 4 = (y - 1969) / 4 + (if y `mod` 4 =? 0 then 1 else 0).
Proof.
  destruct (y `mod` 4 =? 0) eqn:E;
    [apply Z.eqb_eq in E|apply Z.eqb_neq in E]; Z.div_mod_to_equations; lia.
Qed.

Lemma div_step_100 y :
  (y - 1900) / 100 = (y - 1901) / 100 + (if y `mod` 100 =? 0 then 1 else 0).
Proof.
  destruct (y `mod` 100 =? 0) eqn:E;
    [apply Z.eqb_eq in E|apply Z.eqb_neq in E]; Z.div_mod_to_equations; lia.
Qed.

Lemma div_step_400 y :
  (y - 1600) / 400 = (y - 1601) / 400 + (if y `mod` 400 =? 0 then 1 else 0).
Proof.
  destruct (y `mod` 400 =? 0) eqn:E;
    [apply Z.eqb_eq in E|apply Z.eqb_neq in E]; Z.div_mod_to_equations; lia.
Qed.

Lemma mod_400_100 y : y `mod` 400 = 0 → y `mod` 100 = 0.
Proof. Z.div_mod_to_equations; lia. Qed.

Lemma mod_100_4 y : y `mod` 100 = 0 → y `mod` 4 = 0.
Proof. Z.div_mod_to_equations; lia. Qed.

Lemma DayFromYear_succ y : DayFromYear (y + 1) = DayFromYear y + DaysInYear y.
Proof.
  unfold DaysInYear, InLeapYear_of, DayFromYear.
  replace (y + 1 - 1969) with (y - 1968) by lia.
  replace (y + 1 - 1901) with (y - 1900) by lia.
  replace (y + 1 - 1601) with (y - 1600) by lia.
  rewrite div_step_4, div_step_100, div_step_400.
  destruct (y `mod` 400 =? 0) eqn:E400.
  - apply Z.eqb_eq in E400. pose proof (mod_400_100 y E400) as E100.
    pose proof (mod_100_4 y E100) as E4. rewrite E100, E4. simpl. lia.
  - destruct (y `mod` 100 =? 0) eqn:E100.
    + apply Z.eqb_eq in E100. rewrite (mod_100_4 y E100). simpl. lia.
    + destruct (y `mod` 4 =? 0); simpl; lia.
Qed.

Lemma DaysInYear_cases y : DaysInYear y = 365 ∨ DaysInYear y = 366.
Proof. unfold DaysInYear. destruct (InLeapYear_of_cases y) as [-> | ->]; auto. Qed.

Lemma DayFromYear_lt y : DayFromYear y < DayFromYear (y + 1).
Proof. rewrite DayFromYear_succ. destruct (DaysInYear_cases y); lia. Qed.

Lemma DayFromYear_mono y y' : y <= y' → DayFromYear y <= DayFromYear y'.
Proof.
  intros Hle. replace y' with (y + Z.of_nat (Z.to_nat (y' - y))) by lia.
  induction (Z.to_nat (y' - y)) as [|j IH]; [by rewrite Z.add_0_r|].
  replace (y + Z.of_nat (S j)) with (y + Z.of_nat j + 1) by lia.
  pose proof (DayFromYear_lt (y + Z.of_nat j)). lia.
Qed.

Lemma YearFromDay_spec n :
  DayFromYear (YearFromDay n) <= n < DayFromYear (YearFromDay n + 1).
Proof.
  unfold YearFromDay. cbv zeta.
  repeat case_match; rewrite ?Z.leb_le, ?Z.leb_gt in *;
    unfold DayFromYear in *; Z.div_mod_to_equations; lia.
Qed.

Lemma YearFromDay_unique n y :
  DayFromYear y <= n < DayFromYear (y + 1) → YearFromDay n = y.
Proof.
  intros Hy. pose proof (YearFromDay_spec n) as Hn.
  destruct (Z.lt_trichotomy (YearFromDay n) y) as [Hlt|[Heq|Hgt]]; [|done|].
  - pose proof (DayFromYear_mono (YearFromDay n + 1) y). lia.
  - pose proof (DayFromYear_mono (y + 1) (YearFromDay n)). lia.
Qed.

Lemma YearFromDay_mono n n' : n <= n' → YearFromDay n <= YearFromDay n'.
Proof.
  intros Hle. pose proof (YearFromDay_spec n). pose proof (YearFromDay_spec n').
  destruct (Z.le_gt_cases (YearFromDay n) (YearFromDay n')) as [|Hgt]; [done|].
  pose proof (DayFromYear_mono (YearFromDay n' + 1) (YearFromDay n)). lia.
Qed.

Lemma DayWithinYear_range n :
  0 <= DayWithinYear n < DaysInYear (YearFromDay n).
Proof.
  unfold DayWithinYear. pose proof (YearFromDay_spec n) as Hn.
  rewrite DayFromYear_succ in Hn. lia.
Qed.

Lemma MonthFromDay_range n : 0 <= MonthFromDay n <= 11.
Proof. unfold MonthFromDay. cbv zeta. repeat case_match; lia. Qed.

(** The day of the month counts from the first day of the month. *)
Lemma DateFromDay_eq n :
  n = DayFromYear (YearFromDay n)
      + MonthStart (InLeapYear_of (YearFromDay n)) (MonthFromDay n)
      + DateFromDay n - 1.
Proof. unfold DateFromDay, DayWithinYear. lia. Qed.

Lemma MakeDay_fields n k :
  MakeDay (YearFromDay n) (MonthFromDay n) k = n + (k - DateFromDay n).
Proof.
  unfold MakeDay. cbv zeta. pose proof (MonthFromDay_range n).
  rewrite Z.div_small, Z.mod_small, Z.add_0_r by lia.
  pose proof (DateFromDay_eq n). lia.
Qed.

(** The number of days of month [m] (0 to 11) of a year. *)
Lemma DateFromDay_range n :
  1 <= DateFromDay n <=
    DaysInMonth (YearFromDay n) (MonthFromDay n).
Proof.
  unfold DateFromDay, DaysInMonth, MonthFromDay. cbv zeta.
  pose proof (DayWithinYear_range n) as Hr. unfold DaysInYear in Hr.
  destruct (InLeapYear_of_cases (YearFromDay n)) as [E|E]; rewrite E in *;
    repeat case_match; simpl;
    rewrite ?Z.ltb_lt, ?Z.ltb_ge in *; lia.
Qed.

(** The fields of a day given by year, month and day of the month. *)
Lemma fields_of_MakeDay y m d :
  0 <= m <= 11 → 1 <= d <= DaysInMonth y m →
  YearFromDay (MakeDay y m d) = y ∧
  MonthFromDay (MakeDay y m d) = m ∧
  DateFromDay (MakeDay y m d) = d.
Proof.
  intros Hm Hd.
  assert (MakeDay y m d = DayFromYear y + MonthStart (InLeapYear_of y) m + d - 1)
    as HM.
  { unfold MakeDay. cbv zeta.
    by rewrite Z.div_small, Z.mod_small, Z.add_0_r by lia. }
  assert (YearFromDay (MakeDay y m d) = y) as Hy.
  { apply YearFromDay_unique. rewrite HM, DayFromYear_succ.
    unfold DaysInYear, DaysInMonth in *.
    destruct (InLeapYear_of_cases y) as [E|E]; rewrite E in *;
      assert (m = 0 ∨ m = 1 ∨ m = 2 ∨ m = 3 ∨ m = 4 ∨ m = 5 ∨ m = 6 ∨ m = 7
              ∨ m = 8 ∨ m = 9 ∨ m = 10 ∨ m = 11) as Hc by lia;
      destruct Hc as [->|[->|[->|[->|[->|[->|[->|[->|[->|[->|[->| ->]]]]]]]]]]];
      simpl in *; lia. }
  assert (MonthFromDay (MakeDay y m d) = m) as Hmo.
  { unfold MonthFromDay, DayWithinYear. rewrite Hy, HM.
    unfold DaysInMonth in *.
    destruct (InLeapYear_of_cases y) as [E|E]; rewrite E in *;
      assert (m = 0 ∨ m = 1 ∨ m = 2 ∨ m = 3 ∨ m = 4 ∨ m = 5 ∨ m = 6 ∨ m = 7
              ∨ m = 8 ∨ m = 9 ∨ m = 10 ∨ m = 11) as Hc by lia;
      destruct Hc as [->|[->|[->|[->|[->|[->|[->|[->|[->|[->|[->| ->]]]]]]]]]]];
      simpl in *; cbv zeta; repeat case_match;
      rewrite ?Z.ltb_lt, ?Z.ltb_ge in *; lia. }
  split; [done|]. split; [done|].
  unfold DateFromDay, DayWithinYear. rewrite Hmo, Hy, HM. lia.
Qed.

Lemma TimeClip_valid n : Z.abs n <= 100000000 → TimeClip n = Day n.
Proof. intros Hn. unfold TimeClip. by rewrite (proj2 (Z.leb_le _ _)). Qed.

Lemma addDays_Day n k : addDays (Day n) k = TimeClip (n + k).
Proof. unfold addDays. simpl. rewrite MakeDay_fields. f_equal. lia. Qed.

Lemma addDays_valid n k :
  Z.abs (n + k) <= 100000000 → addDays (Day n) k = Day (n + k).
Proof. intros. by rewrite addDays_Day, TimeClip_valid. Qed.

End calendar_facts.

(** * Printing and reading numbers *)

Section string_facts.
Implicit Types (s t acc : string) (c : ascii) (n k a : Z).

Lemma is_digit_digit k : 0 <= k <= 9 → is_digit (digit k) = true.
Proof.
  intros Hk.
  assert (k = 0 ∨ k = 1 ∨ k = 2 ∨ k = 3 ∨ k = 4 ∨ k = 5 ∨ k = 6 ∨ k = 7
          ∨ k = 8 ∨ k = 9) as Hc by lia.
  destruct Hc as [->|[->|[->|[->|[->|[->|[->|[->|[->| ->]]]]]]]]]; reflexivity.
Qed.

Lemma value_digit k : 0 <= k <= 9 → Z.of_N (N_of_ascii (digit k)) - 48 = k.
Proof.
  intros Hk.
  assert (k = 0 ∨ k = 1 ∨ k = 2 ∨ k = 3 ∨ k = 4 ∨ k = 5 ∨ k = 6 ∨ k = 7
          ∨ k = 8 ∨ k = 9) as Hc by lia.
  destruct Hc as [->|[->|[->|[->|[->|[->|[->|[->|[->| ->]]]]]]]]]; reflexivity.
Qed.

Lemma str_app_cons c s t : String c s +:+ t = String c (s +:+ t).
Proof. reflexivity. Qed.

Lemma str_app_nil_l s : EmptyString +:+ s = s.
Proof. reflexivity. Qed.

Lemma str_app_nil_r s : s +:+ EmptyString = s.
Proof. induction s as [|c s IH]; [done|]. by rewrite str_app_cons, IH. Qed.

Lemma str_app_assoc s t u : (s +:+ t) +:+ u = s +:+ t +:+ u.
Proof. induction s as [|c s IH]; [done|]. by rewrite !str_app_cons, IH. Qed.

Lemma str_app_length s t :
  String.length (s +:+ t) = (String.length s + String.length t)%nat.
Proof.
  induction s as [|c s IH]; [done|]. rewrite str_app_cons. simpl. by rewrite IH.
Qed.

Lemma all_digits_app s t :
  all_digits (s +:+ t) = all_digits s && all_digits t.
Proof.
  induction s as [|c s IH]; [done|]. rewrite str_app_cons. simpl.
  by rewrite IH, andb_assoc.
Qed.

Lemma digits_value_app s t a :
  digits_value (s +:+ t) a = digits_value s a ≫= digits_value t.
Proof.
  revert a. induction s as [|c s IH]; intros a; [done|].
  rewrite str_app_cons. simpl. destruct (is_digit c); [apply IH|done].
Qed.

(** The loop prepends the decimal digits of [n] to [acc]. *)
Lemma digits_loop_spec fuel n acc :
  0 <= n < 2 ^ Z.of_nat fuel →
  ∃ s, digits_loop fuel n acc = s +:+ acc ∧ all_digits s = true ∧
       ∀ a, digits_value s a = Some (a * 10 ^ Z.of_nat (String.length s) + n).
Proof.
  revert n acc. induction fuel as [|fuel IH]; intros n acc Hn.
  - exists EmptyString. simpl in *. split; [done|]. split; [done|].
    intros a. f_equal. lia.
  - simpl. assert (0 <= n `mod` 10 <= 9) as Hd by (Z.div_mod_to_equations; lia).
    destruct (n <? 10) eqn:Hlt.
    + apply Z.ltb_lt in Hlt. rewrite Z.mod_small by lia.
      exists (String (digit n) EmptyString). split; [done|]. simpl.
      rewrite is_digit_digit by lia. split; [done|].
      intros a. rewrite value_digit by lia. f_equal. lia.
    + apply Z.ltb_ge in Hlt.
      destruct (IH (n / 10) (String (digit (n `mod` 10)) acc)) as (s & -> & Hs & Hv).
      { rewrite Nat2Z.inj_succ, Z.pow_succ_r in Hn by lia.
        Z.div_mod_to_equations; lia. }
      exists (s +:+ String (digit (n `mod` 10)) EmptyString). split; [|split].
      * by rewrite str_app_assoc.
      * rewrite all_digits_app, Hs. simpl. by rewrite is_digit_digit.
      * intros a. rewrite digits_value_app, Hv. simpl.
        rewrite is_digit_digit, value_digit by done. f_equal.
        rewrite str_app_length. simpl.
        rewrite Nat2Z.inj_add, Z.pow_add_r by lia.
        Z.div_mod_to_equations; lia.
Qed.

Lemma digits_spec n :
  0 <= n →
  all_digits (digits n) = true ∧ digits_value (digits n) 0 = Some n.
Proof.
  intros Hn. unfold digits.
  destruct (digits_loop_spec (S (Z.to_nat (Z.log2 n))) n EmptyString)
    as (s & -> & Hs & Hv).
  { split; [done|]. rewrite Nat2Z.inj_succ, Z2Nat.id by apply Z.log2_nonneg.
    destruct (decide (n = 0)) as [->|]; [done|].
    apply Z.log2_spec. lia. }
  rewrite str_app_nil_r. split; [done|]. rewrite Hv. by rewrite Z.mul_0_l.
Qed.

Lemma Number_digits n : 0 <= n → Number (digits n) = Num n.
Proof. intros Hn. unfold Number. by rewrite (proj2 (digits_spec n Hn)). Qed.

Lemma zeros_spec (j : nat) s :
  all_digits s = true →
  all_digits (string_of_list_ascii (replicate j "0"%char) +:+ s) = true ∧
  digits_value (string_of_list_ascii (replicate j "0"%char) +:+ s) 0 =
    digits_value s 0.
Proof.
  intros Hs. induction j as [|j [IH1 IH2]]; [done|].
  simpl. split; [exact IH1|exact IH2].
Qed.

Lemma pad2_spec n :
  0 <= n →
  all_digits (pad2 (Num n)) = true ∧ Number (pad2 (Num n)) = Num n.
Proof.
  intros Hn. unfold pad2, padStart, Number, String_of.
  rewrite (proj2 (Z.ltb_ge n 0)) by done.
  destruct (digits_spec n Hn) as [Hd Hv].
  destruct (zeros_spec (2 - String.length (digits n)) (digits n) Hd) as [-> ->].
  by rewrite Hv.
Qed.

Lemma is_digit_not_dash c : is_digit c = true → Ascii.eqb c "-" = false.
Proof.
  intros Hc. destruct (Ascii.eqb c "-") eqn:E; [|done].
  apply Ascii.eqb_eq in E. by subst.
Qed.

Lemma split_digits s : all_digits s = true → split "-" s = [s].
Proof.
  induction s as [|c s IH]; [done|]. simpl.
  intros [Hc Hs]%andb_true_iff. by rewrite is_digit_not_dash, IH.
Qed.

Lemma split_digits_dash s rest :
  all_digits s = true →
  split "-" (s +:+ String "-" rest) = s :: split "-" rest.
Proof.
  induction s as [|c s IH]; [done|]. rewrite str_app_cons. simpl.
  intros [Hc Hs]%andb_true_iff. by rewrite is_digit_not_dash, IH.
Qed.

Lemma Number_all_digits s :
  all_digits s = true → ∃ z, Number s = Num z ∧ 0 <= z.
Proof.
  unfold Number. intros Hs.
  assert (∀ a, 0 <= a → ∃ z, digits_value s a = Some z ∧ 0 <= z) as H.
  { induction s as [|c s IH]; intros a Ha; simpl; [eauto|].
    simpl in Hs. apply andb_true_iff in Hs as [Hc Hs]. rewrite Hc.
    apply IH; [done|]. unfold is_digit in Hc.
    apply andb_true_iff in Hc as [Hc _]. apply N.leb_le in Hc. lia. }
  destruct (H 0) as (z & -> & ?); [lia|]. eauto.
Qed.

End string_facts.

(** * Date keys *)

Section key_facts.
Implicit Types (n y m d : Z) (s t : string).

(** The key of a day of a year that is not negative. *)
Lemma toISODate_Day n :
  0 <= YearFromDay n →
  toISODate (Day n) =
    digits (YearFromDay n) +:+ String "-"
      (pad2 (Num (MonthFromDay n + 1)) +:+ String "-" (pad2 (Num (DateFromDay n)))).
Proof.
  intros Hy. unfold toISODate. simpl.
  by rewrite (proj2 (Z.ltb_ge (YearFromDay n) 0)).
Qed.

(** A key of three numerals is read as [new Date(y, m - 1, d)], and so
    is a key with anything more after a third dash. *)
Lemma parseISODate_numerals (ys ms ds : string) :
  all_digits ys = true → all_digits ms = true → all_digits ds = true →
  (parseISODate (ys +:+ String "-" (ms +:+ String "-" ds)) =
     new_Date (Number ys) (num_sub (Number ms) (Num 1)) (Number ds)) ∧
  (∀ rest,
     parseISODate
       (ys +:+ String "-" (ms +:+ String "-" (ds +:+ String "-" rest))) =
       new_Date (Number ys) (num_sub (Number ms) (Num 1)) (Number ds)).
Proof.
  intros Hy Hm Hd. unfold parseISODate. split; [|intros rest].
  - by rewrite !split_digits_dash, split_digits.
  - by rewrite !split_digits_dash.
Qed.

(** Formatting a day of year 100 or later and reading the key back
    gives the day. *)
Lemma parseISODate_toISODate n :
  100 <= YearFromDay n → n <= 100000000 →
  parseISODate (toISODate (Day n)) = Day n.
Proof.
  intros Hy Hn. rewrite toISODate_Day by lia.
  pose proof (MonthFromDay_range n) as Hm.
  pose proof (DateFromDay_range n) as Hd.
  destruct (digits_spec (YearFromDay n)) as [Hy1 Hy2]; [lia|].
  destruct (pad2_spec (MonthFromDay n + 1)) as [Hm1 Hm2]; [lia|].
  destruct (pad2_spec (DateFromDay n)) as [Hd1 Hd2]; [lia|].
  rewrite (proj1 (parseISODate_numerals _ _ _ Hy1 Hm1 Hd1)).
  rewrite Number_digits, Hm2, Hd2 by lia. simpl.
  rewrite (proj2 (Z.leb_gt (YearFromDay n) 99)) by lia. rewrite andb_false_r.
  replace (MonthFromDay n + 1 - 1) with (MonthFromDay n) by lia.
  rewrite MakeDay_fields. replace (n + _) with n by lia.
  apply TimeClip_valid.
  pose proof (YearFromDay_spec n) as Hs.
  pose proof (DayFromYear_mono 100 (YearFromDay n) Hy) as Hmono.
  change (DayFromYear 100) with (-683003) in Hmono. lia.
Qed.

End key_facts.

(** C3, as the code has it: formatting a date of year 100 or later to
    its key and parsing the key gives back the same calendar day, with
    the same year, month and day of the month. *)
Theorem parseISODate_toISODate_roundtrip (n : Z) :
  Z.abs n <= 100000000 → 100 <= YearFromDay n →
  let d := Day n in
  let d' := parseISODate (toISODate d) in
  d' = d ∧ getFullYear d' = getFullYear d ∧ getMonth d' = getMonth d ∧
  getDate d' = getDate d.
Proof.
  intros Hn Hy d d'. unfold d', d.
  rewrite parseISODate_toISODate by lia. done.
Qed.

Lemma parseISODate_toISODate_roundtrip_witness :
  Z.abs 20759 <= 100000000 ∧ 100 <= YearFromDay 20759 ∧
  let d := Day 20759 in
  let d' := parseISODate (toISODate d) in
  d' = d ∧ getFullYear d' = getFullYear d ∧ getMonth d' = getMonth d ∧
  getDate d' = getDate d.
Proof.
  split; [vm_compute; discriminate|]. split; [vm_compute; discriminate|].
  apply (parseISODate_toISODate_roundtrip 20759); vm_compute; discriminate.
Defined.

(** C3 fails below year 100: the key of 23 September of year 50 is
    [50-09-23], which [new Date(50, 8, 23)] reads as a day of 1950. *)
Lemma roundtrip_fails_before_year_100 :
  let d := Day (-701000) in
  getFullYear d = Num 50 ∧
  toISODate d = "50-09-23" ∧
  parseISODate (toISODate d) = Day (-7040) ∧
  getFullYear (parseISODate (toISODate d)) = Num 1950.
Proof. vm_compute. done. Qed.

(** C5, as the code has it: [parseISODate] has no error to fail with.
    A key whose first three components are numerals is read as
    [new Date(y, m - 1, d)] whatever their widths and whatever follows a
    third dash; a key of fewer than three components gives the invalid
    date, which is a value. *)
Theorem parseISODate_never_rejects :
  (∀ ys ms ds : string,
     all_digits ys = true → all_digits ms = true → all_digits ds = true →
     parseISODate (ys +:+ String "-" (ms +:+ String "-" ds)) =
       new_Date (Number ys) (num_sub (Number ms) (Num 1)) (Number ds) ∧
     ∀ rest,
       parseISODate
         (ys +:+ String "-" (ms +:+ String "-" (ds +:+ String "-" rest))) =
         new_Date (Number ys) (num_sub (Number ms) (Num 1)) (Number ds)) ∧
  (∀ s, (length (split "-" s) < 3)%nat → parseISODate s = InvalidDate).
Proof.
  split.
  - intros ys ms ds Hy Hm Hd. by apply parseISODate_numerals.
  - intros s Hlen. unfold parseISODate.
    destruct (split "-" s) as [|a [|b [|c l]]]; simpl in *; try lia;
      unfold new_Date; try done.
    + by destruct (Number a).
    + by destruct (Number a), (num_sub (Number b) (Num 1)).
Qed.

Lemma parseISODate_never_rejects_witness :
  parseISODate "2024-13-45" = Day 20133 ∧
  toISODate (Day 20133) = "2025-02-14" ∧
  parseISODate "2024-01" = InvalidDate.
Proof.
  destruct parseISODate_never_rejects as [Hnum Hshort].
  split; [|split].
  - exact (proj1 (Hnum "2024" "13" "45" eq_refl eq_refl eq_refl)).
  - reflexivity.
  - apply Hshort. vm_compute. lia.
Defined.

(** C5 fails: a key with a fourth component does not have the shape
    of a date key, and [parseISODate] reads it as 2 January 2024. *)
Lemma malformed_key_is_coerced :
  date_key_shape "2024-01-02-03" = false ∧
  parseISODate "2024-01-02-03" = Day 19724 ∧
  toISODate (Day 19724) = "2024-01-02".
Proof. vm_compute. done. Qed.

(** * Ranges of days *)

Section range_facts.
Context {zone : Zone}.
Implicit Types (a b n k t : Z).

Lemma dateRange_from_invalid fuel t e : dateRange_from fuel InvalidDate t e = [].
Proof. by destruct fuel. Qed.

Lemma dateRange_loop_invalid fuel e : dateRange_loop fuel InvalidDate e = [].
Proof. apply dateRange_from_invalid. Qed.

Lemma dateRange_from_step fuel (d : jsdate) t (e : jsdate) :
  dateRange_from (S fuel) d t e =
    if date_le d t e (midnight e)
    then toISODate d ::
           dateRange_from fuel (addDays d 1) (carried (addDays d 1) t) e
    else [].
Proof. reflexivity. Qed.

(** A date after the end fails the test of the loop. *)
Lemma dateRange_from_past fuel a t b :
  b < a → dateRange_from fuel (Day a) t (Day b) = [].
Proof.
  intros Hlt. destruct fuel; [done|]. rewrite dateRange_from_step.
  unfold date_le. rewrite (proj2 (Z.ltb_ge a b)) by lia.
  by rewrite (proj2 (Z.eqb_neq a b)) by lia.
Qed.

(** With enough fuel the loop lists the keys of the days [a] to [b]
    and stops, when every day before the last begins at midnight. *)
Lemma dateRange_from_spec fuel a b :
  -100000000 <= a → b <= 100000000 → b - a + 1 <= Z.of_nat fuel →
  (∀ n, a <= n < b → settle n 0 = 0) →
  dateRange_from fuel (Day a) (settle a 0) (Day b) =
    (λ n, toISODate (Day n)) <$> seqZ a (b - a + 1).
Proof.
  revert a. induction fuel as [|fuel IH]; intros a Ha Hb Hfuel Hmid.
  - by rewrite seqZ_nil by lia.
  - rewrite dateRange_from_step. unfold date_le, midnight.
    destruct (Z.lt_trichotomy a b) as [Hlt|[->|Hgt]].
    + rewrite (proj2 (Z.ltb_lt a b)) by done. cbn [orb].
      rewrite seqZ_cons by lia. rewrite fmap_cons. f_equal.
      rewrite addDays_valid by lia. cbn [carried].
      rewrite (Hmid a) by lia. rewrite IH; [|lia|lia|lia|].
      * f_equal. f_equal; lia.
      * intros n Hn. apply Hmid. lia.
    + rewrite Z.ltb_irrefl, Z.eqb_refl, Z.leb_refl. cbn [orb andb].
      rewrite seqZ_cons by lia. rewrite fmap_cons. f_equal.
      rewrite seqZ_nil by lia. rewrite fmap_nil.
      rewrite addDays_Day. unfold TimeClip.
      case_match; [|apply dateRange_from_invalid].
      apply dateRange_from_past. lia.
    + rewrite (proj2 (Z.ltb_ge a b)) by lia.
      rewrite (proj2 (Z.eqb_neq a b)) by lia. cbn [orb andb].
      by rewrite seqZ_nil by lia.
Qed.

Lemma dateRange_loop_spec fuel a b :
  -100000000 <= a → b <= 100000000 → b - a + 1 <= Z.of_nat fuel →
  (∀ n, a <= n < b → settle n 0 = 0) →
  dateRange_loop fuel (Day a) (Day b) =
    (λ n, toISODate (Day n)) <$> seqZ a (b - a + 1).
Proof. apply dateRange_from_spec. Qed.

(** In every zone the loop makes at most as many iterations as it is
    allowed, and the keys it lists are those of consecutive days from the
    first. *)
Lemma dateRange_from_length fuel (d : jsdate) t (e : jsdate) :
  (length (dateRange_from fuel d t e) <= fuel)%nat.
Proof.
  revert d t. induction fuel as [|fuel IH]; intros d t; [done|].
  rewrite dateRange_from_step. case_match; [|simpl; lia].
  cbn [length]. specialize (IH (addDays d 1) (carried (addDays d 1) t)). lia.
Qed.

Lemma dateRange_from_prefix fuel a t b :
  ∃ m : nat, (m <= fuel)%nat ∧ Z.of_nat m <= Z.max 0 (b - a + 1) ∧
    dateRange_from fuel (Day a) t (Day b) =
      (λ n, toISODate (Day n)) <$> seqZ a (Z.of_nat m).
Proof.
  revert a t. induction fuel as [|fuel IH]; intros a t.
  { exists 0%nat. split; [done|]. split; [lia|done]. }
  rewrite dateRange_from_step.
  destruct (date_le (Day a) t (Day b) (midnight (Day b))) eqn:Hle;
    [|exists 0%nat; split; [lia|]; split; [lia|done]].
  assert (a <= b) as Hab.
  { unfold date_le in Hle. apply orb_true_iff in Hle as [Hle|Hle]; [lia|].
    apply andb_true_iff in Hle as [Hle _]. lia. }
  rewrite addDays_Day. unfold TimeClip. case_match.
  - destruct (IH (a + 1) (carried (Day (a + 1)) t)) as (m & Hm & Hmb & ->).
    exists (S m). split; [lia|]. split; [lia|].
    rewrite Nat2Z.inj_succ, (seqZ_cons a) by lia. rewrite fmap_cons. f_equal.
    f_equal. f_equal; lia.
  - rewrite dateRange_from_invalid. exists 1%nat.
    split; [lia|]. split; [lia|done].
Qed.

Lemma dateRangeInclusive_keys a b :
  100 <= YearFromDay a → a <= 100000000 →
  100 <= YearFromDay b → b <= 100000000 →
  (∀ n, a <= n < b → settle n 0 = 0) →
  dateRangeInclusive (toISODate (Day a)) (toISODate (Day b)) =
    (λ n, toISODate (Day n)) <$> seqZ a (b - a + 1).
Proof.
  intros Hya Ha Hyb Hb Hmid. unfold dateRangeInclusive, setHours0.
  rewrite !parseISODate_toISODate by done.
  apply dateRange_loop_spec; [|done|simpl; lia|done].
  pose proof (YearFromDay_spec a) as Hs.
  pose proof (DayFromYear_mono 100 (YearFromDay a) Hya) as Hmono.
  change (DayFromYear 100) with (-683003) in Hmono. lia.
Qed.

End range_facts.

Section year_bounds.
Implicit Types (a b n k : Z).

(** A day of year 100 or later is far inside the range of dates. *)
Lemma year_100_lower n : 100 <= YearFromDay n → -683003 <= n.
Proof.
  intros Hy. pose proof (YearFromDay_spec n) as Hs.
  pose proof (DayFromYear_mono 100 (YearFromDay n) Hy) as Hmono.
  change (DayFromYear 100) with (-683003) in Hmono. lia.
Qed.

Lemma year_100_upper n : -683003 <= n → 100 <= YearFromDay n.
Proof.
  intros Hn. change (-683003) with (DayFromYear 100) in Hn.
  pose proof (YearFromDay_spec n) as Hs.
  destruct (Z.le_gt_cases 100 (YearFromDay n)) as [|Hlt]; [done|].
  pose proof (DayFromYear_mono (YearFromDay n + 1) 100). lia.
Qed.

End year_bounds.

(** * The current streak *)

(** For a clock in year 110 or later the keys [computeStreak] visits
    are those of today, yesterday, and so on. *)
Lemma streak_key_Day n i :
  100 <= YearFromDay (n - i) → 0 <= i → n <= 100000000 →
  streak_key (Day n) i = toISODate (Day (n - i)).
Proof.
  intros Hy Hi Hn. unfold streak_key.
  pose proof (year_100_lower _ Hy) as Hlow.
  rewrite parseISODate_toISODate; [|apply year_100_upper; lia|done].
  rewrite addDays_valid by lia. do 2 f_equal.
Qed.

Lemma forallb_seq_Z (P : Z → bool) (len : nat) :
  forallb (λ k : nat, P (Z.of_nat k)) (seq 0 len) = true →
  ∀ i, 0 <= i < Z.of_nat len → P i = true.
Proof.
  intros H i Hi. rewrite forallb_forall in H.
  specialize (H (Z.to_nat i)). rewrite Z2Nat.id in H by lia.
  apply H, in_seq. lia.
Qed.

(** C10: [computeStreak] returns at most 3650, and it returns exactly
    3650 when the habit is completed on every one of the 3650 days it
    visits, however much further back the completions go. *)
Theorem computeStreak_capped (now : jsdate) (habitId : string) (L : log) :
  0 <= computeStreak now habitId L <= 3650 ∧
  ((∀ i, 0 <= i < 3650 → isCompleted L (streak_key now i) habitId = true) →
   computeStreak now habitId L = 3650).
Proof.
  unfold computeStreak. split.
  - pose proof (streak_loop_bounds now habitId L 3650 0 0). lia.
  - intros Hall. by rewrite streak_loop_all by (done || lia).
Qed.


(** A habit completed on each of the last 3700 days has a streak
    reported as 3650. *)
Lemma computeStreak_capped_witness :
  let now := Day 20759 in
  let L := streak_log "A" 20759 3700 in
  isCompleted L (toISODate (Day (20759 - 3699))) "A" = true ∧
  (∀ i, 0 <= i < 3650 → isCompleted L (streak_key now i) "A" = true) ∧
  computeStreak now "A" L = 3650.
Proof.
  intros now L.
  assert (∀ i, 0 <= i < 3650 → isCompleted L (streak_key now i) "A" = true)
    as Hall.
  { apply (forallb_seq_Z (λ i, isCompleted L (streak_key now i) "A") 3650).
    vm_compute. reflexivity. }
  split; [vm_compute; reflexivity|]. split; [exact Hall|].
  apply (computeStreak_capped now "A" L), Hall.
Defined.

(** * Weeks and months *)

Section week_facts.
Context {zone : Zone}.
Implicit Types (n s i k : Z).

Lemma WeekDay_range n : 0 <= WeekDay n <= 6.
Proof. unfold WeekDay. Z.div_mod_to_equations; lia. Qed.

(** [week_start] is the first day of the week that contains [n]. *)
Lemma week_start_spec n weekStartsOn :
  weekStartsOn = 0 ∨ weekStartsOn = 1 →
  WeekDay (week_start n weekStartsOn) = weekStartsOn ∧
  week_start n weekStartsOn <= n < week_start n weekStartsOn + 7.
Proof.
  unfold week_start, WeekDay. intros [-> | ->]; Z.div_mod_to_equations; lia.
Qed.

Lemma startOfWeek_Day n weekStartsOn :
  weekStartsOn = 0 ∨ weekStartsOn = 1 →
  startOfWeek (Day n) weekStartsOn = TimeClip (week_start n weekStartsOn).
Proof.
  intros Hw. unfold startOfWeek, setHours0, week_start. simpl.
  rewrite MakeDay_fields. f_equal.
  pose proof (WeekDay_range n).
  rewrite Z.rem_mod_nonneg by lia.
  destruct Hw as [-> | ->]; Z.div_mod_to_equations; lia.
Qed.

(** The days enumerated for a week that lies in year 100 or later and
    whose days begin at midnight. *)
Lemma week_days_keys s i :
  100 <= YearFromDay (s - 7 * i) → s - 7 * i + 6 <= 100000000 →
  Z.abs s <= 100000000 →
  (∀ n, s - 7 * i <= n < s - 7 * i + 6 → settle n 0 = 0) →
  addDays (Day s) (-7 * i) = Day (s - 7 * i) ∧
  week_days (Day s) i = (λ n, toISODate (Day n)) <$> seqZ (s - 7 * i) 7.
Proof.
  intros Hy Hup Hs Hmid. pose proof (year_100_lower _ Hy) as Hlow.
  assert (addDays (Day s) (-7 * i) = Day (s - 7 * i)) as Hws.
  { rewrite addDays_valid by lia. f_equal. lia. }
  split; [done|]. unfold week_days. rewrite Hws.
  rewrite addDays_valid by lia.
  rewrite dateRangeInclusive_keys;
    [|done|lia|apply year_100_upper; lia|lia|done].
  do 2 f_equal. lia.
Qed.

End week_facts.

Section month_facts.
Context {zone : Zone}.
Implicit Types (n y m i k : Z).

Lemma DaysInMonth_range y m : 28 <= DaysInMonth y m <= 31.
Proof.
  unfold DaysInMonth. destruct (InLeapYear_of_cases y) as [E|E];
    repeat case_match; lia.
Qed.

(** [MakeDay] brings the month into 0..11 and carries into the year. *)
Lemma MakeDay_normalise y m d :
  MakeDay y m d = MakeDay (y + m / 12) (m `mod` 12) d.
Proof.
  unfold MakeDay. cbv zeta.
  assert (0 <= m `mod` 12 < 12) as Hm by (Z.div_mod_to_equations; lia).
  by rewrite (Z.div_small (m `mod` 12)), (Z.mod_small (m `mod` 12)),
    Z.add_0_r by lia.
Qed.

(** The first of the following month comes [DaysInMonth] days after
    the first of a month. *)
Lemma MakeDay_next_month y m :
  0 <= m <= 11 → MakeDay y (m + 1) 1 = MakeDay y m 1 + DaysInMonth y m.
Proof.
  intros Hm. destruct (decide (m = 11)) as [->|Hne].
  - unfold MakeDay, DaysInMonth. simpl.
    change ((11 + 1) `div` 12) with 1. change (11 `div` 12) with 0.
    rewrite !Z.add_0_r, DayFromYear_succ. unfold DaysInYear. lia.
  - unfold MakeDay. cbv zeta.
    rewrite !Z.div_small, !Z.mod_small, !Z.add_0_r by lia.
    unfold DaysInMonth.
    assert (m = 0 ∨ m = 1 ∨ m = 2 ∨ m = 3 ∨ m = 4 ∨ m = 5 ∨ m = 6 ∨ m = 7
            ∨ m = 8 ∨ m = 9 ∨ m = 10) as Hc by lia.
    destruct Hc as [->|[->|[->|[->|[->|[->|[->|[->|[->|[->| ->]]]]]]]]]];
      simpl; lia.
Qed.

Lemma fields_of_month_start y m :
  0 <= m <= 11 →
  YearFromDay (MakeDay y m 1) = y ∧ MonthFromDay (MakeDay y m 1) = m ∧
  DateFromDay (MakeDay y m 1) = 1.
Proof.
  intros Hm. apply fields_of_MakeDay; [done|].
  pose proof (DaysInMonth_range y m). lia.
Qed.

Lemma setMonth_Day n m :
  setMonth (Day n) (Num m) =
    TimeClip (MakeDay (YearFromDay n) m (DateFromDay n)).
Proof. reflexivity. Qed.

Lemma setDate_Day n d :
  setDate (Day n) (Num d) =
    TimeClip (MakeDay (YearFromDay n) (MonthFromDay n) d).
Proof. reflexivity. Qed.

Lemma getMonth_Day n : getMonth (Day n) = Num (MonthFromDay n).
Proof. reflexivity. Qed.

Lemma num_sub_Num a b : num_sub (Num a) (Num b) = Num (a - b).
Proof. reflexivity. Qed.

Lemma num_add_Num a b : num_add (Num a) (Num b) = Num (a + b).
Proof. reflexivity. Qed.

Lemma startOfMonth_Day n :
  startOfMonth (Day n) =
    TimeClip (MakeDay (YearFromDay n) (MonthFromDay n) 1).
Proof. reflexivity. Qed.

(** The days enumerated for a month that lies in year 100 or later:
    [y] and [m] are the year and month of the current month. *)
Lemma month_days_keys y m i :
  0 <= m <= 11 →
  let y' := y + (m - i) / 12 in
  let m' := (m - i) `mod` 12 in
  100 <= YearFromDay (MakeDay y' m' 1) →
  MakeDay y' (m' + 1) 1 <= 100000000 →
  Z.abs (MakeDay y m 1) <= 100000000 →
  (∀ n, MakeDay y' m' 1 <= n < MakeDay y' (m' + 1) 1 - 1 → settle n 0 = 0) →
  setHours0 (setDate (setMonth (Day (MakeDay y m 1))
                        (num_sub (getMonth (Day (MakeDay y m 1))) (Num i)))
               (Num 1)) = Day (MakeDay y' m' 1) ∧
  month_days (Day (MakeDay y m 1)) i =
    (λ n, toISODate (Day n)) <$> seqZ (MakeDay y' m' 1) (DaysInMonth y' m').
Proof.
  intros Hm y' m' Hy Hup Hcur Hmid.
  assert (0 <= m' <= 11) as Hm' by (unfold m'; Z.div_mod_to_equations; lia).
  pose proof (year_100_lower _ Hy) as Hlow.
  pose proof (MakeDay_next_month y' m' Hm') as Hnext.
  pose proof (DaysInMonth_range y' m') as Hdim.
  destruct (fields_of_month_start y m Hm) as (Fy & Fm & Fd).
  destruct (fields_of_month_start y' m' Hm') as (Fy' & Fm' & Fd').
  assert (setHours0 (setDate (setMonth (Day (MakeDay y m 1))
                        (num_sub (getMonth (Day (MakeDay y m 1))) (Num i)))
               (Num 1)) = Day (MakeDay y' m' 1)) as Hstart.
  { unfold setHours0.
    rewrite getMonth_Day, num_sub_Num, setMonth_Day, Fy, Fm, Fd.
    rewrite (MakeDay_normalise y (m - i) 1). fold y' m'.
    rewrite TimeClip_valid by lia. rewrite setDate_Day, Fy', Fm'.
    apply TimeClip_valid. lia. }
  split; [done|]. unfold month_days. rewrite Hstart.
  rewrite getMonth_Day, num_add_Num, setMonth_Day, Fy', Fm', Fd'.
  rewrite TimeClip_valid by lia.
  rewrite addDays_valid by lia.
  rewrite dateRangeInclusive_keys;
    [|done|lia|apply year_100_upper; lia|lia|].
  - do 2 f_equal. lia.
  - intros n Hn. apply Hmid. lia.
Qed.

End month_facts.

Section rollup_points.
Context {zone : Zone}.
Implicit Types (n y m i : Z) (k : nat).

Lemma rollupWeekly_lookup locale_short now habits L weeksBack weekStartsOn k :
  (k < Z.to_nat weeksBack)%nat →
  rollupWeekly locale_short now habits L weeksBack weekStartsOn !! k =
    Some (weekPoint locale_short (getActiveHabits habits) L
            (startOfWeek now weekStartsOn) (weeksBack - 1 - Z.of_nat k)).
Proof.
  intros Hk. rewrite rollupWeekly_eq, list_lookup_fmap.
  by rewrite lookup_seq_lt by done.
Qed.

Lemma rollupWeekly_length locale_short now habits L weeksBack weekStartsOn :
  length (rollupWeekly locale_short now habits L weeksBack weekStartsOn) =
    Z.to_nat weeksBack.
Proof. by rewrite rollupWeekly_eq, length_fmap, length_seq. Qed.

Lemma rollupMonthly_lookup locale_month now habits L monthsBack k :
  (k < Z.to_nat monthsBack)%nat →
  rollupMonthly locale_month now habits L monthsBack !! k =
    Some (monthPoint locale_month (getActiveHabits habits) L
            (startOfMonth now) (monthsBack - 1 - Z.of_nat k)).
Proof.
  intros Hk. rewrite rollupMonthly_eq, list_lookup_fmap.
  by rewrite lookup_seq_lt by done.
Qed.

Lemma rollupMonthly_length locale_month now habits L monthsBack :
  length (rollupMonthly locale_month now habits L monthsBack) =
    Z.to_nat monthsBack.
Proof. by rewrite rollupMonthly_eq, length_fmap, length_seq. Qed.

(** The points in terms of the days they are computed over. *)
Lemma weekPoint_fields locale_short active L thisWeekStart i :
  weekPoint locale_short active L thisWeekStart i =
    let ws := addDays thisWeekStart (-7 * i) in
    let perHabit := perHabit_of active L (week_days thisWeekStart i) in
    {| wp_weekStartISO := toISODate ws;
       wp_label := formatShort locale_short (toISODate ws) +:+ "–" +:+
                   formatShort locale_short (toISODate (addDays ws 6));
       wp_completedTotal := sum_values perHabit;
       wp_totalPossible := len active * 7;
       wp_rate := rate_of (sum_values perHabit) (len active * 7);
       wp_perHabit := perHabit |}.
Proof. reflexivity. Qed.

Lemma monthPoint_fields locale_month active L cur i :
  monthPoint locale_month active L cur i =
    let mStart :=
      setHours0 (setDate (setMonth cur (num_sub (getMonth cur) (Num i))) (Num 1)) in
    let days := month_days cur i in
    let perHabit := perHabit_of active L days in
    {| mp_monthISO := toISODate mStart;
       mp_label := formatMonthLabel locale_month (toISODate mStart);
       mp_completedTotal := sum_values perHabit;
       mp_totalPossible := len active * len days;
       mp_rate := rate_of (sum_values perHabit) (len active * len days);
       mp_daysInMonth := len days;
       mp_perHabit := perHabit |}.
Proof. reflexivity. Qed.

(** The first of the month that follows month [a], whatever the
    integer [a]. *)
Lemma MakeDay_succ_month y a :
  MakeDay y (a + 1) 1 =
    MakeDay y a 1 + DaysInMonth (y + a / 12) (a `mod` 12).
Proof.
  assert (0 <= a `mod` 12 <= 11) as Hm by (Z.div_mod_to_equations; lia).
  rewrite (MakeDay_normalise y a 1).
  rewrite <- MakeDay_next_month by done.
  rewrite (MakeDay_normalise y (a + 1) 1).
  rewrite (MakeDay_normalise (y + a / 12) (a `mod` 12 + 1) 1).
  destruct (decide (a `mod` 12 = 11)) as [E|E].
  - rewrite E. change ((11 + 1) / 12) with 1. change ((11 + 1) `mod` 12) with 0.
    f_equal; Z.div_mod_to_equations; lia.
  - rewrite (Z.div_small (a `mod` 12 + 1)), (Z.mod_small (a `mod` 12 + 1)) by lia.
    f_equal; Z.div_mod_to_equations; lia.
Qed.

Lemma MakeDay_month_mono y a b :
  a <= b → MakeDay y a 1 <= MakeDay y b 1.
Proof.
  intros Hab. replace b with (a + Z.of_nat (Z.to_nat (b - a))) by lia.
  induction (Z.to_nat (b - a)) as [|j IH]; [by rewrite Z.add_0_r|].
  replace (a + Z.of_nat (S j)) with (a + Z.of_nat j + 1) by lia.
  rewrite MakeDay_succ_month.
  pose proof (DaysInMonth_range (y + (a + Z.of_nat j) / 12)
                ((a + Z.of_nat j) `mod` 12)). lia.
Qed.

End rollup_points.

Section week_month_claims.
Context {zone : Zone}.

(** C6, as the code has it: when the oldest week asked for starts in
    year 100 or later, the current week ends inside the range of dates
    and every local day begins at midnight, [rollupWeekly] returns [weeksBack] points, oldest first; the
    last one is the week that starts on [startOfWeek(today)], each
    earlier one starts 7 days before the next, each is computed over the
    7 consecutive days from its start, and each has
    [totalPossible = 7 * active.length]. *)
Theorem rollupWeekly_weeks (locale_short : jsdate → string) (n : Z)
    (habits : list habit) (L : log) (weeksBack weekStartsOn : Z) :
  1 <= weeksBack → weekStartsOn = 0 ∨ weekStartsOn = 1 →
  let s := week_start n weekStartsOn in
  100 <= YearFromDay (s - 7 * (weeksBack - 1)) → s + 6 <= 100000000 →
  (∀ d, settle d 0 = 0) →
  let active := getActiveHabits habits in
  let thisWeekStart := startOfWeek (Day n) weekStartsOn in
  let weeks := rollupWeekly locale_short (Day n) habits L weeksBack weekStartsOn in
  thisWeekStart = Day s ∧ WeekDay s = weekStartsOn ∧ s <= n < s + 7 ∧
  length weeks = Z.to_nat weeksBack ∧
  ∀ k : nat, (k < Z.to_nat weeksBack)%nat →
    let i := weeksBack - 1 - Z.of_nat k in
    ∃ p, weeks !! k = Some p ∧
      wp_weekStartISO p = toISODate (Day (s - 7 * i)) ∧
      week_days thisWeekStart i =
        (λ n, toISODate (Day n)) <$> seqZ (s - 7 * i) 7 ∧
      wp_perHabit p = perHabit_of active L (week_days thisWeekStart i) ∧
      wp_completedTotal p = sum_values (wp_perHabit p) ∧
      wp_totalPossible p = len active * 7.
Proof.
  intros Hwb Hwso s Hy Hup Hmid active thisWeekStart weeks.
  pose proof (year_100_lower _ Hy) as Hlow.
  destruct (week_start_spec n weekStartsOn Hwso) as [Hwd Hin]. fold s in Hwd, Hin.
  assert (thisWeekStart = Day s) as Hs.
  { unfold thisWeekStart. rewrite startOfWeek_Day by done.
    apply TimeClip_valid. fold s. lia. }
  split; [done|]. split; [done|]. split; [done|].
  split; [apply rollupWeekly_length|].
  intros k Hk i. eexists. split; [by apply rollupWeekly_lookup|].
  fold thisWeekStart active i. rewrite Hs.
  destruct (week_days_keys s i) as [Hws Hdays];
    [apply year_100_upper; unfold i; lia|unfold i; lia|lia|done|].
  rewrite weekPoint_fields. cbv zeta.
  cbn [wp_weekStartISO wp_perHabit wp_completedTotal wp_totalPossible].
  rewrite Hws.
  split; [reflexivity|]. split; [exact Hdays|].
  split; [reflexivity|]. split; reflexivity.
Qed.

(** C7, as the code has it: when the oldest month asked for lies in
    year 100 or later, the month after the current one starts inside
    the range of dates and every local day begins at midnight,
    [rollupMonthly] returns [monthsBack] points,
    oldest first, one calendar month apart; each has [daysInMonth] equal
    to the number of days of its month, from 28 to 31, and
    [totalPossible = active.length * daysInMonth]. *)
Theorem rollupMonthly_months (locale_month : jsdate → string) (n : Z)
    (habits : list habit) (L : log) (monthsBack : Z) :
  1 <= monthsBack →
  let y := YearFromDay n in
  let m := MonthFromDay n in
  100 <= YearFromDay (MakeDay y (m - (monthsBack - 1)) 1) →
  MakeDay y (m + 1) 1 <= 100000000 →
  (∀ d, settle d 0 = 0) →
  let active := getActiveHabits habits in
  let months := rollupMonthly locale_month (Day n) habits L monthsBack in
  length months = Z.to_nat monthsBack ∧
  ∀ k : nat, (k < Z.to_nat monthsBack)%nat →
    let i := monthsBack - 1 - Z.of_nat k in
    let y' := y + (m - i) / 12 in
    let m' := (m - i) `mod` 12 in
    ∃ p, months !! k = Some p ∧
      mp_monthISO p = toISODate (Day (MakeDay y' m' 1)) ∧
      month_days (startOfMonth (Day n)) i =
        (λ n, toISODate (Day n)) <$> seqZ (MakeDay y' m' 1) (DaysInMonth y' m') ∧
      mp_daysInMonth p = DaysInMonth y' m' ∧
      28 <= mp_daysInMonth p <= 31 ∧
      (m' = 1 → mp_daysInMonth p = 28 + InLeapYear_of y') ∧
      mp_totalPossible p = len active * DaysInMonth y' m'.
Proof.
  intros Hmb y m Hy Hup Hmid active months.
  pose proof (year_100_lower _ Hy) as Hlow.
  pose proof (MonthFromDay_range n) as Hm. fold m in Hm.
  pose proof (MakeDay_month_mono y (m - (monthsBack - 1)) m) as Hcur_low.
  pose proof (MakeDay_month_mono y m (m + 1)) as Hcur_up.
  assert (startOfMonth (Day n) = Day (MakeDay y m 1)) as Hcur.
  { rewrite startOfMonth_Day. apply TimeClip_valid. fold y m. lia. }
  split; [apply rollupMonthly_length|].
  intros k Hk i y' m'. eexists. split; [by apply rollupMonthly_lookup|].
  fold active i. rewrite Hcur.
  pose proof (MakeDay_month_mono y (m - (monthsBack - 1)) (m - i)) as Hi_low.
  pose proof (MakeDay_month_mono y (m - i + 1) (m + 1)) as Hi_up.
  pose proof (MakeDay_normalise y (m - i) 1) as Hnorm. fold y' m' in Hnorm.
  pose proof (MakeDay_succ_month y (m - i)) as Hsucc. fold y' m' in Hsucc.
  assert (0 <= m' <= 11) as Hm' by (unfold m'; Z.div_mod_to_equations; lia).
  pose proof (MakeDay_next_month y' m' Hm') as Hnext.
  pose proof (DaysInMonth_range y' m') as Hdim.
  destruct (month_days_keys y m i Hm) as [Hstart Hdays].
  { fold y' m'. apply year_100_upper. unfold i in *. lia. }
  { fold y' m'. unfold i in *. lia. }
  { lia. }
  { done. }
  fold y' m' in Hstart, Hdays.
  assert (len (month_days (Day (MakeDay y m 1)) i) = DaysInMonth y' m') as Hlen.
  { rewrite Hdays. unfold len. rewrite length_fmap, length_seqZ. lia. }
  rewrite monthPoint_fields. cbv zeta.
  cbn [mp_monthISO mp_daysInMonth mp_totalPossible].
  rewrite Hstart, Hlen.
  split; [reflexivity|]. split; [exact Hdays|]. split; [reflexivity|].
  split; [exact Hdim|]. split; [|reflexivity].
  intros ->. reflexivity.
Qed.

End week_month_claims.

Section week_month_examples.
#[local] Existing Instance UTC.

Lemma rollupWeekly_weeks_witness :
  let n := 20761 in
  let habits := [example_habit "A" true; example_habit "B" true] in
  let L := streak_log "A" 20761 5 in
  let s := week_start n 1 in
  1 <= 12 ∧ (1 = 0 ∨ 1 = 1) ∧
  100 <= YearFromDay (s - 7 * (12 - 1)) ∧ s + 6 <= 100000000 ∧
  (∀ d, settle d 0 = 0) ∧
  let active := getActiveHabits habits in
  let thisWeekStart := startOfWeek (Day n) 1 in
  let weeks := rollupWeekly toISODate (Day n) habits L 12 1 in
  thisWeekStart = Day s ∧ WeekDay s = 1 ∧ s <= n < s + 7 ∧
  length weeks = Z.to_nat 12 ∧
  ∀ k : nat, (k < Z.to_nat 12)%nat →
    let i := 12 - 1 - Z.of_nat k in
    ∃ p, weeks !! k = Some p ∧
      wp_weekStartISO p = toISODate (Day (s - 7 * i)) ∧
      week_days thisWeekStart i =
        (λ n, toISODate (Day n)) <$> seqZ (s - 7 * i) 7 ∧
      wp_perHabit p = perHabit_of active L (week_days thisWeekStart i) ∧
      wp_completedTotal p = sum_values (wp_perHabit p) ∧
      wp_totalPossible p = len active * 7.
Proof.
  intros n habits L s.
  split; [lia|]. split; [by right|].
  split; [vm_compute; discriminate|]. split; [vm_compute; discriminate|].
  split; [done|].
  apply (rollupWeekly_weeks toISODate n habits L 12 1).
  - lia.
  - by right.
  - vm_compute; discriminate.
  - vm_compute; discriminate.
  - done.
Defined.

(** C6 fails for a week before year 100.  With today 2 November 2026
    and 110000 weeks asked for, the oldest week starts on 2 September of
    year -82; its key [-82-09-02] is read back as 9 October 1906, so the
    week is computed over that single day, and a habit completed on all
    seven days of the week counts 0 completions. *)
Lemma rollupWeekly_week_before_year_100 :
  let habits := [example_habit "A" true] in
  let s := week_start 20759 1 - 7 * 109999 in
  let L := streak_log "A" (s + 6) 7 in
  1 <= 110000 ∧
  (∀ j, 0 <= j < 7 → isCompleted L (toISODate (Day (s + j))) "A" = true) ∧
  ∃ p, rollupWeekly toISODate (Day 20759) habits L 110000 1 !! 0%nat = Some p ∧
       wp_weekStartISO p = "-82-09-02" ∧
       toISODate (Day s) = "-82-09-02" ∧
       week_days (startOfWeek (Day 20759) 1) 109999 = ["1906-10-09"] ∧
       wp_completedTotal p = 0 ∧
       wp_totalPossible p = 7.
Proof.
  intros habits s L. split; [lia|]. split.
  - apply (forallb_seq_Z
             (λ j, isCompleted L (toISODate (Day (s + j))) "A") 7).
    vm_compute. reflexivity.
  - eexists. split; [apply rollupWeekly_lookup; lia|].
    vm_compute. done.
Qed.

Lemma rollupMonthly_months_witness :
  let n := 20759 in
  let habits := [example_habit "A" true; example_habit "B" true] in
  let L := streak_log "A" 20759 5 in
  let y := YearFromDay n in
  let m := MonthFromDay n in
  1 <= 12 ∧
  100 <= YearFromDay (MakeDay y (m - (12 - 1)) 1) ∧
  MakeDay y (m + 1) 1 <= 100000000 ∧
  (∀ d, settle d 0 = 0) ∧
  let active := getActiveHabits habits in
  let months := rollupMonthly toISODate (Day n) habits L 12 in
  length months = Z.to_nat 12 ∧
  ∀ k : nat, (k < Z.to_nat 12)%nat →
    let i := 12 - 1 - Z.of_nat k in
    let y' := y + (m - i) / 12 in
    let m' := (m - i) `mod` 12 in
    ∃ p, months !! k = Some p ∧
      mp_monthISO p = toISODate (Day (MakeDay y' m' 1)) ∧
      month_days (startOfMonth (Day n)) i =
        (λ n, toISODate (Day n)) <$> seqZ (MakeDay y' m' 1) (DaysInMonth y' m') ∧
      mp_daysInMonth p = DaysInMonth y' m' ∧
      28 <= mp_daysInMonth p <= 31 ∧
      (m' = 1 → mp_daysInMonth p = 28 + InLeapYear_of y') ∧
      mp_totalPossible p = len active * DaysInMonth y' m'.
Proof.
  intros n habits L y m.
  split; [lia|].
  split; [vm_compute; discriminate|]. split; [vm_compute; discriminate|].
  split; [done|].
  apply (rollupMonthly_months toISODate n habits L 12).
  - lia.
  - vm_compute; discriminate.
  - vm_compute; discriminate.
  - done.
Defined.

(** February 2026 has 28 days and March 2026 has 31: with two active
    habits the points have [totalPossible] 56 and 62. *)
Lemma rollupMonthly_february_march :
  let habits := [example_habit "A" true; example_habit "B" true] in
  (λ p, (mp_monthISO p, mp_daysInMonth p, mp_totalPossible p))
    <$> take 2 (rollupMonthly toISODate (Day 20759) habits ∅ 10) =
  [("2026-02-01", 28, 56); ("2026-03-01", 31, 62)].
Proof. vm_compute. reflexivity. Qed.

(** C7 fails for a month before year 100.  With today 2 November 2026
    and 24500 months asked for, the oldest month is April of year -15;
    its key [-15-04-01] and the key of its last day are both read back as
    4 March 1901, and the point has [daysInMonth = 1]. *)
Lemma rollupMonthly_month_before_year_100 :
  let habits := [example_habit "A" true] in
  1 <= 24500 ∧
  ∃ p, rollupMonthly toISODate (Day 20759) habits ∅ 24500 !! 0%nat = Some p ∧
       mp_monthISO p = "-15-04-01" ∧
       month_days (startOfMonth (Day 20759)) 24499 = ["1901-03-04"] ∧
       mp_daysInMonth p = 1 ∧
       mp_totalPossible p = 1.
Proof.
  intros habits. split; [lia|].
  eexists. split; [apply rollupMonthly_lookup; lia|].
  vm_compute. done.
Qed.

End week_month_examples.

(** * Further properties: calendar utilities *)

Section range_loop.
Context {zone : Zone}.
Implicit Types (a b n k t : Z).

(** The loop of [dateRangeInclusive] stops on its own test: more fuel
    than [dateRange_fuel] changes nothing, in any time zone. *)
Lemma dateRange_from_fuel a b t (k : nat) :
  dateRange_from (Z.to_nat (b - a + 1) + k) (Day a) t (Day b) =
    dateRange_from (Z.to_nat (b - a + 1)) (Day a) t (Day b).
Proof.
  remember (Z.to_nat (b - a + 1)) as f eqn:Hf. revert a t Hf.
  induction f as [|f IH]; intros a t Hf.
  - cbn [Nat.add]. rewrite (dateRange_from_past k) by lia. done.
  - change (S f + k)%nat with (S (f + k)). rewrite !dateRange_from_step.
    case_match; [|done]. f_equal.
    rewrite addDays_Day. unfold TimeClip. case_match.
    + apply IH. lia.
    + by rewrite !dateRange_from_invalid.
Qed.

Lemma dateRange_loop_fuel (s e : jsdate) (k : nat) :
  dateRange_loop (dateRange_fuel s e + k) s e =
    dateRange_loop (dateRange_fuel s e) s e.
Proof.
  destruct s as [|a]; [by rewrite !dateRange_loop_invalid|].
  destruct e as [|b]; [by destruct k|].
  apply dateRange_from_fuel.
Qed.

End range_loop.




Section range_extras.
Context {zone : Zone}.

(** X3: between the keys of two days of year 100 or later, in a time
    zone in which every day of the range before the last begins at
    midnight (no clock change skips local midnight there),
    [dateRangeInclusive] lists the key of every day from the first to the
    second in ascending order: it has [b - a + 1] keys, is empty when the
    start is after the end, and is the start key alone when they are the
    same day. *)
Theorem dateRangeInclusive_enumerates (a b : Z) :
  100 <= YearFromDay a → a <= 100000000 →
  100 <= YearFromDay b → b <= 100000000 →
  (∀ n, a <= n < b → settle n 0 = 0) →
  let keys := dateRangeInclusive (toISODate (Day a)) (toISODate (Day b)) in
  keys = (λ n, toISODate (Day n)) <$> seqZ a (b - a + 1) ∧
  length keys = Z.to_nat (b - a + 1) ∧
  (∀ i : nat, (i < length keys)%nat →
     keys !! i = Some (toISODate (Day (a + Z.of_nat i)))) ∧
  (b < a → keys = []) ∧
  (a = b → keys = [toISODate (Day a)]).
Proof.
  intros Hya Ha Hyb Hb Hmid keys.
  assert (keys = (λ n, toISODate (Day n)) <$> seqZ a (b - a + 1)) as Hk
    by by apply dateRangeInclusive_keys.
  split; [done|]. rewrite Hk. rewrite length_fmap, length_seqZ.
  split; [done|]. split; [|split].
  - intros i Hi. rewrite list_lookup_fmap, lookup_seqZ_lt by lia. done.
  - intros Hlt. by rewrite seqZ_nil by lia.
  - intros ->. replace (b - b + 1) with 1 by lia. reflexivity.
Qed.

Lemma dateRange_loop_invalid_either (fuel : nat) (s e : jsdate) :
  s = InvalidDate ∨ e = InvalidDate → dateRange_loop fuel s e = [].
Proof.
  intros [-> | ->]; [apply dateRange_loop_invalid|].
  destruct fuel; [done|]. unfold dateRange_loop.
  rewrite dateRange_from_step. by destruct s.
Qed.

(** X4: when either key is read as the invalid date, for instance a
    key of fewer than three components, [dateRangeInclusive] returns the
    empty list: the test of its loop fails at once, whatever bound the
    loop is given. *)
Theorem dateRangeInclusive_invalid_key (startISO endISO : string) :
  parseISODate startISO = InvalidDate ∨ parseISODate endISO = InvalidDate →
  dateRangeInclusive startISO endISO = [] ∧
  ∀ fuel,
    dateRange_loop fuel (parseISODate startISO) (parseISODate endISO) = [].
Proof.
  intros Hinv. split; [|intros fuel]; by apply dateRange_loop_invalid_either.
Qed.

(** X5: the loop of [dateRangeInclusive] always ends by its own test
    [d <= end]: run with any larger number of iterations allowed, it
    returns the same list. *)
Theorem dateRangeInclusive_terminates (startISO endISO : string) (extra : nat) :
  let start := parseISODate startISO in
  let end_ := parseISODate endISO in
  dateRange_loop (dateRange_fuel start end_ + extra) start end_ =
    dateRangeInclusive startISO endISO.
Proof. intros start end_. apply dateRange_loop_fuel. Qed.

(** X6: [startOfMonth] returns the first day of the month of its
    argument: same year, same month, day 1, at most 30 days earlier; and
    it leaves a first day of a month as it is. *)
Theorem startOfMonth_first_day (n : Z) :
  -99999969 <= n <= 100000000 →
  let first := n - (DateFromDay n - 1) in
  startOfMonth (Day n) = Day first ∧
  YearFromDay first = YearFromDay n ∧
  MonthFromDay first = MonthFromDay n ∧
  DateFromDay first = 1 ∧
  n - 30 <= first <= n ∧
  startOfMonth (startOfMonth (Day n)) = startOfMonth (Day n).
Proof.
  intros Hn first.
  pose proof (DateFromDay_range n) as Hd.
  pose proof (DaysInMonth_range (YearFromDay n) (MonthFromDay n)) as Hdim.
  pose proof (MonthFromDay_range n) as Hm.
  assert (MakeDay (YearFromDay n) (MonthFromDay n) 1 = first) as Hfirst.
  { rewrite MakeDay_fields. unfold first. lia. }
  destruct (fields_of_month_start (YearFromDay n) (MonthFromDay n) Hm)
    as (Fy & Fm & Fd). rewrite Hfirst in Fy, Fm, Fd.
  assert (startOfMonth (Day n) = Day first) as Hs.
  { rewrite startOfMonth_Day, Hfirst. apply TimeClip_valid. lia. }
  split; [done|]. split; [done|]. split; [done|]. split; [done|].
  split; [lia|]. rewrite Hs, startOfMonth_Day, Fy, Fm, Hfirst.
  apply TimeClip_valid. lia.
Qed.

Lemma startOfMonth_first_day_witness :
  -99999969 <= 20759 <= 100000000 ∧
  toISODate (Day 20759) = "2026-11-02" ∧
  toISODate (startOfMonth (Day 20759)) = "2026-11-01" ∧
  let first := 20759 - (DateFromDay 20759 - 1) in
  startOfMonth (Day 20759) = Day first ∧
  YearFromDay first = YearFromDay 20759 ∧
  MonthFromDay first = MonthFromDay 20759 ∧
  DateFromDay first = 1 ∧
  20759 - 30 <= first <= 20759 ∧
  startOfMonth (startOfMonth (Day 20759)) = startOfMonth (Day 20759).
Proof.
  split; [lia|]. split; [reflexivity|]. split; [reflexivity|].
  apply (startOfMonth_first_day 20759). lia.
Defined.




End range_extras.

Section range_examples.
#[local] Existing Instance UTC.

Lemma dateRangeInclusive_enumerates_witness :
  100 <= YearFromDay 19781 ∧ 19781 <= 100000000 ∧
  100 <= YearFromDay 19783 ∧ 19783 <= 100000000 ∧
  (∀ n, 19781 <= n < 19783 → settle n 0 = 0) ∧
  dateRangeInclusive "2024-02-28" "2024-03-01" =
    ["2024-02-28"; "2024-02-29"; "2024-03-01"] ∧
  let keys := dateRangeInclusive (toISODate (Day 19781)) (toISODate (Day 19783)) in
  keys = (λ n, toISODate (Day n)) <$> seqZ 19781 (19783 - 19781 + 1) ∧
  length keys = Z.to_nat (19783 - 19781 + 1) ∧
  (∀ i : nat, (i < length keys)%nat →
     keys !! i = Some (toISODate (Day (19781 + Z.of_nat i)))) ∧
  (19783 < 19781 → keys = []) ∧
  (19781 = 19783 → keys = [toISODate (Day 19781)]).
Proof.
  split; [vm_compute; discriminate|]. split; [lia|].
  split; [vm_compute; discriminate|]. split; [lia|].
  split; [done|]. split; [vm_compute; reflexivity|].
  apply (dateRangeInclusive_enumerates 19781 19783);
    (done || lia || (vm_compute; discriminate)).
Defined.

Lemma dateRangeInclusive_invalid_key_witness :
  (parseISODate "2024-01" = InvalidDate ∨
   parseISODate "2024-03-01" = InvalidDate) ∧
  dateRangeInclusive "2024-01" "2024-03-01" = [] ∧
  ∀ fuel,
    dateRange_loop fuel (parseISODate "2024-01") (parseISODate "2024-03-01") = [].
Proof.
  split; [by left|].
  apply (dateRangeInclusive_invalid_key "2024-01" "2024-03-01"). by left.
Defined.


End range_examples.

(** Where the clocks go forward at midnight the loop loses the end of
    the range: in America/Santiago local midnight of 8 September 2024 does
    not exist, the loop variable reaches that day at 01:00 and keeps that
    time of day, and on 9 September it is later than the end date. *)
Lemma dateRangeInclusive_skipped_midnight :
  toISODate (Day 19974) = "2024-09-08" ∧
  @dateRangeInclusive (forward_at_midnight 19974 3600000)
    "2024-09-07" "2024-09-09" = ["2024-09-07"; "2024-09-08"] ∧
  @dateRangeInclusive UTC "2024-09-07" "2024-09-09" =
    ["2024-09-07"; "2024-09-08"; "2024-09-09"].
Proof. vm_compute. done. Qed.

(** * Further properties: rollups and summaries *)

Section counting.
Context {zone : Zone}.
Implicit Types (active : list habit) (L : log) (m : gmap string Z).

(** Counting by a running sum is counting the elements that pass. *)
Lemma count_foldl {A} (P : A → bool) (l : list A) (a : Z) :
  foldl (λ acc x, acc + (if P x then 1 else 0)) a l =
    a + len (filter (λ x, P x = true) l).
Proof.
  revert a. induction l as [|x l IH]; intros a; simpl.
  - unfold len. simpl. lia.
  - rewrite IH. rewrite filter_cons. unfold len.
    destruct (P x) eqn:HP; case_decide; try congruence; simpl length; lia.
Qed.

Lemma len_filter_bounds {A} (P : A → Prop) `{∀ x, Decision (P x)} (l : list A) :
  0 <= len (filter P l) <= len l.
Proof. unfold len. pose proof (length_filter P l). lia. Qed.

Lemma len_filter_all {A} (P : A → Prop) `{∀ x, Decision (P x)} (l : list A) :
  len (filter P l) = len l ↔ ∀ x, x ∈ l → P x.
Proof.
  unfold len. split.
  - intros Hlen x Hx. destruct (decide (P x)) as [|Hn]; [done|].
    pose proof (length_filter_lt P l x Hx Hn). lia.
  - intros Hall. f_equal. induction l as [|x l IH]; [done|].
    rewrite filter_cons, decide_True by (apply Hall; left).
    simpl. f_equal. apply IH. intros y Hy. apply Hall. by right.
Qed.

Lemma sum_values_insert m k v :
  m !! k = None → sum_values (<[k := v]> m) = sum_values m + v.
Proof.
  intros Hk. unfold sum_values. rewrite map_fold_insert_L; [done| |done].
  intros. lia.
Qed.

Lemma sum_values_alter m k v :
  m !! k = Some v →
  sum_values (alter (λ v, v + 1) k m) = sum_values m + 1.
Proof.
  intros Hk. rewrite <- (insert_delete_id m k v Hk) at 1 2.
  rewrite alter_insert_eq, !sum_values_insert by apply lookup_delete_eq. lia.
Qed.

Lemma sum_values_zero m :
  (∀ k v, m !! k = Some v → v = 0) → sum_values m = 0.
Proof.
  induction m as [|k v m Hk IH] using map_ind; intros Hz; [done|].
  rewrite sum_values_insert by done.
  rewrite (Hz k v) by apply lookup_insert_eq.
  rewrite IH; [done|]. intros k' v' Hk'. apply (Hz k').
  rewrite lookup_insert_ne; [done|]. intros ->. congruence.
Qed.

(** [perHabit] after [active.forEach((h) => (perHabit[h.id] = 0))]. *)
Lemma perHabit_init active m :
  (∀ k v, m !! k = Some v → v = 0) →
  let m' := foldl (λ acc h, <[habit_id h := 0]> acc) m active in
  (∀ k v, m' !! k = Some v → v = 0) ∧
  (∀ h, h ∈ active → is_Some (m' !! habit_id h)) ∧
  (∀ k, is_Some (m !! k) → is_Some (m' !! k)).
Proof.
  revert m. induction active as [|h active IH]; intros m Hz; simpl.
  - split; [done|]. split; [by intros h ?%elem_of_nil|done].
  - destruct (IH (<[habit_id h := 0]> m)) as (Hz' & Hin & Hmono).
    { intros k v [[_ <-]|[_ ?]]%lookup_insert_Some; eauto. }
    split; [done|]. split.
    + intros h' [->|Hh']%elem_of_cons; [|by apply Hin].
      apply Hmono. rewrite lookup_insert_eq. eauto.
    + intros k Hk. apply Hmono.
      destruct (decide (habit_id h = k)) as [->|Hne].
      * rewrite lookup_insert_eq. eauto.
      * by rewrite lookup_insert_ne.
Qed.

(** One day of [days.forEach(...)]: every completed active habit adds 1. *)
Lemma perHabit_day L dISO (l : list habit) m :
  (∀ h, h ∈ l → is_Some (m !! habit_id h)) →
  let m' := foldl (λ acc h,
                     if isCompleted L dISO (habit_id h)
                     then alter (λ v, v + 1) (habit_id h) acc
                     else acc) m l in
  sum_values m' =
    sum_values m + len (filter (λ h, isCompleted L dISO (habit_id h) = true) l) ∧
  (∀ k, is_Some (m !! k) → is_Some (m' !! k)).
Proof.
  revert m. induction l as [|h l IH]; intros m Hin; simpl.
  - split; [unfold len; simpl; lia|done].
  - assert (is_Some (m !! habit_id h)) as [v Hv] by (apply Hin; left).
    assert (∀ k, is_Some (m !! k) →
              is_Some (alter (λ v, v + 1) (habit_id h) m !! k)) as Halt.
    { intros k [x Hx]. rewrite lookup_alter. case_decide; subst.
      - rewrite Hv. eauto.
      - rewrite Hx. eauto. }
    rewrite filter_cons.
    destruct (isCompleted L dISO (habit_id h)) eqn:Hc.
    + rewrite decide_True by done.
      destruct (IH (alter (λ v, v + 1) (habit_id h) m)) as [Hs Hm].
      { intros h' Hh'. apply Halt, Hin. by right. }
      split.
      * rewrite Hs, (sum_values_alter m _ v Hv). unfold len. simpl. lia.
      * intros k Hk. by apply Hm, Halt.
    + rewrite decide_False by done.
      apply IH. intros h' Hh'. apply Hin. by right.
Qed.

Lemma perHabit_days active L days m :
  (∀ h, h ∈ active → is_Some (m !! habit_id h)) →
  sum_values
    (foldl (λ acc dISO,
              foldl (λ acc h,
                       if isCompleted L dISO (habit_id h)
                       then alter (λ v, v + 1) (habit_id h) acc
                       else acc) acc active) m days) =
    sum_values m + completed_pairs active L days.
Proof.
  revert m. induction days as [|d days IH]; intros m Hin; simpl; [lia|].
  destruct (perHabit_day L d active m Hin) as [Hs Hm].
  rewrite IH by (intros h Hh; by apply Hm, Hin).
  rewrite Hs. lia.
Qed.

(** The total of [perHabit] is the number of completed pairs of a day
    and an active habit. *)
Lemma sum_values_perHabit_of active L days :
  sum_values (perHabit_of active L days) = completed_pairs active L days.
Proof.
  unfold perHabit_of.
  destruct (perHabit_init active ∅) as (Hz & Hin & _); [by intros k v|].
  rewrite perHabit_days by done. rewrite sum_values_zero by done. lia.
Qed.

Lemma completed_pairs_bounds active L days :
  0 <= completed_pairs active L days <= len active * len days.
Proof.
  induction days as [|d days IH]; simpl; [unfold len; simpl; lia|].
  pose proof (len_filter_bounds
                (λ h, isCompleted L d (habit_id h) = true) active) as Hd.
  unfold len in *. simpl length. lia.
Qed.

End counting.

Section rollup_extras.
Context {zone : Zone}.


Lemma rollupDaily_dates (locale_short : jsdate → string)
    (habits : list habit) (L : log) (startISO endISO : string) :
  dp_dateISO <$> rollupDaily locale_short habits L startISO endISO =
    dateRangeInclusive startISO endISO.
Proof.
  unfold rollupDaily. cbv zeta. rewrite <- list_fmap_compose.
  by rewrite <- (list_fmap_id (dateRangeInclusive _ _)) at 2.
Qed.

(** X8: [rollupDaily] returns one point per key of
    [dateRangeInclusive(startISO, endISO)], in that order; each point has
    [total] equal to the number of active habits and [completed] equal to
    the number of active habits completed on its day, so
    [0 ≤ completed ≤ total]. *)
Theorem rollupDaily_points (locale_short : jsdate → string)
    (habits : list habit) (L : log) (startISO endISO : string) :
  let points := rollupDaily locale_short habits L startISO endISO in
  let active := getActiveHabits habits in
  dp_dateISO <$> points = dateRangeInclusive startISO endISO ∧
  ∀ p, p ∈ points →
    dp_total p = len active ∧
    dp_completed p =
      len (filter (λ h, isCompleted L (dp_dateISO p) (habit_id h) = true) active) ∧
    0 <= dp_completed p <= dp_total p.
Proof.
  intros points active. split; [apply rollupDaily_dates|].
  unfold points, rollupDaily. fold active.
  intros p (iso & -> & _)%list_elem_of_fmap.
  cbn [dp_total dp_completed dp_dateISO].
  rewrite (count_foldl (λ h, isCompleted L iso (habit_id h))). simpl.
  split; [done|]. split; [done|].
  apply (len_filter_bounds (λ h, isCompleted L iso (habit_id h) = true)).
Qed.


(** X10: [getTodaySummary] counts active habits only: [total] is their
    number, [completed] the number of them completed that day, and
    [remaining = total - completed] is never negative; nothing remains
    exactly when every active habit is completed. *)
Theorem getTodaySummary_counts (habits : list habit) (L : log) (dateISO : string) :
  let s := getTodaySummary habits L dateISO in
  let active := getActiveHabits habits in
  ds_total s = len active ∧
  ds_completed s =
    len (filter (λ h, isCompleted L dateISO (habit_id h) = true) active) ∧
  0 <= ds_completed s <= ds_total s ∧
  0 <= ds_remaining s ∧
  ds_completed s + ds_remaining s = ds_total s ∧
  (ds_remaining s = 0 ↔
     ∀ h, h ∈ habits → habit_active h = true →
          isCompleted L dateISO (habit_id h) = true).
Proof.
  intros s active. unfold s, getTodaySummary. fold active.
  cbn [ds_total ds_completed ds_remaining].
  pose proof (len_filter_bounds
                (λ h, isCompleted L dateISO (habit_id h) = true) active) as Hb.
  split; [done|]. split; [done|]. split; [done|]. split; [lia|].
  split; [lia|].
  pose proof (len_filter_all
                (λ h, isCompleted L dateISO (habit_id h) = true) active) as Hall.
  split.
  - intros Hz h Hh Hact. apply (proj1 Hall); [lia|].
    unfold active, getActiveHabits. by apply list_elem_of_filter.
  - intros Hdone. rewrite (proj2 Hall); [lia|].
    intros h [Hact Hh]%list_elem_of_filter. by apply Hdone.
Qed.

(** X11: the day summary and the daily rollup agree: every point of
    [rollupDaily] has the [completed], [total] and [rate] that
    [getTodaySummary] gives for the point's date. *)
Theorem rollupDaily_agrees_with_summary (locale_short : jsdate → string)
    (habits : list habit) (L : log) (startISO endISO : string) (p : dailyPoint) :
  p ∈ rollupDaily locale_short habits L startISO endISO →
  let s := getTodaySummary habits L (dp_dateISO p) in
  dp_completed p = ds_completed s ∧ dp_total p = ds_total s ∧
  dp_rate p = ds_rate s.
Proof.
  unfold rollupDaily. cbv zeta. intros (iso & -> & _)%list_elem_of_fmap.
  unfold getTodaySummary.
  cbn [dp_total dp_completed dp_dateISO dp_rate ds_total ds_completed ds_rate].
  rewrite (count_foldl (λ h, isCompleted L iso (habit_id h))). simpl. done.
Qed.

(** X12: [completionRateForHabit] is 0, not a division by zero, when
    the range has no day: when a key is read as the invalid date, or when
    the start day is after the end day. *)
Theorem completionRateForHabit_empty_range (habitId : string) (L : log)
    (startISO endISO : string) :
  (parseISODate startISO = InvalidDate ∨ parseISODate endISO = InvalidDate ∨
   ∃ a b, parseISODate startISO = Day a ∧ parseISODate endISO = Day b ∧ b < a) →
  completionRateForHabit habitId L startISO endISO = 0.
Proof.
  intros Hempty.
  assert (dateRangeInclusive startISO endISO = []) as Hdays.
  { destruct Hempty as [H|[H|(a & b & Ha & Hb & Hlt)]].
    - apply dateRange_loop_invalid_either. by left.
    - apply dateRange_loop_invalid_either. by right.
    - unfold dateRangeInclusive, setHours0. rewrite Ha, Hb. simpl.
      by replace (Z.to_nat (b - a + 1)) with 0%nat by lia. }
  unfold completionRateForHabit. by rewrite Hdays.
Qed.

(** X13: in every point of [rollupMonthly], [completedTotal] is the
    number of completed pairs of an enumerated day and an active habit;
    it lies between 0 and [totalPossible], which is the number of active
    habits times [daysInMonth]. *)
Theorem rollupMonthly_total_bounds (locale_month : jsdate → string)
    (now : jsdate) (habits : list habit) (L : log) (monthsBack : Z)
    (p : monthlyPoint) :
  p ∈ rollupMonthly locale_month now habits L monthsBack →
  mp_totalPossible p = len (getActiveHabits habits) * mp_daysInMonth p ∧
  0 <= mp_completedTotal p <= mp_totalPossible p ∧
  mp_completedTotal p = sum_values (mp_perHabit p).
Proof.
  rewrite rollupMonthly_eq. intros (k & -> & _)%list_elem_of_fmap.
  rewrite monthPoint_fields. cbv zeta.
  cbn [mp_totalPossible mp_daysInMonth mp_completedTotal mp_perHabit].
  rewrite sum_values_perHabit_of.
  split; [done|]. split; [|done]. apply completed_pairs_bounds.
Qed.

End rollup_extras.

Section rollup_examples.
#[local] Existing Instance UTC.


Lemma rollupDaily_agrees_with_summary_witness :
  let habits := [example_habit "A" true; example_habit "B" true] in
  let L := streak_log "A" 20759 5 in
  ∃ p, p ∈ rollupDaily toISODate habits L "2026-11-01" "2026-11-02" ∧
       dp_dateISO p = "2026-11-01" ∧ dp_completed p = 1 ∧ dp_rate p = 50 ∧
       let s := getTodaySummary habits L (dp_dateISO p) in
       dp_completed p = ds_completed s ∧ dp_total p = ds_total s ∧
       dp_rate p = ds_rate s.
Proof.
  intros habits L.
  assert (∃ p, rollupDaily toISODate habits L "2026-11-01" "2026-11-02" !! 0%nat
               = Some p ∧ dp_dateISO p = "2026-11-01" ∧ dp_completed p = 1 ∧
                 dp_rate p = 50) as (p & Hp & Hd & Hc & Hr).
  { eexists. split; [vm_compute; reflexivity|]. vm_compute. done. }
  exists p. apply list_elem_of_lookup_2 in Hp.
  split; [done|]. split; [done|]. split; [done|]. split; [done|].
  by apply (rollupDaily_agrees_with_summary toISODate habits L
              "2026-11-01" "2026-11-02" p).
Defined.

Lemma completionRateForHabit_empty_range_witness :
  let L := streak_log "A" 20759 5 in
  (parseISODate "2026-11-02" = InvalidDate ∨
   parseISODate "2026-11-01" = InvalidDate ∨
   ∃ a b, parseISODate "2026-11-02" = Day a ∧
          parseISODate "2026-11-01" = Day b ∧ b < a) ∧
  completionRateForHabit "A" L "2026-11-01" "2026-11-02" = 100 ∧
  completionRateForHabit "A" L "2026-11-02" "2026-11-01" = 0.
Proof.
  intros L.
  assert (parseISODate "2026-11-02" = InvalidDate ∨
          parseISODate "2026-11-01" = InvalidDate ∨
          ∃ a b, parseISODate "2026-11-02" = Day a ∧
                 parseISODate "2026-11-01" = Day b ∧ b < a) as H.
  { right. right. exists 20759, 20758.
    split; [vm_compute; reflexivity|]. split; [vm_compute; reflexivity|lia]. }
  split; [exact H|]. split; [vm_compute; reflexivity|].
  apply (completionRateForHabit_empty_range "A" L "2026-11-02" "2026-11-01"), H.
Defined.

Lemma rollupMonthly_total_bounds_witness :
  let habits := [example_habit "A" true; example_habit "B" true] in
  let L := streak_log "A" 20759 5 in
  ∃ p, p ∈ rollupMonthly toISODate (Day 20759) habits L 2 ∧
       mp_monthISO p = "2026-11-01" ∧ mp_completedTotal p = 2 ∧
       mp_totalPossible p = len (getActiveHabits habits) * mp_daysInMonth p ∧
       0 <= mp_completedTotal p <= mp_totalPossible p ∧
       mp_completedTotal p = sum_values (mp_perHabit p).
Proof.
  intros habits L.
  assert (∃ p, rollupMonthly toISODate (Day 20759) habits L 2 !! 1%nat = Some p
               ∧ mp_monthISO p = "2026-11-01" ∧ mp_completedTotal p = 2)
    as (p & Hp & Hm & Hc).
  { eexists. split; [vm_compute; reflexivity|]. vm_compute. done. }
  exists p. apply list_elem_of_lookup_2 in Hp.
  split; [done|]. split; [done|]. split; [done|].
  by apply (rollupMonthly_total_bounds toISODate (Day 20759) habits L 2 p).
Defined.

End rollup_examples.

(** * Numbers that need not be integers *)

Section float_order.

Lemma SFcompare_antisym (f g : spec_float) :
  SFcompare g f = option_map CompOpp (SFcompare f g).
Proof.
  destruct f as [s1|s1| |s1 m1 e1], g as [s2|s2| |s2 m2 e2]; simpl;
    try done; try (by destruct s1, s2); try (by destruct s1);
    try (by destruct s2).
  rewrite (Z.compare_antisym e1 e2).
  change (Pos.compare_cont Eq m2 m1) with (m2 ?= m1)%positive.
  change (Pos.compare_cont Eq m1 m2) with (m1 ?= m2)%positive.
  rewrite (Pos.compare_antisym m1 m2).
  destruct s1, s2; simpl; try done;
    destruct (e1 ?= e2); simpl; try done;
    by destruct (m1 ?= m2)%positive.
Qed.

Lemma SFcompare_refl (f : spec_float) : f = S754_nan ∨ SFcompare f f = Some Eq.
Proof.
  destruct f as [s|s| |s m e]; simpl; [right|right|by left|right];
    try (by destruct s).
  rewrite Z.compare_refl.
  change (Pos.compare_cont Eq m m) with (m ?= m)%positive.
  rewrite Pos.compare_refl. by destruct s.
Qed.

Lemma is_nan_spec (x : float) : PrimFloat.is_nan x = true ↔ Prim2SF x = S754_nan.
Proof.
  unfold PrimFloat.is_nan. rewrite FloatAxioms.eqb_spec. unfold SFeqb. split.
  - intros Hn. destruct (SFcompare_refl (Prim2SF x)) as [E|E]; [done|].
    by rewrite E in Hn.
  - by intros ->.
Qed.

Lemma is_nan_false (x : float) : PrimFloat.is_nan x = false ↔ Prim2SF x ≠ S754_nan.
Proof. rewrite <- is_nan_spec. by destruct (PrimFloat.is_nan x). Qed.

(** Two numbers that are not [NaN] are comparable. *)
Lemma SFcompare_total (f g : spec_float) :
  f ≠ S754_nan → g ≠ S754_nan → ∃ c, SFcompare f g = Some c.
Proof. destruct f, g; simpl; intros; try done; eauto. Qed.

End float_order.

Section target.

Lemma ltb_cmp (a b : float) :
  PrimFloat.ltb a b = match number_compare a b with Some Lt => true | _ => false end.
Proof. by rewrite ltb_spec. Qed.

Lemma leb_cmp (a b : float) :
  PrimFloat.leb a b =
    match number_compare a b with Some Lt | Some Eq => true | _ => false end.
Proof. by rewrite leb_spec. Qed.

Lemma eqb_cmp (a b : float) :
  PrimFloat.eqb a b = match number_compare a b with Some Eq => true | _ => false end.
Proof. by rewrite FloatAxioms.eqb_spec. Qed.

Lemma cmp_antisym (a b : float) : number_compare b a = option_map CompOpp (number_compare a b).
Proof. apply SFcompare_antisym. Qed.

Lemma cmp_total (a b : float) :
  PrimFloat.is_nan a = false → PrimFloat.is_nan b = false →
  ∃ c, number_compare a b = Some c.
Proof. rewrite !is_nan_false. apply SFcompare_total. Qed.

Lemma cmp_Some_not_nan (a b : float) (c : comparison) :
  number_compare a b = Some c → PrimFloat.is_nan a = false ∧ PrimFloat.is_nan b = false.
Proof.
  unfold number_compare. rewrite !is_nan_false.
  destruct (Prim2SF a), (Prim2SF b); simpl; by intros.
Qed.

(** Being equal to 1 as a number is being the double 1. *)
Lemma cmp_1_Eq (x : float) : number_compare x 1 = Some Eq → x = 1%float.
Proof.
  unfold number_compare. change (Prim2SF 1) with (S754_finite false 4503599627370496 (-52)).
  intros Hc. apply Prim2SF_inj.
  change (Prim2SF 1) with (S754_finite false 4503599627370496 (-52)).
  destruct (Prim2SF x) as [s|s| |s m e]; cbn [SFcompare] in Hc;
    try done; try (by destruct s).
  destruct s; [done|].
  destruct (e ?= -52) eqn:He; [|done..]. apply Z.compare_eq in He.
  apply (inj Some) in Hc. apply Pcompare_Eq_eq in Hc. by subst.
Qed.

(** A number that is 0 is below 1, and a number above 7 is above 1. *)
Lemma cmp_0_below_1 (x : float) : number_compare x 0 = Some Eq → number_compare x 1 = Some Lt.
Proof.
  unfold number_compare. change (Prim2SF 0) with (S754_zero false).
  change (Prim2SF 1) with (S754_finite false 4503599627370496 (-52)).
  destruct (Prim2SF x) as [s|s| |s m e]; cbn [SFcompare]; try done;
    try (by destruct s).
Qed.

Lemma cmp_above_7 (x : float) (c : comparison) : number_compare 7 x = Some c → c ≠ Gt → number_compare x 1 = Some Gt.
Proof.
  unfold number_compare. change (Prim2SF 7) with (S754_finite false 7881299347898368 (-50)).
  change (Prim2SF 1) with (S754_finite false 4503599627370496 (-52)).
  destruct (Prim2SF x) as [s|s| |s m e]; cbn [SFcompare]; try done;
    try (by destruct s; intros [= <-]).
  destruct s; [by intros [= <-]|].
  destruct (-50 ?= e) eqn:He.
  - apply Z.compare_eq in He. by subst.
  - intros _ _. assert (-50 < e) as Hlt by (by apply Z.compare_lt_iff).
    by rewrite (proj2 (Z.compare_gt_iff e (-52))) by lia.
  - by intros [= <-].
Qed.

Lemma num_or_cases (t : float) :
  (PrimFloat.is_zero t || PrimFloat.is_nan t = true ∧ num_or t 5 = 5%float) ∨
  (PrimFloat.is_zero t = false ∧ PrimFloat.is_nan t = false ∧ num_or t 5 = t).
Proof.
  unfold num_or. destruct (PrimFloat.is_zero t), (PrimFloat.is_nan t); simpl;
    auto.
Qed.

Lemma clamp_cases (x : float) :
  PrimFloat.is_nan x = false →
  (number_compare x 1 = Some Lt ∧ clamp x 1 7 = 1%float) ∨
  (number_compare 7 x = Some Lt ∧ clamp x 1 7 = 7%float) ∨
  ((number_compare x 1 = Some Gt ∨ number_compare x 1 = Some Eq) ∧
   (number_compare 7 x = Some Gt ∨ number_compare 7 x = Some Eq) ∧ clamp x 1 7 = x).
Proof.
  intros Hx.
  assert (PrimFloat.is_nan 7 = false) as H7 by reflexivity.
  assert (PrimFloat.is_nan 1 = false) as H1 by reflexivity.
  assert (∀ c, number_compare 7 x = Some c → c ≠ Lt →
            Math_min 7 x = x) as Hmin.
  { intros c Hc Hne. unfold Math_min. rewrite H7, Hx. cbn [orb].
    rewrite !ltb_cmp, (cmp_antisym 7 x), Hc.
    destruct c; [|done|]; reflexivity. }
  assert (∀ c, number_compare x 1 = Some c → c ≠ Lt → c ≠ Eq →
            Math_max 1 x = x) as Hmax.
  { intros c Hc Hne Hne'. unfold Math_max. rewrite H1, Hx. cbn [orb].
    rewrite !ltb_cmp, (cmp_antisym x 1), Hc. by destruct c. }
  destruct (cmp_total 7 x H7 Hx) as [c Hc].
  destruct (cmp_total x 1 Hx H1) as [c' Hc'].
  destruct c.
  - (* x is 7 *)
    right. right.
    assert (number_compare x 1 = Some Gt) as Hg by (by apply (cmp_above_7 x Eq)).
    split; [by left|]. split; [by right|].
    unfold clamp. rewrite (Hmin Eq) by done. by apply (Hmax Gt).
  - (* x is above 7 *)
    right. left. split; [done|]. unfold clamp.
    assert (Math_min 7 x = 7%float) as ->.
    { unfold Math_min. rewrite H7, Hx. cbn [orb]. by rewrite ltb_cmp, Hc. }
    reflexivity.
  - (* x is below 7 *)
    unfold clamp. rewrite (Hmin Gt) by done. destruct c'.
    + right. right. split; [by right|]. split; [by left|].
      rewrite (cmp_1_Eq x Hc'). reflexivity.
    + left. split; [done|]. unfold Math_max. rewrite H1, Hx. cbn [orb].
      rewrite !ltb_cmp, (cmp_antisym x 1), Hc'. reflexivity.
    + right. right. split; [by left|]. split; [by left|].
      by apply (Hmax Gt).
Qed.

(** * Further properties: state updates and derived values *)

Lemma isCompleted_toggleCompletion_same (L : log) (dateISO habitId : string) :
  inherited habitId = false →
  isCompleted (toggleCompletion L dateISO habitId) dateISO habitId =
    negb (isCompleted L dateISO habitId).
Proof.
  intros Hown. unfold isCompleted at 1. rewrite toggleCompletion_lookup.
  assert (isCompleted L dateISO habitId =
            truthy (default ∅ (L !! dateISO)) habitId) as ->.
  { unfold isCompleted. destruct (L !! dateISO); simpl; [done|].
    unfold truthy. by rewrite lookup_empty, Hown. }
  unfold flipped.
  destruct (truthy (default ∅ (L !! dateISO)) habitId) eqn:Ht.
  - case_decide; [done|]. unfold truthy. by rewrite lookup_delete_eq, Hown.
  - rewrite decide_False by apply insert_non_empty.
    unfold truthy. by rewrite lookup_insert_eq.
Qed.

(** X14: for a habit id and a date key that are not names of inherited
    properties ([toString], [constructor], ...), [toggleForDate] flips the
    completion of the habit on the date (completed becomes not completed
    and conversely, whatever the log holds) and leaves the habits and the
    settings of the state as they were. *)
Theorem toggleForDate_flips (habitId dateISO : string) (prev : state) :
  inherited habitId = false → inherited dateISO = false →
  let next := toggleForDate habitId dateISO prev in
  isCompleted (st_completions next) dateISO habitId =
    negb (isCompleted (st_completions prev) dateISO habitId) ∧
  st_habits next = st_habits prev ∧
  st_weekStartsOn next = st_weekStartsOn prev.
Proof.
  intros Hid Hdate next. split; [|done].
  by apply isCompleted_toggleCompletion_same.
Qed.

Lemma toggleForDate_flips_witness :
  let prev := {| st_weekStartsOn := 1; st_habits := [example_habit "A" true];
                 st_completions := {["2026-11-02" := {["A" := true]}]} |} in
  inherited "A" = false ∧ inherited "2026-11-01" = false ∧
  isCompleted (st_completions prev) "2026-11-01" "A" = false ∧
  let next := toggleForDate "A" "2026-11-01" prev in
  isCompleted (st_completions next) "2026-11-01" "A" =
    negb (isCompleted (st_completions prev) "2026-11-01" "A") ∧
  st_habits next = st_habits prev ∧
  st_weekStartsOn next = st_weekStartsOn prev.
Proof.
  intros prev. split; [reflexivity|]. split; [reflexivity|].
  split; [reflexivity|].
  apply (toggleForDate_flips "A" "2026-11-01" prev); reflexivity.
Defined.

(** A habit whose id is the name of an inherited property is completed
    on every day that the log holds, before and after a toggle: the read
    finds the inherited property and the toggle deletes nothing. *)
Lemma toggleForDate_inherited_id :
  let prev := {| st_weekStartsOn := 1; st_habits := [];
                 st_completions := {["2026-11-02" := {["A" := true]}]} |} in
  let next := toggleForDate "toString" "2026-11-02" prev in
  isCompleted (st_completions prev) "2026-11-02" "toString" = true ∧
  isCompleted (st_completions next) "2026-11-02" "toString" = true ∧
  st_completions next = st_completions prev.
Proof.
  intros prev next. split; [reflexivity|]. split; [reflexivity|].
  apply map_eq. intros k. unfold next, prev. cbn [toggleForDate st_completions].
  destruct (decide (k = "2026-11-02")) as [->|Hk].
  - rewrite toggleCompletion_lookup. reflexivity.
  - by rewrite toggleCompletion_lookup_ne.
Qed.

Lemma deleteHabit_completions_isCompleted (habitId : string) (L : log)
    (dateISO : string) :
  inherited habitId = false →
  isCompleted (deleteHabit_completions habitId L) dateISO habitId = false.
Proof.
  intros Hown. unfold isCompleted. rewrite deleteHabit_completions_lookup.
  destruct (L !! dateISO) as [d|]; simpl; [|done].
  case_decide; simpl; [done|]. unfold truthy. by rewrite lookup_delete_eq.
Qed.

Lemma deleteHabit_completions_isCompleted_ne (habitId : string) (L : log)
    (dateISO x : string) :
  x ≠ habitId → inherited x = false →
  isCompleted (deleteHabit_completions habitId L) dateISO x =
    isCompleted L dateISO x.
Proof.
  intros Hx Hown. unfold isCompleted. rewrite deleteHabit_completions_lookup.
  destruct (L !! dateISO) as [d|]; simpl; [|done].
  case_decide as E; simpl.
  - rewrite <- (truthy_delete_ne d habitId x) by done.
    rewrite E. unfold truthy. by rewrite lookup_empty.
  - by apply truthy_delete_ne.
Qed.

(** X15: [deleteHabit] removes from the list exactly the habits with
    the given id, keeping the others in order; afterwards the id is a key
    of no day and, when it is not the name of an inherited property, is
    completed on no date; and every other habit whose id is no such name
    is completed on exactly the dates it was.  (The dates read are not
    names of inherited properties either.) *)
Theorem deleteHabit_removes (habitId : string) (prev : state) :
  let next := deleteHabit habitId prev in
  st_habits next = filter (λ h, habit_id h ≠ habitId) (st_habits prev) ∧
  (∀ h, h ∈ st_habits next ↔ h ∈ st_habits prev ∧ habit_id h ≠ habitId) ∧
  (inherited habitId = false →
   ∀ dateISO, inherited dateISO = false →
     isCompleted (st_completions next) dateISO habitId = false) ∧
  (∀ dateISO d, st_completions next !! dateISO = Some d → d !! habitId = None) ∧
  (∀ dateISO x, x ≠ habitId → inherited x = false → inherited dateISO = false →
     isCompleted (st_completions next) dateISO x =
       isCompleted (st_completions prev) dateISO x) ∧
  st_weekStartsOn next = st_weekStartsOn prev.
Proof.
  intros next. split; [done|]. split.
  { intros h. unfold next. simpl. rewrite list_elem_of_filter. tauto. }
  split.
  { intros Hown dateISO _. unfold next. simpl.
    by apply deleteHabit_completions_isCompleted. }
  split.
  { intros dateISO d. apply deleteHabit_completions_no_orphan. }
  split; [|done].
  intros dateISO x Hx Hown _. unfold next. simpl.
  by apply deleteHabit_completions_isCompleted_ne.
Qed.

(** After the deletion of a habit whose id is the name of an inherited
    property the id still reads as completed on every day that is left. *)
Lemma deleteHabit_inherited_id :
  let prev := {| st_weekStartsOn := 1; st_habits := [];
                 st_completions :=
                   {["2026-11-02" := {["toString" := true; "A" := true]}]} |} in
  let next := deleteHabit "toString" prev in
  st_completions next = {["2026-11-02" := {["A" := true]}]} ∧
  isCompleted (st_completions next) "2026-11-02" "toString" = true.
Proof.
  assert (deleteHabit_completions "toString"
            {["2026-11-02" := {["toString" := true; "A" := true]}]} =
          ({["2026-11-02" := {["A" := true]}]} : log)) as E.
  { apply map_eq. intros k. rewrite deleteHabit_completions_lookup.
    destruct (decide (k = "2026-11-02")) as [->|Hk].
    - rewrite !lookup_singleton_eq. simpl.
      rewrite delete_insert_eq, delete_singleton_ne by done.
      by rewrite decide_False by apply insert_non_empty.
    - by rewrite !lookup_singleton_ne. }
  intros prev next. unfold next, prev. cbn [deleteHabit st_completions].
  rewrite E. split; reflexivity.
Qed.

Lemma flip_active_involutive (h : habit) : flip_active (flip_active h) = h.
Proof. destruct h as [? ? ? []]; reflexivity. Qed.

(** X16: the activate/deactivate handler flips [active] on the habits
    with the given id and on no other; it keeps the number, the order and
    the ids of the habits and the whole log; applied twice it gives back
    the state. *)
Theorem onToggleActive_involutive (habitId : string) (prev : state) :
  let next := onToggleActive habitId prev in
  onToggleActive habitId next = prev ∧
  habit_id <$> st_habits next = habit_id <$> st_habits prev ∧
  (∀ i h, st_habits prev !! i = Some h →
     st_habits next !! i =
       Some (if bool_decide (habit_id h = habitId) then flip_active h else h)) ∧
  st_completions next = st_completions prev.
Proof.
  intros next. split; [|split; [|split]].
  - destruct prev as [w hs L]. unfold next, onToggleActive. simpl. f_equal.
    rewrite <- list_fmap_compose. rewrite <- (list_fmap_id hs) at 2.
    apply list_fmap_ext. intros _ h _. simpl.
    destruct (decide (habit_id h = habitId)) as [E|E].
    + rewrite (bool_decide_eq_true_2 (habit_id h = habitId)) by done.
      rewrite bool_decide_eq_true_2 by done. apply flip_active_involutive.
    + rewrite (bool_decide_eq_false_2 (habit_id h = habitId)) by done.
      by rewrite bool_decide_eq_false_2.
  - unfold next. simpl. rewrite <- list_fmap_compose.
    apply list_fmap_ext. intros _ h _. simpl. by case_bool_decide.
  - intros i h Hi. unfold next. simpl. by rewrite list_lookup_fmap, Hi.
  - done.
Qed.

(** X17: the target of a habit, [clamp(h.targetPerWeek || 5, 1, 7)],
    is for every number a number from 1 to 7 and never [NaN]: a target
    from 1 to 7 is kept as it is, whole or not (2.5 stays 2.5); a target
    below 1 other than zero becomes 1, a target above 7 becomes 7, and
    [+0], [-0], [NaN] or a missing target becomes 5. *)
Theorem target_of_range (targetPerWeek : float) :
  let target := target_of targetPerWeek in
  PrimFloat.leb 1 target = true ∧ PrimFloat.leb target 7 = true ∧
  (PrimFloat.leb 1 targetPerWeek = true → PrimFloat.leb targetPerWeek 7 = true →
   target = targetPerWeek) ∧
  (PrimFloat.is_zero targetPerWeek = true ∨ PrimFloat.is_nan targetPerWeek = true →
   target = 5%float) ∧
  (PrimFloat.ltb targetPerWeek 1 = true → PrimFloat.is_zero targetPerWeek = false →
   target = 1%float) ∧
  (PrimFloat.ltb 7 targetPerWeek = true → target = 7%float) ∧
  target_of 2.5 = 2.5%float.
Proof.
  intros target. unfold target, target_of.
  set (t := targetPerWeek).
  rewrite !leb_cmp, !ltb_cmp.
  assert (PrimFloat.is_zero t = true → number_compare t 1 = Some Lt) as Hzero.
  { unfold PrimFloat.is_zero. rewrite eqb_cmp. intros Hz.
    apply cmp_0_below_1. change PrimFloat.zero with 0%float in Hz.
    by destruct (number_compare t 0) as [[]|]. }
  assert (PrimFloat.is_nan t = true → number_compare t 1 = None ∧ number_compare 7 t = None) as Hnan.
  { intros Hn%is_nan_spec. unfold number_compare. rewrite Hn. split; [done|].
    by destruct (Prim2SF 7). }
  destruct (num_or_cases t) as [[Hf ->]|(Hz & Hn & ->)].
  - (* the target is falsy *)
    change (clamp 5 1 7) with 5%float.
    assert (number_compare t 1 = Some Lt ∨ (number_compare t 1 = None ∧ number_compare 7 t = None)) as Hc.
    { apply orb_true_iff in Hf as [Hf|Hf]; auto. }
    split; [reflexivity|]. split; [reflexivity|].
    rewrite (cmp_antisym t 1).
    split; [|split; [done|]; split; [|split; [|reflexivity]]].
    + destruct Hc as [->|[-> _]]; simpl; by intros.
    + intros Hlt Hz. destruct (PrimFloat.is_zero t); [done|].
      simpl in Hf. destruct (Hnan Hf) as [E _]. by rewrite E in Hlt.
    + intros H7. destruct (number_compare 7 t) as [[]|] eqn:E; try done.
      rewrite (cmp_above_7 t Lt) in Hc by done.
      by destruct Hc as [|[]].
  - (* the target is a number other than zero *)
    rewrite (cmp_antisym (clamp t 1 7) 1), (cmp_antisym t 1).
    destruct (clamp_cases t Hn) as [[Hc ->]|[[Hc ->]|(Hc1 & Hc7 & ->)]].
    + split; [reflexivity|]. split; [reflexivity|].
      split; [by rewrite Hc|]. split; [by intros [|]; congruence|].
      split; [done|]. split; [|reflexivity].
      destruct (number_compare 7 t) as [[]|] eqn:E; try done.
      by rewrite (cmp_above_7 t Lt) in Hc.
    + split; [reflexivity|]. split; [reflexivity|].
      rewrite (cmp_above_7 t Lt) by done. simpl.
      split; [|split; [by intros [|]; congruence|]; split; [done|];
                 split; [done|reflexivity]].
      intros _. rewrite (cmp_antisym 7 t), Hc. by intros.
    + split; [by destruct Hc1 as [-> | ->]|].
      split; [rewrite (cmp_antisym 7 t); by destruct Hc7 as [-> | ->]|].
      split; [done|]. split; [by intros [|]; congruence|].
      split; [by destruct Hc1 as [-> | ->]|]. split; [|reflexivity].
      by destruct Hc7 as [-> | ->].
Qed.
End target.

Lemma bestDay_snoc (l : list dailyPoint) (x : dailyPoint) :
  bestDay (l ++ [x]) =
    match l with
    | [] => Some x
    | _ => if best_rate (bestDay l) <? dp_rate x then Some x else bestDay l
    end.
Proof.
  unfold bestDay. rewrite foldl_snoc. destruct l as [|y l]; simpl.
  - by rewrite Z.ltb_irrefl.
  - done.
Qed.

(** X18: [bestDay] is the first day with the highest rate: no day of
    the series has a higher rate and every earlier day has a lower one;
    for an empty series it is the object [{ rate: 0 }]. *)
Theorem bestDay_first_maximum (daily : list dailyPoint) :
  match bestDay daily with
  | None => daily = []
  | Some p =>
      ∃ i : nat, daily !! i = Some p ∧
        (∀ q, q ∈ daily → dp_rate q <= dp_rate p) ∧
        (∀ (j : nat) q, (j < i)%nat → daily !! j = Some q →
                        dp_rate q < dp_rate p)
  end.
Proof.
  induction daily as [|x l IH] using rev_ind; [done|].
  rewrite bestDay_snoc. destruct l as [|y l'] eqn:El.
  - exists 0%nat. split; [done|]. split.
    + intros q Hq%list_elem_of_singleton. subst. lia.
    + intros j q Hj. lia.
  - rewrite <- El in *. destruct (bestDay l) as [p|] eqn:Hb; [|by subst].
    destruct IH as (i & Hi & Hmax & Hfirst). simpl.
    destruct (dp_rate p <? dp_rate x) eqn:Hlt.
    + apply Z.ltb_lt in Hlt. exists (length l). split; [|split].
      * by rewrite lookup_app_r, Nat.sub_diag by lia.
      * intros q [Hq|Hq%list_elem_of_singleton]%elem_of_app; [|subst; lia].
        specialize (Hmax q Hq). lia.
      * intros j q Hj Hq. rewrite lookup_app_l in Hq by done.
        apply list_elem_of_lookup_2 in Hq. specialize (Hmax q Hq). lia.
    + apply Z.ltb_ge in Hlt. exists i.
      pose proof (lookup_lt_Some _ _ _ Hi) as Hil. split; [|split].
      * by rewrite lookup_app_l.
      * intros q [Hq|Hq%list_elem_of_singleton]%elem_of_app;
          [by apply Hmax|subst; lia].
      * intros j q Hj Hq. rewrite lookup_app_l in Hq by lia. by eapply Hfirst.
Qed.

(** X19: for a selected day of year 100 or later, the seven keys of
    the weekly goal are those of the seven consecutive days from the first
    day of the week that contains the selected day; the selected key is
    one of them, and the count of completed days is from 0 to 7. *)
Theorem weekDays_of_selected_day (n weekStartsOn : Z) (L : log) (habitId : string) :
  weekStartsOn = 0 ∨ weekStartsOn = 1 →
  100 <= YearFromDay n → n + 6 <= 100000000 →
  let s := week_start n weekStartsOn in
  let keys := weekDays (toISODate (Day n)) weekStartsOn in
  keys = (λ d, toISODate (Day d)) <$> seqZ s 7 ∧
  WeekDay s = weekStartsOn ∧
  toISODate (Day n) ∈ keys ∧
  0 <= doneWeek L (toISODate (Day n)) weekStartsOn habitId <= 7.
Proof.
  intros Hw Hy Hn s keys. pose proof (year_100_lower _ Hy) as Hlow.
  destruct (week_start_spec n weekStartsOn Hw) as [Hwd Hin]. fold s in Hwd, Hin.
  assert (keys = (λ d, toISODate (Day d)) <$> seqZ s 7) as Hkeys.
  { unfold keys, weekDays. rewrite parseISODate_toISODate by lia.
    rewrite startOfWeek_Day by done. fold s. rewrite TimeClip_valid by lia.
    unfold seqZ. change (Z.to_nat 7) with 7%nat.
    rewrite <- !list_fmap_compose.
    apply list_fmap_ext. intros j i Hi%lookup_seq. unfold compose.
    rewrite addDays_valid by lia. do 2 f_equal. lia. }
  split; [done|]. split; [done|]. split.
  - rewrite Hkeys. apply list_elem_of_fmap. exists n. split; [done|].
    apply elem_of_seqZ. lia.
  - unfold doneWeek. fold keys.
    rewrite (count_foldl (λ dISO, isCompleted L dISO habitId)).
    pose proof (len_filter_bounds
                  (λ dISO, isCompleted L dISO habitId = true) keys) as Hb.
    assert (len keys = 7) as Hlen.
    { rewrite Hkeys. unfold len. by rewrite length_fmap, length_seqZ. }
    lia.
Qed.

Lemma weekDays_of_selected_day_witness :
  let L := streak_log "A" 20761 2 in
  (1 = 0 ∨ 1 = 1) ∧ 100 <= YearFromDay 20761 ∧ 20761 + 6 <= 100000000 ∧
  weekDays "2026-11-04" 1 =
    ["2026-11-02"; "2026-11-03"; "2026-11-04"; "2026-11-05"; "2026-11-06";
     "2026-11-07"; "2026-11-08"] ∧
  doneWeek L "2026-11-04" 1 "A" = 2 ∧
  let s := week_start 20761 1 in
  let keys := weekDays (toISODate (Day 20761)) 1 in
  keys = (λ d, toISODate (Day d)) <$> seqZ s 7 ∧
  WeekDay s = 1 ∧
  toISODate (Day 20761) ∈ keys ∧
  0 <= doneWeek L (toISODate (Day 20761)) 1 "A" <= 7.
Proof.
  intros L. split; [by right|]. split; [vm_compute; discriminate|].
  split; [lia|]. split; [vm_compute; reflexivity|].
  split; [vm_compute; reflexivity|].
  apply (weekDays_of_selected_day 20761 1 L "A");
    [by right|vm_compute; discriminate|lia].
Defined.

Section weekly_bounds.
Context {zone : Zone}.

(** In every time zone a week is computed over at most seven keys. *)
Lemma week_days_length (s i : Z) :
  100 <= YearFromDay (s - 7 * i) → s - 7 * i + 6 <= 100000000 →
  Z.abs s <= 100000000 →
  0 <= len (week_days (Day s) i) <= 7.
Proof.
  intros Hy Hup Hs. pose proof (year_100_lower _ Hy) as Hlow.
  unfold week_days. rewrite (addDays_valid s) by lia.
  rewrite addDays_valid by lia.
  unfold dateRangeInclusive, setHours0.
  rewrite !parseISODate_toISODate by (try apply year_100_upper; lia).
  unfold dateRange_loop, len.
  pose proof (dateRange_from_length
                (dateRange_fuel (Day (s + -7 * i)) (Day (s + -7 * i + 6)))
                (Day (s + -7 * i)) (midnight (Day (s + -7 * i)))
                (Day (s + -7 * i + 6))) as Hlen.
  cbn [dateRange_fuel] in Hlen |- *. lia.
Qed.

(** X20: under the conditions in which the weeks of [rollupWeekly] lie
    in year 100 or later and inside the range of dates, every weekly
    point counts the completed pairs of a day of its week and an active
    habit, so [0 ≤ completedTotal ≤ totalPossible]. *)
Theorem rollupWeekly_total_bounds (locale_short : jsdate → string) (n : Z)
    (habits : list habit) (L : log) (weeksBack weekStartsOn : Z)
    (p : weeklyPoint) :
  1 <= weeksBack → weekStartsOn = 0 ∨ weekStartsOn = 1 →
  100 <= YearFromDay (week_start n weekStartsOn - 7 * (weeksBack - 1)) →
  week_start n weekStartsOn + 6 <= 100000000 →
  p ∈ rollupWeekly locale_short (Day n) habits L weeksBack weekStartsOn →
  0 <= wp_completedTotal p <= wp_totalPossible p ∧
  wp_completedTotal p = sum_values (wp_perHabit p).
Proof.
  intros Hwb Hw Hy Hup.
  set (s := week_start n weekStartsOn) in *.
  pose proof (year_100_lower _ Hy) as Hlow.
  rewrite rollupWeekly_eq. intros (k & -> & Hk%elem_of_seq)%list_elem_of_fmap.
  rewrite weekPoint_fields. cbv zeta.
  cbn [wp_completedTotal wp_totalPossible wp_perHabit].
  split; [|done]. rewrite sum_values_perHabit_of.
  rewrite startOfWeek_Day by done. fold s. rewrite TimeClip_valid by lia.
  pose proof (week_days_length s (weeksBack - 1 - Z.of_nat k)) as Hlen.
  pose proof (completed_pairs_bounds (getActiveHabits habits) L
                (week_days (Day s) (weeksBack - 1 - Z.of_nat k))) as Hb.
  assert (0 <= len (getActiveHabits habits)) as Hact by (unfold len; lia).
  assert (0 <= len (week_days (Day s) (weeksBack - 1 - Z.of_nat k)) <= 7)
    as Hdays by (apply Hlen; [apply year_100_upper; lia|lia|lia]).
  nia.
Qed.

End weekly_bounds.

Section weekly_bounds_examples.
#[local] Existing Instance UTC.

Lemma rollupWeekly_total_bounds_witness :
  let habits := [example_habit "A" true; example_habit "B" true] in
  let L := streak_log "A" 20761 5 in
  1 <= 12 ∧ (1 = 0 ∨ 1 = 1) ∧
  100 <= YearFromDay (week_start 20761 1 - 7 * (12 - 1)) ∧
  week_start 20761 1 + 6 <= 100000000 ∧
  ∃ p, p ∈ rollupWeekly toISODate (Day 20761) habits L 12 1 ∧
       wp_weekStartISO p = "2026-11-02" ∧ wp_completedTotal p = 3 ∧
       wp_totalPossible p = 14 ∧
       0 <= wp_completedTotal p <= wp_totalPossible p ∧
       wp_completedTotal p = sum_values (wp_perHabit p).
Proof.
  intros habits L. split; [lia|]. split; [by right|].
  split; [vm_compute; discriminate|]. split; [vm_compute; discriminate|].
  assert (∃ p, rollupWeekly toISODate (Day 20761) habits L 12 1 !! 11%nat = Some p
               ∧ wp_weekStartISO p = "2026-11-02" ∧ wp_completedTotal p = 3
               ∧ wp_totalPossible p = 14) as (p & Hp & Hs & Hc & Ht).
  { eexists. split; [apply rollupWeekly_lookup; lia|]. vm_compute. done. }
  exists p. apply list_elem_of_lookup_2 in Hp.
  split; [done|]. split; [done|]. split; [done|]. split; [done|].
  apply (rollupWeekly_total_bounds toISODate 20761 habits L 12 1 p);
    [lia|by right|vm_compute; discriminate|vm_compute; discriminate|done].
Defined.

End weekly_bounds_examples.

(** * The format and the order of date keys *)

Lemma digits_loop_lt10 fuel n acc :
  n < 10 → digits_loop (S fuel) n acc = String (digit (n `mod` 10)) acc.
Proof.
  intros Hn. cbn [digits_loop]. cbv zeta.
  by rewrite (proj2 (Z.ltb_lt n 10)).
Qed.

Lemma digits_loop_ge10 fuel n acc :
  10 <= n →
  digits_loop (S fuel) n acc =
    digits_loop fuel (n / 10) (String (digit (n `mod` 10)) acc).
Proof.
  intros Hn. cbn [digits_loop]. cbv zeta.
  by rewrite (proj2 (Z.ltb_ge n 10)).
Qed.

(** The loop of [digits] needs no more iterations than the number has
    binary digits. *)
Lemma digits_loop_enough fuel1 fuel2 n acc :
  0 <= n < 2 ^ Z.of_nat (S fuel1) → n < 2 ^ Z.of_nat (S fuel2) →
  digits_loop (S fuel1) n acc = digits_loop (S fuel2) n acc.
Proof.
  revert fuel2 n acc. induction fuel1 as [|fuel1 IH]; intros fuel2 n acc H1 H2.
  - change (2 ^ Z.of_nat 1) with 2 in H1.
    by rewrite !digits_loop_lt10 by lia.
  - destruct (Z.lt_ge_cases n 10) as [Hlt|Hge].
    { by rewrite !digits_loop_lt10 by lia. }
    destruct fuel2 as [|fuel2].
    { change (2 ^ Z.of_nat 1) with 2 in H2. lia. }
    rewrite !(digits_loop_ge10 (S _)) by done.
    rewrite Nat2Z.inj_succ, Z.pow_succ_r in H1, H2 by lia.
    apply IH; Z.div_mod_to_equations; lia.
Qed.

Lemma digits_fuel (fuel : nat) n :
  0 <= n < 2 ^ Z.of_nat (S fuel) →
  digits n = digits_loop (S fuel) n "".
Proof.
  intros Hn. unfold digits. apply digits_loop_enough; [|lia].
  destruct (decide (n = 0)) as [->|Hne]; [done|].
  rewrite Nat2Z.inj_succ, Z2Nat.id by apply Z.log2_nonneg.
  pose proof (Z.log2_spec n). lia.
Qed.

Lemma digits_2 n :
  10 <= n <= 99 →
  digits n = String (digit (n / 10)) (String (digit (n `mod` 10)) "").
Proof.
  intros Hn. rewrite (digits_fuel 6) by (change (2 ^ Z.of_nat 7) with 128; lia).
  rewrite digits_loop_ge10 by lia.
  rewrite digits_loop_lt10 by (Z.div_mod_to_equations; lia).
  by rewrite (Z.mod_small (n / 10)) by (Z.div_mod_to_equations; lia).
Qed.

Lemma digits_1 n : 0 <= n <= 9 → digits n = String (digit n) "".
Proof.
  intros Hn. rewrite (digits_fuel 3) by (change (2 ^ Z.of_nat 4) with 16; lia).
  rewrite digits_loop_lt10 by lia. by rewrite Z.mod_small by lia.
Qed.

Lemma digits_4 n :
  1000 <= n <= 9999 →
  digits n =
    String (digit (n / 1000))
      (String (digit ((n / 100) `mod` 10))
         (String (digit ((n / 10) `mod` 10)) (String (digit (n `mod` 10)) ""))).
Proof.
  intros Hn.
  rewrite (digits_fuel 13) by (change (2 ^ Z.of_nat 14) with 16384; lia).
  rewrite digits_loop_ge10 by lia.
  rewrite digits_loop_ge10 by (Z.div_mod_to_equations; lia).
  rewrite digits_loop_ge10 by (Z.div_mod_to_equations; lia).
  rewrite digits_loop_lt10 by (Z.div_mod_to_equations; lia).
  rewrite !Z.div_div by lia.
  change (10 * 10) with 100. change (10 * 100) with 1000.
  by rewrite (Z.mod_small (n / 1000)) by (Z.div_mod_to_equations; lia).
Qed.

(** [pad2] of a number of at most two digits has exactly two. *)
Lemma pad2_chars n :
  0 <= n <= 99 →
  pad2 (Num n) = String (digit (n / 10)) (String (digit (n `mod` 10)) "").
Proof.
  intros Hn. unfold pad2, String_of.
  rewrite (proj2 (Z.ltb_ge n 0)) by lia.
  destruct (Z.lt_ge_cases n 10) as [Hlt|Hge].
  - rewrite digits_1 by lia. unfold padStart. cbn [String.length].
    rewrite Z.div_small, Z.mod_small by lia. done.
  - rewrite digits_2 by lia. done.
Qed.

Lemma toISODate_chars n :
  1000 <= YearFromDay n <= 9999 →
  let y := YearFromDay n in
  let m := MonthFromDay n + 1 in
  let d := DateFromDay n in
  toISODate (Day n) =
    String (digit (y / 1000))
      (String (digit ((y / 100) `mod` 10))
         (String (digit ((y / 10) `mod` 10))
            (String (digit (y `mod` 10))
               (String "-"
                  (String (digit (m / 10))
                     (String (digit (m `mod` 10))
                        (String "-"
                           (String (digit (d / 10))
                              (String (digit (d `mod` 10)) ""))))))))).
Proof.
  intros Hy y m d. rewrite toISODate_Day by lia.
  pose proof (MonthFromDay_range n). pose proof (DateFromDay_range n) as Hd.
  pose proof (DaysInMonth_range (YearFromDay n) (MonthFromDay n)).
  rewrite digits_4, !pad2_chars by lia.
  by rewrite !str_app_cons, !str_app_nil_l.
Qed.

(** Strings are compared by code units, and the code units of the
    digits are in the order of the digits. *)
Lemma compare_digit a b s t :
  0 <= a <= 9 → 0 <= b <= 9 →
  String.compare (String (digit a) s) (String (digit b) t) =
    match a ?= b with Eq => String.compare s t | r => r end.
Proof.
  intros Ha Hb. cbn [String.compare]. unfold Ascii.compare, digit.
  rewrite !N_ascii_embedding by lia.
  rewrite Z2N.inj_compare by lia. by rewrite Z.add_compare_mono_l.
Qed.

Lemma compare_same c s t :
  String.compare (String c s) (String c t) = String.compare s t.
Proof.
  cbn [String.compare]. unfold Ascii.compare. by rewrite N.compare_refl.
Qed.

Lemma compare_tens x y (K : comparison) :
  match x / 10 ?= y / 10 with
  | Eq => match x `mod` 10 ?= y `mod` 10 with Eq => K | r => r end
  | r => r
  end = match x ?= y with Eq => K | r => r end.
Proof.
  destruct (Z.compare_spec (x / 10) (y / 10)),
    (Z.compare_spec (x `mod` 10) (y `mod` 10)), (Z.compare_spec x y);
    try done; Z.div_mod_to_equations; lia.
Qed.

Lemma compare_thousands x y (K : comparison) :
  match x / 1000 ?= y / 1000 with
  | Eq =>
      match (x / 100) `mod` 10 ?= (y / 100) `mod` 10 with
      | Eq =>
          match (x / 10) `mod` 10 ?= (y / 10) `mod` 10 with
          | Eq => match x `mod` 10 ?= y `mod` 10 with Eq => K | r => r end
          | r => r
          end
      | r => r
      end
  | r => r
  end = match x ?= y with Eq => K | r => r end.
Proof.
  rewrite <- (compare_tens x y), <- (compare_tens (x / 10) (y / 10)).
  rewrite <- (compare_tens (x / 10 / 10) (y / 10 / 10)).
  rewrite !Z.div_div by lia. done.
Qed.

Lemma MonthFromDay_mono_in_year a b :
  YearFromDay a = YearFromDay b → a <= b → MonthFromDay a <= MonthFromDay b.
Proof.
  intros Hy Hab. unfold MonthFromDay, DayWithinYear. cbv zeta. rewrite Hy.
  repeat case_match; rewrite ?Z.ltb_lt, ?Z.ltb_ge in *; lia.
Qed.

(** Days are ordered as their years, months and days of the month are,
    in that order. *)
Lemma fields_compare a b :
  match YearFromDay a ?= YearFromDay b with
  | Eq =>
      match MonthFromDay a + 1 ?= MonthFromDay b + 1 with
      | Eq => DateFromDay a ?= DateFromDay b
      | r => r
      end
  | r => r
  end = (a ?= b).
Proof.
  destruct (Z.compare_spec (YearFromDay a) (YearFromDay b)) as [Hy|Hy|Hy].
  - destruct (Z.compare_spec (MonthFromDay a + 1) (MonthFromDay b + 1))
      as [Hm|Hm|Hm].
    + assert (MonthFromDay a = MonthFromDay b) as Hm' by lia.
      pose proof (DateFromDay_eq a) as Ha. pose proof (DateFromDay_eq b) as Hb.
      rewrite Hy, Hm' in Ha.
      destruct (Z.compare_spec (DateFromDay a) (DateFromDay b)),
        (Z.compare_spec a b); try done; lia.
    + symmetry. apply Z.compare_lt_iff.
      destruct (Z.lt_ge_cases a b) as [|Hge]; [done|].
      pose proof (MonthFromDay_mono_in_year b a (eq_sym Hy) Hge). lia.
    + symmetry. apply Z.compare_gt_iff.
      destruct (Z.lt_ge_cases b a) as [|Hge]; [done|].
      pose proof (MonthFromDay_mono_in_year a b Hy Hge). lia.
  - symmetry. apply Z.compare_lt_iff.
    destruct (Z.lt_ge_cases a b) as [|Hge]; [done|].
    pose proof (YearFromDay_mono b a Hge). lia.
  - symmetry. apply Z.compare_gt_iff.
    destruct (Z.lt_ge_cases b a) as [|Hge]; [done|].
    pose proof (YearFromDay_mono a b Hge). lia.
Qed.

Lemma toISODate_compare a b :
  1000 <= YearFromDay a <= 9999 → 1000 <= YearFromDay b <= 9999 →
  String.compare (toISODate (Day a)) (toISODate (Day b)) = (a ?= b).
Proof.
  intros Ha Hb. rewrite !toISODate_chars by done. cbv zeta.
  pose proof (MonthFromDay_range a). pose proof (MonthFromDay_range b).
  pose proof (DateFromDay_range a). pose proof (DateFromDay_range b).
  pose proof (DaysInMonth_range (YearFromDay a) (MonthFromDay a)).
  pose proof (DaysInMonth_range (YearFromDay b) (MonthFromDay b)).
  rewrite !compare_digit by (Z.div_mod_to_equations; lia).
  rewrite compare_same.
  rewrite !compare_digit by (Z.div_mod_to_equations; lia).
  rewrite compare_same.
  rewrite !compare_digit by (Z.div_mod_to_equations; lia).
  cbn [String.compare].
  rewrite compare_thousands, !compare_tens.
  rewrite <- (fields_compare a b).
  by destruct (DateFromDay a ?= DateFromDay b).
Qed.

Lemma toISODate_shape n :
  1000 <= YearFromDay n <= 9999 →
  date_key_shape (toISODate (Day n)) = true ∧
  String.length (toISODate (Day n)) = 10%nat.
Proof.
  intros Hy. split; [|by rewrite toISODate_chars by done].
  pose proof (MonthFromDay_range n). pose proof (DateFromDay_range n).
  pose proof (DaysInMonth_range (YearFromDay n) (MonthFromDay n)).
  rewrite toISODate_Day by lia. unfold date_key_shape.
  destruct (digits_spec (YearFromDay n)) as [Hdy _]; [lia|].
  destruct (pad2_spec (MonthFromDay n + 1)) as [Hdm _]; [lia|].
  destruct (pad2_spec (DateFromDay n)) as [Hdd _]; [lia|].
  rewrite split_digits_dash, split_digits_dash, split_digits by done.
  rewrite Hdy, Hdm, Hdd.
  by rewrite digits_4, !pad2_chars by lia.
Qed.

(** X21: for days of the years 1000 to 9999 the keys [toISODate]
    writes have the shape YYYY-MM-DD, ten characters long, and their
    order as strings, which is the order [sort()] puts them in, is the
    order of the days: comparing two keys by code units gives what
    comparing the days gives.  So distinct days have distinct keys, and a
    key is at most another exactly when its day is not later. *)
Theorem toISODate_keys_ordered (a b : Z) :
  1000 <= YearFromDay a <= 9999 → 1000 <= YearFromDay b <= 9999 →
  date_key_shape (toISODate (Day a)) = true ∧
  String.length (toISODate (Day a)) = 10%nat ∧
  String.compare (toISODate (Day a)) (toISODate (Day b)) = (a ?= b) ∧
  (String.le (toISODate (Day a)) (toISODate (Day b)) ↔ a <= b) ∧
  (toISODate (Day a) = toISODate (Day b) → a = b).
Proof.
  intros Ha Hb. pose proof (toISODate_compare a b Ha Hb) as Hcmp.
  destruct (toISODate_shape a Ha) as [Hshape Hlen].
  split; [done|]. split; [done|]. split; [done|]. split.
  - unfold String.le, String.leb. rewrite Hcmp.
    destruct (Z.compare_spec a b); simpl; split; (done || lia).
  - intros Heq. rewrite Heq in Hcmp.
    apply Z.compare_eq. rewrite <- Hcmp.
    pose proof (String.compare_antisym (toISODate (Day b)) (toISODate (Day b))).
    by destruct (String.compare (toISODate (Day b)) (toISODate (Day b))).
Qed.

Lemma toISODate_keys_ordered_witness :
  1000 <= YearFromDay 20759 <= 9999 ∧ 1000 <= YearFromDay 20788 <= 9999 ∧
  toISODate (Day 20759) = "2026-11-02" ∧
  toISODate (Day 20788) = "2026-12-01" ∧
  date_key_shape (toISODate (Day 20759)) = true ∧
  String.length (toISODate (Day 20759)) = 10%nat ∧
  String.compare (toISODate (Day 20759)) (toISODate (Day 20788)) =
    (20759 ?= 20788) ∧
  (String.le (toISODate (Day 20759)) (toISODate (Day 20788)) ↔
   20759 <= 20788) ∧
  (toISODate (Day 20759) = toISODate (Day 20788) → 20759 = 20788).
Proof.
  split; [vm_compute; split; discriminate|].
  split; [vm_compute; split; discriminate|].
  split; [vm_compute; reflexivity|]. split; [vm_compute; reflexivity|].
  apply (toISODate_keys_ordered 20759 20788); vm_compute; split; discriminate.
Defined.

(** * Rates *)

Lemma rates_nearest_310 : rates_nearest 310 = true.
Proof. vm_compute. reflexivity. Qed.

Lemma rates_nearest_spec (B a b : Z) :
  rates_nearest B = true → 0 <= a <= b → 1 <= b <= B →
  rate_nearest a b = true.
Proof.
  unfold rates_nearest. intros Hall Ha Hb.
  rewrite forallb_forall in Hall.
  specialize (Hall b). rewrite forallb_forall in Hall.
  apply Hall; apply list_elem_of_In, elem_of_seqZ; lia.
Qed.

(** X22: for a total [b] of at most 310 (ten habits over a month of 31
    days) and a count [a] of at most [b], the rate
    [b ? Math.round((a / b) * 100) : 0], computed in double precision, is
    an integer from 0 to 100 and a nearest integer to [100 * a / b]; so it
    is 0 for [a = 0] and 100 for [a = b > 0]. *)
Theorem rate_of_nearest (a b : Z) :
  0 <= a <= b → b <= 310 →
  0 <= rate_of a b <= 100 ∧
  Z.abs (rate_of a b * b - 100 * a) * 2 <= b ∧
  (a = 0 → rate_of a b = 0) ∧
  (a = b → 0 < b → rate_of a b = 100).
Proof.
  intros Ha Hb. destruct (decide (b = 0)) as [->|Hne].
  { assert (a = 0) as -> by lia. vm_compute. repeat split; (discriminate || lia). }
  pose proof (rates_nearest_spec 310 a b rates_nearest_310 Ha) as Hn.
  unfold rate_nearest in Hn. cbv zeta in Hn.
  rewrite !andb_true_iff, !Z.leb_le in Hn by lia.
  destruct Hn as [[H0 H100] Hnear]; [lia|].
  split; [done|]. split; [done|]. split.
  - intros ->. nia.
  - intros -> Hpos. nia.
Qed.

(** A tie is not always rounded up: 69 of 120 is 57.5 per cent, and the
    rate is 57, since the quotient is rounded before it is multiplied
    by 100. *)
Lemma rate_of_nearest_witness :
  0 <= 69 <= 120 ∧ 120 <= 310 ∧ rate_of 69 120 = 57 ∧
  0 <= rate_of 69 120 <= 100 ∧
  Z.abs (rate_of 69 120 * 120 - 100 * 69) * 2 <= 120 ∧
  (69 = 0 → rate_of 69 120 = 0) ∧
  (69 = 120 → 0 < 120 → rate_of 69 120 = 100).
Proof.
  split; [lia|]. split; [lia|]. split; [vm_compute; reflexivity|].
  apply (rate_of_nearest 69 120); lia.
Defined.

(** * Streaks *)

(** X23: for a clock whose last [n + 1] days are in year 100 or later,
    [computeStreak] returns [n < 3650] when the habit is completed on each
    of the [n] days that end today and not on the day before them; in
    particular it returns 0 when the habit is not completed today,
    whatever the earlier days hold. *)
Theorem computeStreak_counts (today n : Z) (habitId : string) (L : log) :
  0 <= n < 3650 → 100 <= YearFromDay (today - n) → today <= 100000000 →
  (∀ j, 0 <= j < n →
        isCompleted L (toISODate (Day (today - j))) habitId = true) →
  isCompleted L (toISODate (Day (today - n))) habitId = false →
  computeStreak (Day today) habitId L = n.
Proof.
  intros Hn Hy Ht Hall Hstop. unfold computeStreak.
  assert (∀ j, 0 <= j <= n →
               streak_key (Day today) j = toISODate (Day (today - j))) as Hkey.
  { intros j Hj. apply streak_key_Day; [|lia|done].
    pose proof (YearFromDay_mono (today - n) (today - j)). lia. }
  rewrite (streak_loop_stop (Day today) habitId L 3650 0 0 n); [lia|lia|lia|lia| |].
  - intros j Hj. rewrite Hkey by lia. apply Hall. lia.
  - rewrite Hkey by lia. done.
Qed.

Lemma computeStreak_counts_witness :
  let L := streak_log "A" 20759 5 in
  0 <= 5 < 3650 ∧ 100 <= YearFromDay (20759 - 5) ∧ 20759 <= 100000000 ∧
  isCompleted L "2026-11-02" "A" = true ∧
  isCompleted L "2026-10-28" "A" = false ∧
  computeStreak (Day 20759) "A" L = 5.
Proof.
  intros L.
  split; [lia|]. split; [vm_compute; discriminate|]. split; [lia|].
  split; [vm_compute; reflexivity|]. split; [vm_compute; reflexivity|].
  apply (computeStreak_counts 20759 5 "A" L);
    [lia|vm_compute; discriminate|lia| |vm_compute; reflexivity].
  intros j Hj.
  assert (j = 0 ∨ j = 1 ∨ j = 2 ∨ j = 3 ∨ j = 4) as Hcases by lia.
  destruct Hcases as [->|[->|[->|[->| ->]]]]; vm_compute; reflexivity.
Defined.

(** The loop of [computeBestStreak] over any list of keys: the current
    run is at most the best, and the best at most the number of keys of
    the list on which the habit is completed, and at least 1 if there is
    one. *)
Lemma bestStreak_loop_bounds (habitId : string) (L : log) (dates : list string)
    (best cur k : Z) (prev : option string) :
  0 <= cur <= best → best <= k → (1 <= k → 1 <= best) →
  let r := foldl (bestStreak_step habitId L) (best, cur, prev) dates in
  let n := len (filter (λ iso, isCompleted L iso habitId = true) dates) in
  0 <= r.1.2 <= r.1.1 ∧ r.1.1 <= k + n ∧ (1 <= k + n → 1 <= r.1.1).
Proof.
  revert best cur k prev.
  induction dates as [|iso dates IH]; intros best cur k prev Hc Hb Hk; cbv zeta.
  { rewrite filter_nil. unfold len. cbn [foldl fst snd length]. lia. }
  cbn [foldl]. rewrite filter_cons.
  destruct (isCompleted L iso habitId) eqn:E.
  - pose (cur' :=
      if no_prev prev then 1
      else if bool_decide
                (iso = toISODate (addDays (parseISODate (default EmptyString prev)) 1))
           then cur + 1 else 1).
    assert (bestStreak_step habitId L (best, cur, prev) iso =
            (Z.max best cur', cur', Some iso)) as ->.
    { unfold bestStreak_step. rewrite E. reflexivity. }
    assert (1 <= cur' <= cur + 1) as Hcur.
    { unfold cur'. repeat case_match; lia. }
    case_decide; [|done].
    specialize (IH (Z.max best cur') cur' (k + 1) (Some iso)).
    cbv zeta in IH. unfold len in *. cbn [length].
    destruct IH as (IH1 & IH2 & IH3); lia.
  - assert (bestStreak_step habitId L (best, cur, prev) iso = (best, cur, prev))
      as ->.
    { unfold bestStreak_step. rewrite E. reflexivity. }
    case_decide; [done|].
    specialize (IH best cur k prev Hc Hb Hk). apply IH.
Qed.

(** X24: [computeBestStreak] is at least 0 and at most the number of
    date keys of the log on which the habit is completed; it is 0 exactly
    when the habit is completed on none of the date keys of the log, and
    at least 1 otherwise. *)
Theorem computeBestStreak_bounds (habitId : string) (L : log) :
  let completed :=
    filter (λ iso, isCompleted L iso habitId = true) (Object_keys L) in
  0 <= computeBestStreak habitId L <= len completed ∧
  (computeBestStreak habitId L = 0 ↔
   ∀ iso, iso ∈ Object_keys L → isCompleted L iso habitId = false) ∧
  (∀ iso, iso ∈ Object_keys L → isCompleted L iso habitId = true →
          1 <= computeBestStreak habitId L).
Proof.
  intros completed. unfold computeBestStreak. cbv zeta.
  pose proof (bestStreak_loop_bounds habitId L (sorted_keys L) 0 0 0 None)
    as Hloop.
  cbv zeta in Hloop. destruct Hloop as (H1 & H2 & H3); [lia..|].
  set (r := foldl (bestStreak_step habitId L) (0, 0, None) (sorted_keys L))
    in *.
  assert (len (filter (λ iso, isCompleted L iso habitId = true) (sorted_keys L))
          = len completed) as Hlen.
  { unfold len, completed, sorted_keys. f_equal.
    apply Permutation_length. f_equiv. apply merge_sort_Permutation. }
  rewrite Hlen in H2, H3.
  assert (∀ iso, iso ∈ Object_keys L → isCompleted L iso habitId = true →
                 1 <= len completed) as Hone.
  { intros iso Hkey Hiso.
    assert (iso ∈ completed) as Hin by (by apply list_elem_of_filter).
    unfold len. destruct completed; [by apply elem_of_nil in Hin|].
    cbn [length]. lia. }
  split; [lia|]. split.
  - split.
    + intros H0 iso Hkey. destruct (isCompleted L iso habitId) eqn:E; [|done].
      specialize (Hone iso Hkey E). lia.
    + intros Hnone.
      assert (completed = []) as Hnil.
      { apply elem_of_nil_inv. intros iso [Hiso Hkey]%list_elem_of_filter.
        by rewrite Hnone in Hiso. }
      rewrite Hnil in H2. unfold len in H2. cbn [length] in H2. lia.
  - intros iso Hkey Hiso. specialize (Hone iso Hkey Hiso). lia.
Qed.


(** * The weekly goal of a habit row *)

Lemma weekGoal_cases (doneWeek k : Z) :
  0 <= doneWeek <= 7 → 1 <= k <= 7 →
  let p := Z.max 0 (Z.min 100 (percent doneWeek k)) in
  clamp (float_of_Z (percent doneWeek k)) 0 100 = float_of_Z p ∧
  0 <= p <= 100 ∧ (p = 100 ↔ k <= doneWeek) ∧ (p = 0 ↔ doneWeek = 0).
Proof.
  intros Hd Hk.
  assert (doneWeek = 0 ∨ doneWeek = 1 ∨ doneWeek = 2 ∨ doneWeek = 3 ∨
          doneWeek = 4 ∨ doneWeek = 5 ∨ doneWeek = 6 ∨ doneWeek = 7)
    as Hdc by lia.
  assert (k = 1 ∨ k = 2 ∨ k = 3 ∨ k = 4 ∨ k = 5 ∨ k = 6 ∨ k = 7) as Hkc by lia.
  destruct Hdc as [->|[->|[->|[->|[->|[->|[->| ->]]]]]]];
    destruct Hkc as [->|[->|[->|[->|[->|[->| ->]]]]]];
    intros p; vm_compute in p; subst p;
    (split; [vm_compute; reflexivity|lia]).
Qed.

(** X26: the progress of a habit row towards its weekly goal,
    [clamp(Math.round((doneWeek / target) * 100), 0, 100)], when the
    target [clamp(h.targetPerWeek || 5, 1, 7)] is a whole number [k] and
    [doneWeek] counts at most 7 days: it is a whole number from 0 to 100,
    it is 100 exactly when the count has reached the target, and 0
    exactly when the count is 0. *)
Theorem weekGoal_pct_full_when_met (doneWeek : Z) (targetPerWeek : float) (k : Z) :
  0 <= doneWeek <= 7 → 1 <= k <= 7 →
  target_of targetPerWeek = float_of_Z k →
  ∃ p, weekGoal_pct doneWeek targetPerWeek = float_of_Z p ∧
       0 <= p <= 100 ∧ (p = 100 ↔ k <= doneWeek) ∧ (p = 0 ↔ doneWeek = 0).
Proof.
  intros Hd Hk Ht. unfold weekGoal_pct. cbv zeta. rewrite Ht.
  fold (percent doneWeek k).
  exists (Z.max 0 (Z.min 100 (percent doneWeek k))).
  by apply weekGoal_cases.
Qed.

Lemma weekGoal_pct_full_when_met_witness :
  0 <= 2 <= 7 ∧ 1 <= 3 <= 7 ∧ target_of 3 = float_of_Z 3 ∧
  weekGoal_pct 2 3 = 67%float ∧ weekGoal_pct 6 PrimFloat.nan = 100%float ∧
  ∃ p, weekGoal_pct 2 3 = float_of_Z p ∧
       0 <= p <= 100 ∧ (p = 100 ↔ 3 <= 2) ∧ (p = 0 ↔ 2 = 0).
Proof.
  split; [lia|]. split; [lia|]. split; [reflexivity|].
  split; [vm_compute; reflexivity|]. split; [vm_compute; reflexivity|].
  apply (weekGoal_pct_full_when_met 2 3 3); [lia|lia|reflexivity].
Defined.

(** With a target that is not a whole number the progress can be 100
    before the count reaches the target: for the double nearest to 2.01
    and a count of 2 the quotient rounds to 100 per cent. *)
Lemma weekGoal_pct_fraction :
  let target := 0x1.0147ae147ae14p+1%float in
  target_of target = target ∧ PrimFloat.ltb 2 target = true ∧
  weekGoal_pct 2 target = 100%float.
Proof. vm_compute. done. Qed.

(** * The day picker *)

Lemma DayPicker_step (n k : Z) :
  100 <= YearFromDay n → n <= 100000000 → -683003 <= n + k <= 100000000 →
  toISODate (addDays (parseISODate (toISODate (Day n))) k) =
    toISODate (Day (n + k)).
Proof.
  intros Hy Hn Hk. rewrite parseISODate_toISODate by done.
  by rewrite addDays_valid by lia.
Qed.

(** X25: when the selected key is that of a day [n] and the day before
    it is in year 100 or later, the Prev and Next buttons of the day
    picker select the keys of the days [n - 1] and [n + 1], and each of
    them undoes the other. *)
Theorem DayPicker_prev_next (n : Z) :
  100 <= YearFromDay (n - 1) → n + 1 <= 100000000 →
  let dateISO := toISODate (Day n) in
  DayPicker_prev dateISO = toISODate (Day (n - 1)) ∧
  DayPicker_next dateISO = toISODate (Day (n + 1)) ∧
  DayPicker_next (DayPicker_prev dateISO) = dateISO ∧
  DayPicker_prev (DayPicker_next dateISO) = dateISO.
Proof.
  intros Hy Hn dateISO. pose proof (year_100_lower _ Hy) as Hlow.
  assert (∀ m k, n - 1 <= m <= n + 1 → n - 1 <= m + k <= n + 1 →
            toISODate (addDays (parseISODate (toISODate (Day m))) k) =
              toISODate (Day (m + k))) as Hstep.
  { intros m k Hm Hk. apply DayPicker_step; [|lia..].
    apply year_100_upper. lia. }
  unfold DayPicker_prev, DayPicker_next, dateISO. cbv zeta.
  rewrite (Hstep n (-1)), (Hstep n 1) by lia.
  replace (n + -1) with (n - 1) by lia.
  rewrite (Hstep (n - 1) 1), (Hstep (n + 1) (-1)) by lia.
  replace (n - 1 + 1) with n by lia. replace (n + 1 + -1) with n by lia.
  done.
Qed.

Lemma DayPicker_prev_next_witness :
  100 <= YearFromDay (20759 - 1) ∧ 20759 + 1 <= 100000000 ∧
  toISODate (Day 20759) = "2026-11-02" ∧
  DayPicker_prev "2026-11-02" = "2026-11-01" ∧
  let dateISO := toISODate (Day 20759) in
  DayPicker_prev dateISO = toISODate (Day (20759 - 1)) ∧
  DayPicker_next dateISO = toISODate (Day (20759 + 1)) ∧
  DayPicker_next (DayPicker_prev dateISO) = dateISO ∧
  DayPicker_prev (DayPicker_next dateISO) = dateISO.
Proof.
  split; [vm_compute; discriminate|]. split; [lia|].
  split; [vm_compute; reflexivity|]. split; [vm_compute; reflexivity|].
  apply (DayPicker_prev_next 20759); [vm_compute; discriminate|lia].
Defined.
